(** * pysite: infractions API and code-jam ban gate

    Verification development for
      - [pysite/views/api/bot/infractions.py]  (infraction records, the
        activation rule, create / update / list / lookup), and
      - [pysite/views/main/jams/join.py]       (the code-jam ban gate).

    The infraction views are query builders: the Python code assembles a
    ReQL expression (a tree of [rethinkdb] term objects) and hands it to the
    database, which evaluates it.  The embedding keeps both stages apart:
    the Python functions are Rocq functions that return a [term], and the
    database is the evaluator [eval] of those terms over stored documents.
    The jam views are plain Python over documents fetched from the store and
    are embedded as state-passing functions over the table. *)

From Stdlib Require Import ZArith List String Ascii Bool Lia.
Import ListNotations.

Set Warnings "-register-all".

Open Scope string_scope.
Open Scope list_scope.
Open Scope Z_scope.

(* ================================================================== *)
(** * ReQL data *)
(* ================================================================== *)

Module ReQL.

(** JSON-like values stored in and returned by the database.  Times are the
    TIME pseudo-type; the model counts them in microseconds since the epoch,
    the resolution of Python's [datetime]. *)
Inductive datum : Type :=
| DNull
| DBool (b : bool)
| DNum (n : Z)
| DStr (s : string)
| DTime (t : Z)
| DArr (items : list datum)
| DObj (fields : list (string * datum)).

(** Errors a query can end in.  RethinkDB tells apart non-existence errors
    (a missing attribute, an operation on null, an index out of bounds),
    which [default] recovers from, and every other runtime error, which it
    does not.  [Unmodelled] marks the few operations whose outcome the
    model leaves open (the order between values of different or
    structured types, a look-up under the key null, a field of a
    sequence); nothing is proved about a query that reaches one. *)
Inductive error : Type := NonExistence | LogicError | Unmodelled.

Inductive result (A : Type) : Type :=
| Ok (a : A)
| Err (e : error).
Arguments Ok {A} a.
Arguments Err {A} e.

Definition bind {A B} (r : result A) (k : A -> result B) : result B :=
  match r with
  | Ok a => k a
  | Err e => Err e
  end.

Notation "x <- c1 ;; c2" := (bind c1 (fun x => c2))
  (at level 61, c1 at next level, right associativity).

Fixpoint mapM {A B} (f : A -> result B) (l : list A) : result (list B) :=
  match l with
  | [] => Ok []
  | a :: l' => b <- f a ;; bs <- mapM f l' ;; Ok (b :: bs)
  end.

(** ** Structural induction through the nested lists *)

Section DatumInd.
Variable P : datum -> Prop.
Hypothesis HNull : P DNull.
Hypothesis HBool : forall b, P (DBool b).
Hypothesis HNum : forall n, P (DNum n).
Hypothesis HStr : forall s, P (DStr s).
Hypothesis HTime : forall t, P (DTime t).
Hypothesis HArr : forall items, Forall P items -> P (DArr items).
Hypothesis HObj :
  forall fields, Forall (fun kv => P (snd kv)) fields -> P (DObj fields).

Fixpoint datum_nested_ind (d : datum) : P d :=
  match d with
  | DNull => HNull
  | DBool b => HBool b
  | DNum n => HNum n
  | DStr s => HStr s
  | DTime t => HTime t
  | DArr items =>
      HArr items
        ((fix all (l : list datum) : Forall P l :=
            match l with
            | [] => Forall_nil _
            | x :: l' => Forall_cons _ (datum_nested_ind x) (all l')
            end) items)
  | DObj fields =>
      HObj fields
        ((fix all (l : list (string * datum))
            : Forall (fun kv => P (snd kv)) l :=
            match l with
            | [] => Forall_nil _
            | kv :: l' =>
                Forall_cons _ (datum_nested_ind (snd kv)) (all l')
            end) fields)
  end.
End DatumInd.

(** ** Equality of values ([eq]) *)

Fixpoint datum_eqb (a b : datum) {struct a} : bool :=
  match a, b with
  | DNull, DNull => true
  | DBool x, DBool y => Bool.eqb x y
  | DNum x, DNum y => Z.eqb x y
  | DStr x, DStr y => String.eqb x y
  | DTime x, DTime y => Z.eqb x y
  | DArr xs, DArr ys =>
      (fix go (xs ys : list datum) : bool :=
         match xs, ys with
         | [], [] => true
         | x :: xs', y :: ys' => datum_eqb x y && go xs' ys'
         | _, _ => false
         end) xs ys
  | DObj xs, DObj ys =>
      (fix go (xs ys : list (string * datum)) : bool :=
         match xs, ys with
         | [], [] => true
         | kx :: xs', ky :: ys' =>
             String.eqb (fst kx) (fst ky)
             && datum_eqb (snd kx) (snd ky)
             && go xs' ys'
         | _, _ => false
         end) xs ys
  | _, _ => false
  end.

(** ** Objects

    An object is an association list kept sorted by key, without
    duplicates: writing a field puts it at its place in that order, so two
    objects with the same fields are the same list whatever the order in
    which the fields were written. *)

Fixpoint obj_get (k : string) (fields : list (string * datum)) : option datum :=
  match fields with
  | [] => None
  | (k', v) :: rest => if String.eqb k k' then Some v else obj_get k rest
  end.

Fixpoint obj_set (k : string) (v : datum) (fields : list (string * datum))
  : list (string * datum) :=
  match fields with
  | [] => [(k, v)]
  | (k', v') :: rest =>
      match String.compare k k' with
      | Eq => (k, v) :: rest
      | Lt => (k, v) :: (k', v') :: rest
      | Gt => (k', v') :: obj_set k v rest
      end
  end.

(** The object of a Python dict literal. *)
Definition dict (fields : list (string * datum)) : datum :=
  DObj (fold_left (fun acc kv => obj_set (fst kv) (snd kv) acc) fields []).

Definition obj_remove (k : string) (fields : list (string * datum))
  : list (string * datum) :=
  filter (fun kv => negb (String.eqb k (fst kv))) fields.

Definition get_field (d : datum) (k : string) : option datum :=
  match d with
  | DObj fields => obj_get k fields
  | _ => None
  end.

(** [base.merge(patch)]: fields of [patch] override those of [base]; two
    objects under the same key are merged recursively. *)
Fixpoint merge_datum (patch base : datum) {struct patch} : datum :=
  match patch with
  | DObj pf =>
      match base with
      | DObj bf =>
          DObj
            ((fix go (pf acc : list (string * datum)) : list (string * datum) :=
                match pf with
                | [] => acc
                | kv :: rest =>
                    go rest
                      (obj_set (fst kv)
                         (match obj_get (fst kv) acc with
                          | Some old => merge_datum (snd kv) old
                          | None => snd kv
                          end) acc)
                end) pf bf)
      | _ => patch
      end
  | _ => patch
  end.

(** [filter({k: v, ...})]: a row is kept when it has every field of the
    predicate with an equal value; a row that lacks one is skipped. *)
Definition obj_matches (pred : list (string * datum)) (row : datum) : bool :=
  forallb
    (fun kv =>
       match get_field row (fst kv) with
       | Some v => datum_eqb v (snd kv)
       | None => false
       end) pred.

(** Everything but [false] and [null] counts as true in [branch] and [or]. *)
Definition truthy (d : datum) : bool :=
  match d with
  | DNull => false
  | DBool b => b
  | _ => true
  end.

(** Order between values ([>]), for two values of the same scalar type;
    strings compare byte by byte.  The order across types and inside
    arrays and objects is left out. *)
Definition datum_gt (a b : datum) : result bool :=
  match a, b with
  | DNull, DNull => Ok false
  | DBool x, DBool y => Ok (x && negb y)
  | DNum x, DNum y => Ok (x >? y)
  | DTime x, DTime y => Ok (x >? y)
  | DStr x, DStr y => Ok (String.ltb y x)
  | _, _ => Err Unmodelled
  end.

(** ** Tables *)

Record table : Type := mkTable {
  primary_key : string;
  documents : list datum
}.

Definition database : Type := list (string * table).

Fixpoint find_table (name : string) (db : database) : option table :=
  match db with
  | [] => None
  | (n, t) :: rest => if String.eqb name n then Some t else find_table name rest
  end.

Definition has_key (pk : string) (key : datum) (doc : datum) : bool :=
  match get_field doc pk with
  | Some v => datum_eqb v key
  | None => false
  end.

Definition table_get (t : table) (key : datum) : datum :=
  match find (has_key (primary_key t) key) (documents t) with
  | Some doc => doc
  | None => DNull
  end.

(** ** Terms

    The constructors are the ReQL operations the two views build. [Var] is
    the argument of the innermost enclosing function ([merge] takes a
    one-argument function; the program never nests two). *)
Inductive term : Type :=
| Expr (d : datum)
| Var
| Now
| Bracket (t : term) (field : string)
| Default (t : term) (d : term)
| ReqlEq (a b : term)
| ReqlGt (a b : term)
| ReqlOr (a b : term)
| Branch (c a b : term)
| MakeObj (fields : list (string * term))
| Table (name : string)
| Get (name : string) (key : term)
| Merge (t : term) (f : term)
| Filter (t : term) (pred : list (string * datum))
| Without (t : term) (fields : list string)
| Limit (t : term) (n : nat)
| Nth (t : term) (n : nat)
| CoerceToArray (t : term).

Definition without_fields (names : list string) (d : datum) : result datum :=
  match d with
  | DObj fields => Ok (DObj (fold_right obj_remove fields names))
  | DNull => Err NonExistence
  | _ => Err LogicError
  end.

Definition merge_row (patch : result datum) (row : datum) : result datum :=
  p <- patch ;; Ok (merge_datum p row).

(** Evaluation of a term by the server: [db] is the stored data, [now] the
    server's clock for this query ([rethinkdb.now()] is fixed once per
    query), [row] the argument of the enclosing function.  A sequence is
    evaluated whole: the server streams it, which makes a difference only
    when a row it would not have reached raises an error. *)
Fixpoint eval (db : database) (now : Z) (row : option datum) (t : term)
  {struct t} : result datum :=
  match t with
  | Expr d => Ok d
  | Var => match row with Some r => Ok r | None => Err LogicError end
  | Now => Ok (DTime now)
  | Bracket t f =>
      v <- eval db now row t ;;
      match v with
      | DObj fields =>
          match obj_get f fields with
          | Some x => Ok x
          | None => Err NonExistence
          end
      | DNull => Err NonExistence
      | DArr _ => Err Unmodelled
      | _ => Err LogicError
      end
  | Default t d =>
      match eval db now row t with
      | Ok DNull => eval db now row d
      | Err NonExistence => eval db now row d
      | other => other
      end
  | ReqlEq a b =>
      x <- eval db now row a ;;
      y <- eval db now row b ;;
      Ok (DBool (datum_eqb x y))
  | ReqlGt a b =>
      x <- eval db now row a ;;
      y <- eval db now row b ;;
      r <- datum_gt x y ;;
      Ok (DBool r)
  | ReqlOr a b =>
      x <- eval db now row a ;;
      if truthy x then Ok x else eval db now row b
  | Branch c a b =>
      x <- eval db now row c ;;
      if truthy x then eval db now row a else eval db now row b
  | MakeObj fields =>
      fs <- (fix go (fields : list (string * term))
               : result (list (string * datum)) :=
               match fields with
               | [] => Ok []
               | kt :: rest =>
                   v <- eval db now row (snd kt) ;;
                   vs <- go rest ;;
                   Ok (obj_set (fst kt) v vs)
               end) fields ;;
      Ok (DObj fs)
  | Table name =>
      match find_table name db with
      | Some tb => Ok (DArr (documents tb))
      | None => Err LogicError
      end
  | Get name key =>
      k <- eval db now row key ;;
      match find_table name db with
      | Some tb =>
          match k with
          | DNull => Err Unmodelled
          | DObj _ => Err LogicError
          | _ => Ok (table_get tb k)
          end
      | None => Err LogicError
      end
  | Merge t f =>
      v <- eval db now row t ;;
      match v with
      | DArr rows =>
          rs <- mapM (fun r => merge_row (eval db now (Some r) f) r) rows ;;
          Ok (DArr rs)
      | DObj _ => merge_row (eval db now (Some v) f) v
      | DNull => Err NonExistence
      | _ => Err LogicError
      end
  | Filter t pred =>
      v <- eval db now row t ;;
      match v with
      | DArr rows => Ok (DArr (filter (obj_matches pred) rows))
      | DNull => Err NonExistence
      | _ => Err LogicError
      end
  | Without t names =>
      v <- eval db now row t ;;
      match v with
      | DArr rows => rs <- mapM (without_fields names) rows ;; Ok (DArr rs)
      | _ => without_fields names v
      end
  | Limit t n =>
      v <- eval db now row t ;;
      match v with
      | DArr rows => Ok (DArr (firstn n rows))
      | DNull => Err NonExistence
      | _ => Err LogicError
      end
  | Nth t n =>
      v <- eval db now row t ;;
      match v with
      | DArr rows =>
          match nth_error rows n with
          | Some r => Ok r
          | None => Err NonExistence
          end
      | DNull => Err NonExistence
      | _ => Err LogicError
      end
  | CoerceToArray t =>
      v <- eval db now row t ;;
      match v with
      | DArr rows => Ok (DArr rows)
      | DNull => Err NonExistence
      | _ => Err Unmodelled
      end
  end.

(** ** Writes

    A write reports what happened to each document it visited, as
    RethinkDB does: [replaced] counts the documents that were changed,
    [unchanged] those whose new value equals the old one, [skipped] a
    [get] that found nothing, [errors] the documents the write failed on
    (the write itself does not raise: the count and the first message come
    back in the result). *)
Record write_result : Type := mkWriteResult {
  replaced : nat;
  unchanged : nat;
  skipped : nat;
  errors : nat;
  inserted : nat;
  generated_keys : list string
}.

Definition no_write : write_result := mkWriteResult 0 0 0 0 0 [].

Inductive outcome : Type := Replaced | Unchanged | Errored.

Definition option_datum_eqb (a b : option datum) : bool :=
  match a, b with
  | Some x, Some y => datum_eqb x y
  | None, None => true
  | _, _ => false
  end.

(** [update] of one document: the patch is merged in; a patch that would
    change the primary key is an error and leaves the document alone. *)
Definition update_doc (pk : string) (patch doc : datum) : datum * outcome :=
  let new := merge_datum patch doc in
  if negb (option_datum_eqb (get_field new pk) (get_field doc pk))
  then (doc, Errored)
  else if datum_eqb new doc then (doc, Unchanged)
  else (new, Replaced).

Definition count_outcome (o : outcome) (r : write_result) : write_result :=
  match o with
  | Replaced =>
      mkWriteResult (S (replaced r)) (unchanged r) (skipped r) (errors r)
        (inserted r) (generated_keys r)
  | Unchanged =>
      mkWriteResult (replaced r) (S (unchanged r)) (skipped r) (errors r)
        (inserted r) (generated_keys r)
  | Errored =>
      mkWriteResult (replaced r) (unchanged r) (skipped r) (S (errors r))
        (inserted r) (generated_keys r)
  end.

(** [table.update(patch)]: every document of the table is visited. *)
Fixpoint update_all (pk : string) (patch : datum) (docs : list datum)
  : list datum * write_result :=
  match docs with
  | [] => ([], no_write)
  | d :: rest =>
      let (d', o) := update_doc pk patch d in
      let (rest', r) := update_all pk patch rest in
      (d' :: rest', count_outcome o r)
  end.

(** [table.get(key).update(patch)]: only the document under [key]. *)
Fixpoint update_one (pk : string) (key patch : datum) (docs : list datum)
  : list datum * write_result :=
  match docs with
  | [] => ([], mkWriteResult 0 0 1 0 0 [])
  | d :: rest =>
      if has_key pk key d
      then let (d', o) := update_doc pk patch d in
           (d' :: rest, count_outcome o no_write)
      else let (rest', r) := update_one pk key patch rest in
           (d :: rest', r)
  end.

(** [insert] of a document that carries no primary key: the server draws a
    key ([fresh], a UUID) and stores the document under it, last in the
    table.  Should the key be taken the insert is an error. *)
Definition insert_doc (pk : string) (fresh : string) (doc : datum)
  (docs : list datum) : list datum * write_result :=
  match doc with
  | DObj fields =>
      if existsb (has_key pk (DStr fresh)) docs
      then (docs, mkWriteResult 0 0 0 1 0 [])
      else (docs ++ [DObj (obj_set pk (DStr fresh) fields)],
            mkWriteResult 0 0 0 0 1 [fresh])
  | _ => (docs, mkWriteResult 0 0 0 1 0 [])
  end.

Fixpoint set_table (name : string) (tb : table) (db : database) : database :=
  match db with
  | [] => []
  | (n, t) :: rest =>
      if String.eqb name n then (n, tb) :: rest
      else (n, t) :: set_table name tb rest
  end.

(** The two write queries the views build. *)
Inductive write_query : Type :=
| GetUpdate (name : string) (key : datum) (patch : datum)
| TableUpdate (name : string) (patch : datum).

Definition run_write_query (q : write_query) (db : database)
  : result (database * write_result) :=
  match q with
  | GetUpdate name key patch =>
      match find_table name db with
      | Some tb =>
          let (docs, r) := update_one (primary_key tb) key patch (documents tb) in
          Ok (set_table name (mkTable (primary_key tb) docs) db, r)
      | None => Err LogicError
      end
  | TableUpdate name patch =>
      match find_table name db with
      | Some tb =>
          let (docs, r) := update_all (primary_key tb) patch (documents tb) in
          Ok (set_table name (mkTable (primary_key tb) docs) db, r)
      | None => Err LogicError
      end
  end.

Definition run_insert (name : string) (fresh : string) (doc : datum)
  (db : database) : result (database * write_result) :=
  match find_table name db with
  | Some tb =>
      let (docs, r) := insert_doc (primary_key tb) fresh doc (documents tb) in
      Ok (set_table name (mkTable (primary_key tb) docs) db, r)
  | None => Err LogicError
  end.

End ReQL.

(* ================================================================== *)
(** * Python values and the request environment *)
(* ================================================================== *)

Module Py.
Import ReQL.

(** [str.lower()] on the ASCII letters. *)
Definition lower_ascii (c : ascii) : ascii :=
  let n := nat_of_ascii c in
  if (Nat.leb 65 n && Nat.leb n 90)%bool then ascii_of_nat (n + 32) else c.

Fixpoint lower (s : string) : string :=
  match s with
  | EmptyString => EmptyString
  | String c rest => String (lower_ascii c) (lower rest)
  end.

(** Truth value of a Python object that came back from the database:
    [None], [False], [0], the empty string, list and dict are false. *)
Definition truth (d : datum) : bool :=
  match d with
  | DNull => false
  | DBool b => b
  | DNum n => negb (n =? 0)
  | DStr s => negb (String.eqb s "")
  | DTime _ => true
  | DArr items => match items with [] => false | _ => true end
  | DObj fields => match fields with [] => false | _ => true end
  end.

(** Truth value of a ReQL term object.  The driver's term class overloads
    the comparison and arithmetic operators but defines neither [__bool__]
    nor [__len__], so [not t], [if t:] and [t and u] see an ordinary object:
    every term is true, whatever it will evaluate to on the server. *)
Definition truth_of_term (t : term) : bool := true.

(** [t is None] for a term object: it never is. *)
Definition term_is_None (t : term) : bool := false.

(** Truth value of an optional flag ([None], [False] or [True]). *)
Definition truth_of_flag (b : option bool) : bool :=
  match b with
  | Some true => true
  | _ => false
  end.

(** Truth value of an optional int: [None] and [0] are false. *)
Definition truth_of_int (n : option Z) : bool :=
  match n with
  | Some v => negb (v =? 0)
  | None => false
  end.

(** The length of [n] seconds on the model's clock. *)
Definition microseconds (seconds : Z) : Z := seconds * 1000000.

(** The least and the greatest [datetime] in UTC, on the model's clock: the
    first microsecond of the year 1 and the last of the year 9999. *)
Definition datetime_min : Z := -62135596800000000.

Definition datetime_max : Z := 253402300799999999.

(** [datetime.timedelta(seconds=n)].  A timedelta holds at most 999999999
    days either way; [None] stands for the [OverflowError] it raises
    beyond that. *)
Definition timedelta (seconds : Z) : option Z :=
  if ((-999999999 <=? seconds / 86400) && (seconds / 86400 <=? 999999999))%bool
  then Some (microseconds seconds)
  else None.

(** [d + delta] for a datetime and a timedelta.  [None] stands for the
    [OverflowError] it raises when the sum leaves the years 1 to 9999. *)
Definition datetime_add (d delta : Z) : option Z :=
  if ((datetime_min <=? d + delta) && (d + delta <=? datetime_max))%bool
  then Some (d + delta)
  else None.

(** A dict with string keys. *)
Fixpoint dict_get {A} (k : string) (d : list (string * A)) : option A :=
  match d with
  | [] => None
  | (k', v) :: rest => if String.eqb k k' then Some v else dict_get k rest
  end.

Definition dict_keys {A} (d : list (string * A)) : list string := map fst d.

(** [d[k] = v]: the value is replaced where the key stands, a new key
    goes last. *)
Fixpoint dict_set {A} (k : string) (v : A) (d : list (string * A))
  : list (string * A) :=
  match d with
  | [] => [(k, v)]
  | (k', v') :: rest =>
      if String.eqb k k' then (k', v) :: rest else (k', v') :: dict_set k v rest
  end.

End Py.

(* ================================================================== *)
(** * pysite/views/api/bot/infractions.py *)
(* ================================================================== *)

Module Infractions.
Import ReQL Py.

(** ** The store as the views see it *)

(** Modelled from the spec: the views reach the store through
    [self.db] (pysite.database, a thin wrapper over the RethinkDB driver),
    which is not part of the sources at hand.  [query] names a table,
    [run] sends a query and returns its value or raises the server's
    error, [insert] stores a document and returns the write result.  Every
    call is recorded, in order, in the world's [log]. *)
Inductive db_op : Type :=
| OpRun (now : Z) (q : term)
| OpInsert (name : string) (doc : datum)
| OpWrite (q : write_query).

Record world : Type := mkWorld {
  store : database;
  log : list db_op
}.

Inductive exn : Type :=
| ReqlError (e : error)
| KeyError (k : string)
| OverflowError.

Inductive completion (A : Type) : Type :=
| Returns (a : A)
| Raises (e : exn).
Arguments Returns {A} a.
Arguments Raises {A} e.

Definition M (A : Type) : Type := world -> completion A * world.

Definition ret {A} (a : A) : M A := fun w => (Returns a, w).

Definition raise {A} (e : exn) : M A := fun w => (Raises e, w).

Definition bindM {A B} (m : M A) (k : A -> M B) : M B :=
  fun w =>
    match m w with
    | (Returns a, w') => k a w'
    | (Raises e, w') => (Raises e, w')
    end.

Notation "x <~ m ;; k" := (bindM m (fun x => k))
  (at level 61, m at next level, right associativity).

(** [t + datetime.timedelta(seconds=n)], with the [OverflowError] of
    either step. *)
Definition add_seconds (t seconds : Z) : M Z :=
  match timedelta seconds with
  | Some delta =>
      match datetime_add t delta with
      | Some sum => ret sum
      | None => raise OverflowError
      end
  | None => raise OverflowError
  end.

Definition db_run (now : Z) (q : term) : M datum :=
  fun w =>
    let w' := mkWorld (store w) (log w ++ [OpRun now q]) in
    match eval (store w) now None q with
    | Ok d => (Returns d, w')
    | Err e => (Raises (ReqlError e), w')
    end.

Definition db_run_write (q : write_query) : M write_result :=
  fun w =>
    match run_write_query q (store w) with
    | Ok (db', r) => (Returns r, mkWorld db' (log w ++ [OpWrite q]))
    | Err e => (Raises (ReqlError e), mkWorld (store w) (log w ++ [OpWrite q]))
    end.

(** [fresh] is the key the server draws for the new document. *)
Definition db_insert (name : string) (doc : datum) (fresh : string)
  : M write_result :=
  fun w =>
    match run_insert name fresh doc (store w) with
    | Ok (db', r) => (Returns r, mkWorld db' (log w ++ [OpInsert name doc]))
    | Err e =>
        (Raises (ReqlError e), mkWorld (store w) (log w ++ [OpInsert name doc]))
    end.

(** What a view hands back to the framework. *)
Inductive response : Type :=
| Json (body : datum)
| BadRequest.

Definition jsonify (body : datum) : response := Json body.

(** ** Infraction types *)

Record InfractionType : Type := mkInfractionType {
  timed_infraction : bool
}.

Definition INFRACTION_TYPES : list (string * InfractionType) :=
  [ ("warning", mkInfractionType false);
    ("mute", mkInfractionType true);
    ("ban", mkInfractionType true);
    ("kick", mkInfractionType false);
    ("softban", mkInfractionType false) ].

(** [INFRACTION_TYPES[key].timed_infraction] for a key of the dict. *)
Definition is_timed_key (key : string) : bool :=
  match dict_get key INFRACTION_TYPES with
  | Some t => timed_infraction t
  | None => false
  end.

(** ** Request data, as the schemas let it through *)

(** Modelled from the spec: [api_params] (pysite.decorators) validates the
    request against the schema before the view runs and rejects what does
    not fit; a record below is a request that has its required fields with
    the schema's types, [None] standing for an optional key that is absent.
    The one check that is not a type, the membership of ["type"] in
    [INFRACTION_TYPES], is [valid_create]. *)
Record CreateData : Type := mkCreateData {
  c_type : string;
  c_reason : string;
  c_user_id : string;
  c_actor_id : string;
  c_duration : option Z;
  c_expand : option bool
}.

Definition valid_create (data : CreateData) : bool :=
  existsb (String.eqb (c_type data)) (dict_keys INFRACTION_TYPES).

(** [UPDATE_INFRACTION_SCHEMA] has no ["expand"] key, so a validated
    update request never carries one. *)
Record UpdateData : Type := mkUpdateData {
  u_id : string;
  u_reason : option string;
  u_duration : option Z;
  u_active : option bool
}.

Definition params_t : Type := list (string * string).

Record view : Type := mkView {
  table_name : string
}.

Definition bot_infractions_view : view := mkView "bot_infractions".

(** ** Helpers of the module *)

Definition parse_bool (a_string : option string) (default : option bool)
  : option bool :=
  match a_string with
  | None => default
  | Some s =>
      if (String.eqb s "null" || String.eqb s "any")%bool then default
      else if (String.eqb (lower s) "false" || String.eqb (lower s) "no"
               || String.eqb s "0")%bool
      then Some false
      else Some true
  end.

Definition _is_timed_infraction (type_var : term) : term :=
  let timed_infractions := filter is_timed_key (dict_keys INFRACTION_TYPES) in
  fold_left
    (fun expr infra_type =>
       if term_is_None expr then ReqlEq type_var (Expr (DStr infra_type))
       else ReqlOr expr (ReqlEq type_var (Expr (DStr infra_type))))
    timed_infractions
    (Expr (DBool false)).

(** The function [_merge] that [_merge_active_check()] returns, applied to
    the row variable. *)
Definition _merge_active_check (row : term) : term :=
  MakeObj
    [ ("active",
       Branch (_is_timed_infraction (Bracket row "type"))
         (Branch
            (ReqlEq (Default (Bracket row "active") (Expr (DBool true)))
               (Expr (DBool false)))
            (Expr (DBool false))
            (Branch (ReqlEq (Bracket row "expires_at") (Expr DNull))
               (Expr (DBool true))
               (ReqlGt (Bracket row "expires_at") Now)))
         (Expr (DBool false))) ].

(** [_do_expand] runs while the query is built: [user_id] is a term, and
    [not user_id] asks for the truth value of that term object. *)
Definition _do_expand (expand : option bool) (user_id : term) : term :=
  if negb (truth_of_term user_id) then Expr DNull
  else if truth_of_flag expand
  then Default (Get "users" user_id) (MakeObj [("user_id", user_id)])
  else MakeObj [("user_id", user_id)].

Definition _merge_expand_users (expand : option bool) (row : term) : term :=
  MakeObj
    [ ("user", _do_expand expand (Default (Bracket row "user_id") (Expr DNull)));
      ("actor", _do_expand expand (Default (Bracket row "actor_id") (Expr DNull))) ].

Definition _merged_query (v : view) (expand : option bool)
  (query_filter : list (string * datum)) : term :=
  Without
    (Merge
       (Filter (Merge (Table (table_name v)) (_merge_active_check Var))
          query_filter)
       (_merge_expand_users expand Var))
    ["user_id"; "actor_id"].

(** The query that fetches one infraction by id, shaped for the client;
    [post], [patch] and [InfractionById.get] all build it. *)
Definition shaped_by_id (v : view) (expand : option bool) (key : string) : term :=
  Default
    (Without
       (Merge
          (Merge (Get (table_name v) (Expr (DStr key)))
             (_merge_expand_users expand Var))
          (_merge_active_check Var))
       ["user_id"; "actor_id"])
    (Expr DNull).

Definition params_or_empty (params : option params_t) : params_t :=
  match params with
  | Some p => p
  | None => []
  end.

Definition _infraction_list_filtered (v : view) (params : option params_t)
  (query_filter : list (string * datum)) (now : Z) : M response :=
  let params := params_or_empty params in
  let active := parse_bool (dict_get "active" params) None in
  let expand := parse_bool (dict_get "expand" params) (Some false) in
  let query_filter :=
    match active with
    | Some b => dict_set "active" (DBool b) query_filter
    | None => query_filter
    end in
  let query := _merged_query v expand query_filter in
  rows <~ db_run now (CoerceToArray query) ;;
  ret (jsonify rows).

(** ** The views *)

(** [InfractionsView.get] *)
Definition InfractionsView_get (params : option params_t) (now : Z)
  : M response :=
  _infraction_list_filtered bot_infractions_view params [] now.

(** [InfractionsView.post].  [inserted_at] is the Python clock at the
    start of the request, [now_lookup] and [now_read] the server's clock for
    the two queries that derive [active], [fresh] the key the server draws
    for the inserted document.  The expiry is computed after the look-up
    and before the insert, and may raise [OverflowError]. *)
Definition InfractionsView_post (data : CreateData)
  (inserted_at now_lookup now_read : Z) (fresh : string) : M response :=
  if negb (valid_create data) then ret BadRequest else
  let self := bot_infractions_view in
  let infraction_type := c_type data in
  let user_id := c_user_id data in
  let actor_id := c_actor_id data in
  let reason := c_reason data in
  let duration := c_duration data in
  let expand := c_expand data in
  prepared <~
    (if is_timed_key infraction_type then
       let active_infraction_query :=
         Default
           (Nth
              (Limit
                 (Filter
                    (Merge (Table (table_name self)) (_merge_active_check Var))
                    [ ("user_id", DStr user_id);
                      ("type", DStr infraction_type);
                      ("active", DBool true) ])
                 1)
              0)
           (Expr DNull) in
       active_infraction <~ db_run now_lookup active_infraction_query ;;
       deactivate_infraction_query <~
         (if truth active_infraction then
            match get_field active_infraction "id" with
            | Some key =>
                ret (Some (GetUpdate (table_name self) key
                             (dict [("active", DBool false)])))
            | None => raise (KeyError "id")
            end
          else ret None) ;;
       expires_at <~
         (if truth_of_int duration
          then match duration with
               | Some d =>
                   sum <~ add_seconds inserted_at d ;; ret (DTime sum)
               | None => ret DNull
               end
          else ret DNull) ;;
       ret (deactivate_infraction_query, expires_at)
     else ret (None, DNull)) ;;
  let deactivate_infraction_query := fst prepared in
  let expires_at := snd prepared in
  let infraction_insert_doc :=
    dict [ ("actor_id", DStr actor_id);
           ("user_id", DStr user_id);
           ("type", DStr infraction_type);
           ("reason", DStr reason);
           ("inserted_at", DTime inserted_at);
           ("expires_at", expires_at) ] in
  inserted <~ db_insert (table_name self) infraction_insert_doc fresh ;;
  match generated_keys inserted with
  | [] => raise (KeyError "generated_keys")
  | infraction_id :: _ =>
      _done <~
        (match deactivate_infraction_query with
         | Some q => r <~ db_run_write q ;; ret tt
         | None => ret tt
         end) ;;
      infraction <~ db_run now_read (shaped_by_id self expand infraction_id) ;;
      ret (jsonify (dict [("infraction", infraction)]))
  end.

(** [InfractionsView.patch].  [current_time] is the Python clock when the
    update is built, [now_read] the server's clock for the read-back.  The
    expiry is computed while the update is built, before any call to the
    database, and may raise [OverflowError]. *)
Definition InfractionsView_patch (data : UpdateData)
  (current_time now_read : Z) : M response :=
  let self := bot_infractions_view in
  let expand : option bool := None in
  let update_collection := [("id", DStr (u_id data))] in
  let update_collection :=
    match u_reason data with
    | Some reason => dict_set "reason" (DStr reason) update_collection
    | None => update_collection
    end in
  let update_collection :=
    match u_active data with
    | Some active => dict_set "active" (DBool active) update_collection
    | None => update_collection
    end in
  update_collection <~
    (match u_duration data with
     | Some duration =>
         sum <~ add_seconds current_time duration ;;
         ret (dict_set "expires_at" (DTime sum) update_collection)
     | None => ret update_collection
     end) ;;
  let query_update := TableUpdate (table_name self) (dict update_collection) in
  result_update <~ db_run_write query_update ;;
  if Nat.eqb (replaced result_update) 0 then
    ret (jsonify (dict [("success", DBool false)]))
  else
    infraction <~ db_run now_read (shaped_by_id self expand (u_id data)) ;;
    ret (jsonify (dict [("infraction", infraction); ("success", DBool true)])).

(** [InfractionById.get] *)
Definition InfractionById_get (params : option params_t)
  (infraction_id : string) (now : Z) : M response :=
  let self := bot_infractions_view in
  let params := params_or_empty params in
  let expand := parse_bool (dict_get "expand" params) (Some false) in
  infraction <~ db_run now (shaped_by_id self expand infraction_id) ;;
  ret (jsonify (dict [("infraction", infraction)])).

(** [ListInfractionsByUserView.get] *)
Definition ListInfractionsByUserView_get (params : option params_t)
  (user_id : string) (now : Z) : M response :=
  _infraction_list_filtered bot_infractions_view params
    [("user_id", DStr user_id)] now.

(** [ListInfractionsByTypeView.get] *)
Definition ListInfractionsByTypeView_get (params : option params_t)
  (type : string) (now : Z) : M response :=
  _infraction_list_filtered bot_infractions_view params
    [("type", DStr type)] now.

(** [ListInfractionsByTypeAndUserView.get] *)
Definition ListInfractionsByTypeAndUserView_get (params : option params_t)
  (user_id type : string) (now : Z) : M response :=
  _infraction_list_filtered bot_infractions_view params
    [("user_id", DStr user_id); ("type", DStr type)] now.

(** [CurrentInfractionByTypeAndUserView.get] *)
Definition CurrentInfractionByTypeAndUserView_get (params : option params_t)
  (user_id type : string) (now : Z) : M response :=
  let self := bot_infractions_view in
  let params := params_or_empty params in
  let expand := parse_bool (dict_get "expand" params) (Some false) in
  let query_filter := [("user_id", DStr user_id); ("type", DStr type)] in
  let query :=
    Default
      (Nth
         (Limit
            (Filter (_merged_query self expand query_filter)
               [("active", DBool true)])
            1)
         0)
      (Expr DNull) in
  infraction <~ db_run now query ;;
  ret (jsonify (dict [("infraction", infraction)])).

(** ** Infraction records

    A stored infraction, with the fields [post] writes.  [expires_at] is
    always present and may be null; [active] is absent until an update or a
    supersession writes it. *)
Record Infraction : Type := mkInfraction {
  id : string;
  actor_id : string;
  user_id : string;
  type : string;
  reason : string;
  inserted_at : Z;
  expires_at : option Z;
  active : option bool
}.

Definition time_or_null (t : option Z) : datum :=
  match t with
  | Some v => DTime v
  | None => DNull
  end.

Definition stored_active (a : option bool) : list (string * datum) :=
  match a with
  | Some b => [("active", DBool b)]
  | None => []
  end.

(** The document of a record. *)
Definition doc_of (r : Infraction) : datum :=
  DObj
    (stored_active (active r)
     ++ [ ("actor_id", DStr (actor_id r));
          ("expires_at", time_or_null (expires_at r));
          ("id", DStr (id r));
          ("inserted_at", DTime (inserted_at r));
          ("reason", DStr (reason r));
          ("type", DStr (type r));
          ("user_id", DStr (user_id r)) ]).

(** The document of a record whose override is stored as an explicit
    null. *)
Definition doc_of_null_active (r : Infraction) : datum :=
  DObj
    [ ("active", DNull);
      ("actor_id", DStr (actor_id r));
      ("expires_at", time_or_null (expires_at r));
      ("id", DStr (id r));
      ("inserted_at", DTime (inserted_at r));
      ("reason", DStr (reason r));
      ("type", DStr (type r));
      ("user_id", DStr (user_id r)) ].

(** The database: the infractions table under its default primary key
    and the users table. *)
Definition db_of (infractions : list Infraction) (users : list datum)
  : database :=
  [ ("bot_infractions", mkTable "id" (map doc_of infractions));
    ("users", mkTable "user_id" users) ].

(** ** The activation rule, as the specification words it *)

Definition timed (type : string) : bool :=
  (String.eqb type "mute" || String.eqb type "ban")%bool.

Definition stored_false (a : option bool) : bool :=
  match a with
  | Some false => true
  | _ => false
  end.

Definition effective_active (now : Z) (r : Infraction) : bool :=
  if negb (timed (type r)) then false
  else if stored_false (active r) then false
  else match expires_at r with
       | None => true
       | Some e => e >? now
       end.

(** ** Typed view of the table

    The views read and write documents; the statements below speak of the
    records behind them.  These definitions name what a query selects and
    what a write leaves behind, in terms of records. *)

Definition find_by_id (key : string) (tbl : list Infraction)
  : option Infraction :=
  find (fun r => String.eqb (id r) key) tbl.

Definition with_active (a : option bool) (r : Infraction) : Infraction :=
  mkInfraction (id r) (actor_id r) (user_id r) (type r) (reason r)
    (inserted_at r) (expires_at r) a.

(** The record a reader is shown: the stored override gives way to the
    value of the rule at the time of the query. *)
Definition derive (now : Z) (r : Infraction) : Infraction :=
  with_active (Some (effective_active now r)) r.

Definition stub (uid : string) : datum := DObj [("user_id", DStr uid)].

(** The user object attached to a shaped infraction. *)
Definition user_ref (users : list datum) (expand : option bool) (uid : string)
  : datum :=
  if truth_of_flag expand then
    match table_get (mkTable "user_id" users) (DStr uid) with
    | DNull => stub uid
    | profile => profile
    end
  else stub uid.

(** The document of a record once the user objects have been merged in,
    before the raw references are dropped. *)
Definition expanded (actor user : datum) (r : Infraction) : datum :=
  DObj
    (stored_active (active r)
     ++ [ ("actor", actor);
          ("actor_id", DStr (actor_id r));
          ("expires_at", time_or_null (expires_at r));
          ("id", DStr (id r));
          ("inserted_at", DTime (inserted_at r));
          ("reason", DStr (reason r));
          ("type", DStr (type r));
          ("user", user);
          ("user_id", DStr (user_id r)) ]).

(** The infraction as returned to the client. *)
Definition shaped (users : list datum) (expand : option bool) (now : Z)
  (r : Infraction) : datum :=
  DObj
    [ ("active", DBool (effective_active now r));
      ("actor", user_ref users expand (actor_id r));
      ("expires_at", time_or_null (expires_at r));
      ("id", DStr (id r));
      ("inserted_at", DTime (inserted_at r));
      ("reason", DStr (reason r));
      ("type", DStr (type r));
      ("user", user_ref users expand (user_id r)) ].

(** The records an equality filter keeps once [active] has been derived. *)
Definition selected (query_filter : list (string * datum)) (now : Z)
  (tbl : list Infraction) : list Infraction :=
  filter (fun r => obj_matches query_filter (doc_of (derive now r))) tbl.

(** The record [post] finds when it looks for an active infraction of the
    same type for the same user. *)
Definition current_active (user type : string) (now : Z)
  (tbl : list Infraction) : option Infraction :=
  hd_error
    (selected
       [("user_id", DStr user); ("type", DStr type); ("active", DBool true)]
       now tbl).

Definition update_where (key : string) (f : Infraction -> Infraction)
  (tbl : list Infraction) : list Infraction :=
  map (fun r => if String.eqb (id r) key then f r else r) tbl.

(** The same for the record a [get] finds: the first one under the key. *)
Fixpoint update_first (key : string) (f : Infraction -> Infraction)
  (tbl : list Infraction) : list Infraction :=
  match tbl with
  | [] => []
  | r :: rest =>
      if String.eqb (id r) key then f r :: rest
      else r :: update_first key f rest
  end.

(** The filter of a list view once the ["active"] parameter is read. *)
Definition list_filter (params : option params_t)
  (query_filter : list (string * datum)) : list (string * datum) :=
  match parse_bool (dict_get "active" (params_or_empty params)) None with
  | Some b => dict_set "active" (DBool b) query_filter
  | None => query_filter
  end.

(** The query of [CurrentInfractionByTypeAndUserView.get]. *)
Definition current_query (expand : option bool) (user type : string) : term :=
  Default
    (Nth
       (Limit
          (Filter
             (_merged_query bot_infractions_view expand
                [("user_id", DStr user); ("type", DStr type)])
             [("active", DBool true)]) 1) 0)
    (Expr DNull).

(** The query by which [post] looks for the infraction to supersede. *)
Definition lookup_query (user type : string) : term :=
  Default
    (Nth
       (Limit
          (Filter
             (Merge (Table "bot_infractions") (_merge_active_check Var))
             [ ("user_id", DStr user); ("type", DStr type);
               ("active", DBool true) ]) 1) 0)
    (Expr DNull).

(** Whether [t + datetime.timedelta(seconds=n)] is a datetime, that is,
    whether it is computed without [OverflowError]. *)
Definition representable (t seconds : Z) : bool :=
  match timedelta seconds with
  | Some delta =>
      match datetime_add t delta with
      | Some _ => true
      | None => false
      end
  | None => false
  end.

(** Whether the expiry a create request asks for is a datetime; a request
    that asks for none (no duration, a zero one, or a type that is not
    timed) computes no sum. *)
Definition create_in_range (data : CreateData) (inserted_at : Z) : bool :=
  if (is_timed_key (c_type data) && truth_of_int (c_duration data))%bool
  then match c_duration data with
       | Some d => representable inserted_at d
       | None => true
       end
  else true.

(** The same for an update request. *)
Definition update_in_range (data : UpdateData) (current_time : Z) : bool :=
  match u_duration data with
  | Some d => representable current_time d
  | None => true
  end.

(** The dict [patch] sends as the update, when the expiry it asks for is a
    datetime ([update_in_range]). *)
Definition update_collection_of (data : UpdateData) (current_time : Z)
  : list (string * datum) :=
  let update_collection := [("id", DStr (u_id data))] in
  let update_collection :=
    match u_reason data with
    | Some reason => dict_set "reason" (DStr reason) update_collection
    | None => update_collection
    end in
  let update_collection :=
    match u_active data with
    | Some active => dict_set "active" (DBool active) update_collection
    | None => update_collection
    end in
  match u_duration data with
  | Some duration =>
      dict_set "expires_at" (DTime (current_time + microseconds duration))
        update_collection
  | None => update_collection
  end.

(** The record an update request leaves behind, when the expiry it asks
    for is a datetime. *)
Definition apply_update (data : UpdateData) (current_time : Z)
  (r : Infraction) : Infraction :=
  mkInfraction (id r) (actor_id r) (user_id r) (type r)
    (match u_reason data with
     | Some s => s
     | None => reason r
     end)
    (inserted_at r)
    (match u_duration data with
     | Some d => Some (current_time + microseconds d)
     | None => expires_at r
     end)
    (match u_active data with
     | Some b => Some b
     | None => active r
     end).

(** The database calls of a create request, as they appear in the log. *)
Definition insert_doc_of (data : CreateData) (inserted_at : Z)
  (expires : option Z) : datum :=
  dict [ ("actor_id", DStr (c_actor_id data));
         ("user_id", DStr (c_user_id data));
         ("type", DStr (c_type data));
         ("reason", DStr (c_reason data));
         ("inserted_at", DTime inserted_at);
         ("expires_at", time_or_null expires) ].

Definition deactivate_query (key : string) : write_query :=
  GetUpdate "bot_infractions" (DStr key) (dict [("active", DBool false)]).

(** The record a create request stores under the key it is given, when
    the expiry it asks for is a datetime ([create_in_range]). *)
Definition created (data : CreateData) (inserted_at : Z) (fresh : string)
  : Infraction :=
  mkInfraction fresh (c_actor_id data) (c_user_id data) (c_type data)
    (c_reason data) inserted_at
    (if (is_timed_key (c_type data) && truth_of_int (c_duration data))%bool
     then option_map (fun d => inserted_at + microseconds d) (c_duration data)
     else None)
    None.

(** The record under another key. *)
Definition with_id (key : string) (r : Infraction) : Infraction :=
  mkInfraction key (actor_id r) (user_id r) (type r) (reason r)
    (inserted_at r) (expires_at r) (active r).

(** Whether an update request changes a record: it must be the record
    under the request's id, and some field must get a new value. *)
Definition changed (data : UpdateData) (current_time : Z) (r : Infraction)
  : bool :=
  (String.eqb (id r) (u_id data)
   && negb (datum_eqb (doc_of (apply_update data current_time r)) (doc_of r)))%bool.

(** The answer to an update request. *)
Definition patch_response (users : list datum) (data : UpdateData)
  (current_time now_read : Z) (tbl : list Infraction) : response :=
  match find_by_id (u_id data) tbl with
  | Some r =>
      if datum_eqb (doc_of (apply_update data current_time r)) (doc_of r)
      then Json (DObj [("success", DBool false)])
      else Json (DObj [ ("infraction",
                         shaped users None now_read
                           (apply_update data current_time r));
                        ("success", DBool true) ])
  | None => Json (DObj [("success", DBool false)])
  end.

(** A stored infraction whose [user_id] is null, and a database that
    holds it. *)
Definition row_without_user : datum :=
  DObj [ ("actor_id", DStr "mod"); ("expires_at", DNull); ("id", DStr "a");
         ("inserted_at", DTime 10); ("reason", DStr "spam");
         ("type", DStr "ban"); ("user_id", DNull) ].

Definition db_without_user : database :=
  [ ("bot_infractions", mkTable "id" [row_without_user]);
    ("users", mkTable "user_id" []) ].

(** The infraction a create request supersedes, if any. *)
Definition superseded (data : CreateData) (now_lookup : Z)
  (tbl : list Infraction) : option Infraction :=
  if is_timed_key (c_type data)
  then current_active (c_user_id data) (c_type data) now_lookup tbl
  else None.

(** The table a create request leaves behind. *)
Definition post_table (data : CreateData) (inserted_at now_lookup : Z)
  (fresh : string) (tbl : list Infraction) : list Infraction :=
  match superseded data now_lookup tbl with
  | Some prior =>
      update_first (id prior) (with_active (Some false))
        (tbl ++ [created data inserted_at fresh])
  | None => tbl ++ [created data inserted_at fresh]
  end.

(** The database calls a create request makes, in order. *)
Definition post_log (data : CreateData) (inserted_at now_lookup now_read : Z)
  (fresh : string) (tbl : list Infraction) : list db_op :=
  (if is_timed_key (c_type data)
   then [OpRun now_lookup (lookup_query (c_user_id data) (c_type data))]
   else [])
  ++ [OpInsert "bot_infractions"
        (insert_doc_of data inserted_at
           (expires_at (created data inserted_at fresh)))]
  ++ match superseded data now_lookup tbl with
     | Some prior => [OpWrite (deactivate_query (id prior))]
     | None => []
     end
  ++ [OpRun now_read (shaped_by_id bot_infractions_view (c_expand data) fresh)].

End Infractions.

(* ================================================================== *)
(** * pysite/views/main/jams/join.py *)
(* ================================================================== *)

Module Jams.

(** A document of the [code_jam_infractions] table. *)
Record JamInfraction : Type := mkJamInfraction {
  id : string;
  participant : string;
  reason : string;
  number : Z;
  decremented_for : list Z
}.

(** What [log_banned] tells the moderation log; the three wordings of its
    message are the three constructors. *)
Inductive ban_message : Type :=
| BannedIndefinitely (reason : string)
| InfractionExpired (reason : string)
| ApplicationsLeft (number : Z) (reason : string).

(** The table and the events sent to the bot so far. *)
Record world : Type := mkWorld {
  infractions_table : list JamInfraction;
  events : list ban_message
}.

(** Modelled from the spec: [self.db.insert(table, doc, conflict="replace")]
    (pysite.database) is the store's upsert: a stored document with the
    same primary key is replaced where it stands, otherwise the document
    is added. *)
Fixpoint upsert (doc : JamInfraction) (tbl : list JamInfraction)
  : list JamInfraction :=
  match tbl with
  | [] => [doc]
  | d :: rest =>
      if String.eqb (id d) (id doc) then doc :: rest
      else d :: upsert doc rest
  end.

Definition get_infractions (tbl : list JamInfraction) (user_id : string)
  : list JamInfraction :=
  filter (fun d => String.eqb (participant d) user_id) tbl.

Definition log_banned (number : Z) (reason : string) (w : world) : world :=
  let message :=
    if number =? -1 then BannedIndefinitely reason
    else if number <? 1 then InfractionExpired reason
    else ApplicationsLeft number reason in
  mkWorld (infractions_table w) (events w ++ [message]).

Definition db_upsert (doc : JamInfraction) (w : world) : world :=
  mkWorld (upsert doc (infractions_table w)) (events w).

(** [jam in infraction["decremented_for"]] *)
Definition jam_in (jam : Z) (l : list Z) : bool := existsb (Z.eqb jam) l.

(** The dict after [infraction["number"] -= 1] and
    [infraction["decremented_for"].append(jam)]. *)
Definition charge (jam : Z) (infraction : JamInfraction) : JamInfraction :=
  mkJamInfraction (id infraction) (participant infraction) (reason infraction)
    (number infraction - 1) (decremented_for infraction ++ [jam]).

(** Outcome of the ban check: the banned page rendered with a record, or
    the view going on with the application. *)
Inductive gate_result : Type :=
| Blocked (infraction : JamInfraction)
| Clear.

(** The loop [for infraction in infractions] of [JamsJoinView.get]. *)
Fixpoint get_loop (jam : Z) (infractions : list JamInfraction) (w : world)
  : gate_result * world :=
  match infractions with
  | [] => (Clear, w)
  | infraction :: rest =>
      if number infraction =? -1 then
        (Blocked infraction, w)
      else if negb (number infraction =? 0) then
        if negb (jam_in jam (decremented_for infraction)) then
          let infraction := charge jam infraction in
          (Blocked infraction, db_upsert infraction w)
        else (Blocked infraction, w)
      else if jam_in jam (decremented_for infraction) then
        (Blocked infraction, w)
      else get_loop jam rest w
  end.

(** The same loop in [JamsJoinView.post], which also logs the refusal. *)
Fixpoint post_loop (jam : Z) (infractions : list JamInfraction) (w : world)
  : gate_result * world :=
  match infractions with
  | [] => (Clear, w)
  | infraction :: rest =>
      if number infraction =? -1 then
        (Blocked infraction,
         log_banned (number infraction) (reason infraction) w)
      else if negb (number infraction =? 0) then
        if negb (jam_in jam (decremented_for infraction)) then
          let infraction := charge jam infraction in
          let w := db_upsert infraction w in
          (Blocked infraction,
           log_banned (number infraction) (reason infraction) w)
        else
          (Blocked infraction,
           log_banned (number infraction) (reason infraction) w)
      else if jam_in jam (decremented_for infraction) then
        (Blocked infraction,
         log_banned (number infraction) (reason infraction) w)
      else post_loop jam rest w
  end.

(** The ban check of the two views: the user's records are fetched, then
    walked. *)
Definition get_check (user_id : string) (jam : Z) (w : world)
  : gate_result * world :=
  get_loop jam (get_infractions (infractions_table w) user_id) w.

Definition post_check (user_id : string) (jam : Z) (w : world)
  : gate_result * world :=
  post_loop jam (get_infractions (infractions_table w) user_id) w.

(** A join request of either kind, and a run of requests. *)
Inductive request : Type :=
| GetJoin (user_id : string) (jam : Z)
| PostJoin (user_id : string) (jam : Z).

Definition serve (rq : request) (w : world) : gate_result * world :=
  match rq with
  | GetJoin u j => get_check u j w
  | PostJoin u j => post_check u j w
  end.

Fixpoint serve_all (rqs : list request) (w : world) : world :=
  match rqs with
  | [] => w
  | rq :: rest => serve_all rest (snd (serve rq w))
  end.

(** ** What the proofs speak of *)

(** A record that lets the check through, as the loops have it: it fails
    the test for -1 and the truth test of its count, so its count is
    exactly 0, and the jam was never charged to it. *)
Definition passes (jam : Z) (r : JamInfraction) : Prop :=
  number r = 0 /\ ~ In jam (decremented_for r).


(** The user's records, seen from a jam: some record either bans for good
    or already lists the jam, and every record before it has run out. *)
Definition settled (user : string) (jam : Z) (tbl : list JamInfraction) : Prop :=
  exists pre r rest,
    get_infractions tbl user = pre ++ r :: rest
    /\ Forall (fun x => number x = 0) pre
    /\ (number r = -1 \/ In jam (decremented_for r)).

(** The table after the record under [key] has been charged for [jam]. *)
Definition charge_where (key : string) (jam : Z) (tbl : list JamInfraction)
  : list JamInfraction :=
  map (fun y => if String.eqb (id y) key then charge jam y else y) tbl.

Definition request_user (rq : request) : string :=
  match rq with
  | GetJoin u _ => u
  | PostJoin u _ => u
  end.

Definition request_jam (rq : request) : Z :=
  match rq with
  | GetJoin _ j => j
  | PostJoin _ j => j
  end.

End Jams.

(* ================================================================== *)
(** * pysite/views/main/jams/join.py: the application form *)
(* ================================================================== *)

Module JamsJoin.
Import Py Jams.

(** A document of the [code_jam_questions] table, with the fields the
    view reads.  [data_max] and [data_min] are the values
    [int(question["data"]["max"])] and [int(question["data"]["min"])]
    give for the stored bounds. *)
Record Question : Type := mkQuestion {
  question_id : string;
  optional : bool;
  question_type : string;
  data_max : Z;
  data_min : Z;
  data_options : list string
}.

(** The value of an answer: [True] or [False] for a checkbox, the int or
    [None] for a numeric question, the submitted string or [None] for the
    others. *)
Inductive answer_value : Type :=
| Checked (b : bool)
| Number (n : option Z)
| Text (s : option string).

(** The dict [answer]; [a_value] is [None] when the key ["value"] was
    never set. *)
Record Answer : Type := mkAnswer {
  a_question : string;
  a_value : option answer_value
}.

(** A document of [code_jam_forms], keyed by the number of its jam. *)
Record Form : Type := mkForm {
  form_number : Z;
  form_questions : list string
}.

(** The dict [response] that [post] stores. *)
Record Response : Type := mkResponse {
  r_snowflake : string;
  r_jam : Z;
  r_approved : bool;
  r_answers : list Answer
}.

(** The events the view sends to the bot: the refusal of [log_banned] and
    the two events of [log_success]. *)
Inductive bot_event : Type :=
| Refusal (message : ban_message)
| SignupLogged (user_id : string)
| SignupEmbed (user_id : string).

(** The six tables of the view (for [code_jams] and
    [code_jam_participants] the keys of their documents) and the events
    sent so far. *)
Record site : Type := mkSite {
  code_jams : list Z;
  code_jam_forms : list Form;
  code_jam_questions : list Question;
  code_jam_responses : list Response;
  code_jam_participants : list string;
  code_jam_infractions : list JamInfraction;
  bot_events : list bot_event
}.

Inductive page : Type :=
| NotFound
| RedirectLogin
| Banned (infraction : JamInfraction)
| RedirectProfile
| Already
| JoinPage (form : option Form) (questions : list (option Question))
    (question_ids : list string)
| BadRequest
| Thanks.

Inductive py_error : Type :=
| ValueError
| TypeError.

Inductive reply (A : Type) : Type :=
| Done (a : A)
| Raised (e : py_error).
Arguments Done {A} a.
Arguments Raised {A} e.

(** What validation comes to: the answers so far, [return BadRequest()],
    or an exception. *)
Inductive validated (A : Type) : Type :=
| Valid (a : A)
| Invalid
| Fails (e : py_error).
Arguments Valid {A} a.
Arguments Invalid {A}.
Arguments Fails {A} e.

(** Truth value of [request.form.get(...)]: [None] and the empty string
    are false. *)
Definition truth_of_value (value : option string) : bool :=
  match value with
  | Some s => negb (String.eqb s "")
  | None => false
  end.

Definition is_None {A} (value : option A) : bool :=
  match value with
  | Some _ => false
  | None => true
  end.

Definition is_on (value : option string) : bool :=
  match value with
  | Some s => String.eqb s "on"
  | None => false
  end.

(** Modelled from the spec: [self.db.get(table, key)] (pysite.database)
    gives the document under the key, or [None].  Here on the questions
    table. *)
Definition db_get_question (s : site) (key : string) : option Question :=
  find (fun q => String.eqb (question_id q) key) (code_jam_questions s).

(** Modelled from the spec: the same [self.db.get] on the forms table. *)
Definition db_get_form (s : site) (jam : Z) : option Form :=
  find (fun f => form_number f =? jam) (code_jam_forms s).

(** Modelled from the spec: the same [self.db.get] on the jams table; the
    view only tests the document it gets for truth. *)
Definition db_get_jam (s : site) (jam : Z) : bool :=
  existsb (Z.eqb jam) (code_jams s).

(** Modelled from the spec: the same [self.db.get] on the participants
    table, again only tested for truth. *)
Definition db_get_participant (s : site) (user_id : string) : bool :=
  existsb (String.eqb user_id) (code_jam_participants s).

(** Modelled from the spec: [self.db.insert(table, doc)] (pysite.database)
    adds the document to the table. *)
Definition db_insert_response (response : Response) (s : site) : site :=
  mkSite (code_jams s) (code_jam_forms s) (code_jam_questions s)
    (code_jam_responses s ++ [response]) (code_jam_participants s)
    (code_jam_infractions s) (bot_events s).

(** Modelled from the spec: [self.rmq_bot_event(type, payload)]
    (pysite.mixins) sends one event to the bot. *)
Definition rmq_bot_event (e : bot_event) (s : site) : site :=
  mkSite (code_jams s) (code_jam_forms s) (code_jam_questions s)
    (code_jam_responses s) (code_jam_participants s)
    (code_jam_infractions s) (bot_events s ++ [e]).

(** [get_response] *)
Definition get_response (s : site) (jam : Z) (user_id : string)
  : option Response :=
  let result :=
    filter (fun r => (r_jam r =? jam) && String.eqb (r_snowflake r) user_id)%bool
      (code_jam_responses s) in
  match result with
  | r :: _ => Some r
  | [] => None
  end.

(** [log_success] *)
Definition log_success (user_id : string) (s : site) : site :=
  rmq_bot_event (SignupEmbed user_id) (rmq_bot_event (SignupLogged user_id) s).

(** The ban check of [Jams], run on the infractions table of the site;
    what it logs goes to the site's events. *)
Definition ban_check (check : world -> gate_result * world) (s : site)
  : gate_result * site :=
  let (result, w) := check (mkWorld (code_jam_infractions s) []) in
  (result,
   mkSite (code_jams s) (code_jam_forms s) (code_jam_questions s)
     (code_jam_responses s) (code_jam_participants s)
     (infractions_table w) (bot_events s ++ map Refusal (events w))).

Section Validation.

(** [email.utils.parseaddr] and [int] on a string ([None] when it raises
    [ValueError]). *)
Variable parseaddr : string -> string * string.
Variable int : string -> option Z.

Definition no_address (address : string * string) : bool :=
  (String.eqb (fst address) "" && String.eqb (snd address) "")%bool.

(** The body of the loop [for question in questions] of [post]. *)
Definition validate (form : list (string * string)) (question : Question)
  : validated Answer :=
  let value := dict_get (question_id question) form in
  let answer := mkAnswer (question_id question) in
  if (negb (optional question) && is_None value)%bool then Invalid
  else if String.eqb (question_type question) "checkbox" then
    if is_on value then Valid (answer (Some (Checked true)))
    else if negb (optional question) then Invalid
    else Valid (answer (Some (Checked false)))
  else if String.eqb (question_type question) "email" then
    match value with
    | Some v =>
        if (truth_of_value value && no_address (parseaddr v))%bool
        then Invalid
        else Valid (answer (Some (Text value)))
    | None => Valid (answer (Some (Text value)))
    end
  else if existsb (String.eqb (question_type question))
            ["number"; "range"; "slider"] then
    match value with
    | Some v =>
        match int v with
        | Some n =>
            if ((n >? data_max question) || (n <? data_min question))%bool
            then Invalid
            else Valid (answer (Some (Number (Some n))))
        | None => Fails ValueError
        end
    | None => Valid (answer (Some (Number None)))
    end
  else if String.eqb (question_type question) "radio" then
    match value with
    | Some v =>
        if (truth_of_value value
            && negb (existsb (String.eqb v) (data_options question)))%bool
        then Invalid
        else Valid (answer (Some (Text value)))
    | None => Valid (answer (Some (Text value)))
    end
  else if existsb (String.eqb (question_type question)) ["text"; "textarea"]
  then Valid (answer (Some (Text value)))
  else Valid (answer None).

(** The loop itself; a question the table does not hold came back as
    [None], and subscripting it raises. *)
Fixpoint answers_loop (form : list (string * string))
  (questions : list (option Question)) (answers : list Answer)
  : validated (list Answer) :=
  match questions with
  | [] => Valid answers
  | None :: _ => Fails TypeError
  | Some question :: rest =>
      match validate form question with
      | Valid answer => answers_loop form rest (answers ++ [answer])
      | Invalid => Invalid
      | Fails e => Fails e
      end
  end.

(** [JamsJoinView.post], once the [csrf] decorator has let the request
    through.  [user_data] is the [user_id] of the session, if any. *)
Definition JamsJoinView_post (user_data : option string)
  (form : list (string * string)) (jam : Z) (s : site)
  : reply page * site :=
  if negb (db_get_jam s jam) then (Done NotFound, s)
  else
    match user_data with
    | None => (Done RedirectLogin, s)
    | Some user_id =>
        match ban_check (post_check user_id jam) s with
        | (Blocked infraction, s) => (Done (Banned infraction), s)
        | (Clear, s) =>
            if negb (db_get_participant s user_id) then
              (Done RedirectProfile, s)
            else if negb (is_None (get_response s jam user_id)) then
              (Done Already, s)
            else
              match db_get_form s jam with
              | None => (Done NotFound, s)
              | Some form_obj =>
                  let questions :=
                    map (db_get_question s) (form_questions form_obj) in
                  match answers_loop form questions [] with
                  | Fails e => (Raised e, s)
                  | Invalid => (Done BadRequest, s)
                  | Valid answers =>
                      let response := mkResponse user_id jam false answers in
                      let s := db_insert_response response s in
                      let s := log_success user_id s in
                      (Done Thanks, s)
                  end
              end
        end
    end.

End Validation.

(** The list [[q["id"] for q in questions]] of [get]. *)
Fixpoint question_ids (questions : list (option Question))
  : reply (list string) :=
  match questions with
  | [] => Done []
  | None :: _ => Raised TypeError
  | Some q :: rest =>
      match question_ids rest with
      | Done ids => Done (question_id q :: ids)
      | Raised e => Raised e
      end
  end.

(** [JamsJoinView.get] *)
Definition JamsJoinView_get (user_data : option string) (jam : Z) (s : site)
  : reply page * site :=
  if negb (db_get_jam s jam) then (Done NotFound, s)
  else
    match user_data with
    | None => (Done RedirectLogin, s)
    | Some user_id =>
        match ban_check (get_check user_id jam) s with
        | (Blocked infraction, s) => (Done (Banned infraction), s)
        | (Clear, s) =>
            if negb (db_get_participant s user_id) then
              (Done RedirectProfile, s)
            else if negb (is_None (get_response s jam user_id)) then
              (Done Already, s)
            else
              let form_obj := db_get_form s jam in
              let questions :=
                match form_obj with
                | Some f => map (db_get_question s) (form_questions f)
                | None => []
                end in
              match question_ids questions with
              | Done ids => (Done (JoinPage form_obj questions ids), s)
              | Raised e => (Raised e, s)
              end
        end
    end.

(** ** What the proofs speak of *)

(** An answer that fits its question and the submitted value. *)
Definition fits (parseaddr : string -> string * string)
  (int : string -> option Z) (form : list (string * string))
  (q : Question) (a : Answer) : Prop :=
  a_question a = question_id q
  /\ (optional q = false -> dict_get (question_id q) form <> None)
  /\ (question_type q = "checkbox" ->
      a_value a = Some (Checked (is_on (dict_get (question_id q) form)))
      /\ (optional q = false -> dict_get (question_id q) form = Some "on"))
  /\ (question_type q = "email" ->
      a_value a = Some (Text (dict_get (question_id q) form))
      /\ forall v, dict_get (question_id q) form = Some v -> v <> "" ->
                   parseaddr v <> ("", ""))
  /\ (In (question_type q) ["number"; "range"; "slider"] ->
      match dict_get (question_id q) form with
      | Some v =>
          exists n, int v = Some n
                    /\ data_min q <= n <= data_max q
                    /\ a_value a = Some (Number (Some n))
      | None => a_value a = Some (Number None)
      end)
  /\ (question_type q = "radio" ->
      a_value a = Some (Text (dict_get (question_id q) form))
      /\ forall v, dict_get (question_id q) form = Some v -> v <> "" ->
                   In v (data_options q))
  /\ (In (question_type q) ["text"; "textarea"] ->
      a_value a = Some (Text (dict_get (question_id q) form))).

End JamsJoin.

(* ================================================================== *)
(** * Facts about the evaluator *)
(* ================================================================== *)

Module ReQLFacts.
Import ReQL.

Lemma datum_eqb_eq : forall a b, datum_eqb a b = true <-> a = b.
Proof.
  induction a as [| x | x | x | x | xs IH | xs IH] using datum_nested_ind;
    destruct b as [| y | y | y | y | ys | ys]; cbn [datum_eqb];
    try (split; [discriminate | discriminate]);
    try (split; [reflexivity | reflexivity]).
  - rewrite Bool.eqb_true_iff. split; congruence.
  - rewrite Z.eqb_eq. split; congruence.
  - rewrite String.eqb_eq. split; congruence.
  - rewrite Z.eqb_eq. split; congruence.
  - revert ys. induction IH as [| x xs Hx _ IHxs]; intros [| y ys];
      try (split; [discriminate | discriminate]);
      try (split; reflexivity).
    rewrite Bool.andb_true_iff, Hx.
    specialize (IHxs ys). split.
    + intros [-> H]. apply IHxs in H. congruence.
    + intros H. injection H as -> ->. split; [reflexivity|].
      apply IHxs. reflexivity.
  - revert ys. induction IH as [| [k x] xs Hx _ IHxs]; intros [| [k' y] ys];
      try (split; [discriminate | discriminate]);
      try (split; reflexivity).
    cbn [fst snd] in *.
    rewrite !Bool.andb_true_iff, Hx, String.eqb_eq.
    specialize (IHxs ys). split.
    + intros [[-> ->] H]. apply IHxs in H. congruence.
    + intros H. injection H as -> -> ->. repeat split.
      apply IHxs. reflexivity.
Qed.

Lemma datum_eqb_refl d : datum_eqb d d = true.
Proof. apply datum_eqb_eq. reflexivity. Qed.

(** One step of [eval] for the sequence operations. *)
Section EvalEquations.
Variables (db : database) (now : Z) (row : option datum).

Lemma eval_Default t d :
  eval db now row (Default t d)
  = match eval db now row t with
    | Ok DNull => eval db now row d
    | Err NonExistence => eval db now row d
    | other => other
    end.
Proof. reflexivity. Qed.

Lemma eval_Merge t f :
  eval db now row (Merge t f)
  = (v <- eval db now row t ;;
     match v with
     | DArr rows =>
         rs <- mapM (fun r => merge_row (eval db now (Some r) f) r) rows ;;
         Ok (DArr rs)
     | DObj _ => merge_row (eval db now (Some v) f) v
     | DNull => Err NonExistence
     | _ => Err LogicError
     end).
Proof. reflexivity. Qed.

Lemma eval_Without t names :
  eval db now row (Without t names)
  = (v <- eval db now row t ;;
     match v with
     | DArr rows => rs <- mapM (without_fields names) rows ;; Ok (DArr rs)
     | _ => without_fields names v
     end).
Proof. reflexivity. Qed.

Lemma eval_Filter t pred :
  eval db now row (Filter t pred)
  = (v <- eval db now row t ;;
     match v with
     | DArr rows => Ok (DArr (filter (obj_matches pred) rows))
     | DNull => Err NonExistence
     | _ => Err LogicError
     end).
Proof. reflexivity. Qed.

Lemma eval_Limit t n :
  eval db now row (Limit t n)
  = (v <- eval db now row t ;;
     match v with
     | DArr rows => Ok (DArr (firstn n rows))
     | DNull => Err NonExistence
     | _ => Err LogicError
     end).
Proof. reflexivity. Qed.

Lemma eval_Nth t n :
  eval db now row (Nth t n)
  = (v <- eval db now row t ;;
     match v with
     | DArr rows =>
         match nth_error rows n with
         | Some r => Ok r
         | None => Err NonExistence
         end
     | DNull => Err NonExistence
     | _ => Err LogicError
     end).
Proof. reflexivity. Qed.

Lemma eval_CoerceToArray t :
  eval db now row (CoerceToArray t)
  = (v <- eval db now row t ;;
     match v with
     | DArr rows => Ok (DArr rows)
     | DNull => Err NonExistence
     | _ => Err Unmodelled
     end).
Proof. reflexivity. Qed.
End EvalEquations.

Lemma mapM_map {A B C} (f : B -> result C) (h : A -> B) (g : A -> C) l :
  (forall x, f (h x) = Ok (g x)) -> mapM f (map h l) = Ok (map g l).
Proof.
  intros H. induction l as [| a l IH]; [reflexivity|].
  cbn [mapM map]. rewrite H, IH. reflexivity.
Qed.

End ReQLFacts.

(* ================================================================== *)
(** * Infractions: evaluation of the queries on stored records *)
(* ================================================================== *)

Module InfractionsFacts.
Import ReQL Py Infractions ReQLFacts.

Ltac unfold_record :=
  cbn [Infractions.type Infractions.active Infractions.expires_at
       Infractions.id Infractions.actor_id Infractions.user_id
       Infractions.reason Infractions.inserted_at] in *.

Lemma has_key_doc_of k r :
  has_key "id" (DStr k) (doc_of r) = String.eqb (id r) k.
Proof.
  destruct r as [i a u ty re ins ex [b|]]; reflexivity.
Qed.

Lemma find_doc_of k tbl :
  find (has_key "id" (DStr k)) (map doc_of tbl)
  = option_map doc_of (find_by_id k tbl).
Proof.
  unfold find_by_id.
  induction tbl as [| r tbl IH]; [reflexivity|].
  cbn [map find]. rewrite has_key_doc_of.
  destruct (String.eqb (id r) k); [reflexivity | exact IH].
Qed.

Lemma eval_merge_active_check db now r :
  eval db now (Some (doc_of r)) (_merge_active_check Var)
  = Ok (DObj [("active", DBool (effective_active now r))]).
Proof.
  destruct r as [i a u ty re ins ex ac].
  unfold effective_active, timed, doc_of; unfold_record.
  destruct ac as [[|]|], ex as [e|]; cbn;
  destruct (String.eqb ty "mute"), (String.eqb ty "ban"); reflexivity.
Qed.

Lemma merge_active_doc b r :
  merge_datum (DObj [("active", DBool b)]) (doc_of r)
  = doc_of (with_active (Some b) r).
Proof.
  destruct r as [i a u ty re ins ex [c|]]; reflexivity.
Qed.

Lemma eval_merge_expand_users tbl users now expand r :
  eval (db_of tbl users) now (Some (doc_of r)) (_merge_expand_users expand Var)
  = Ok (DObj [ ("actor", user_ref users expand (actor_id r));
               ("user", user_ref users expand (user_id r)) ]).
Proof.
  destruct r as [i a u ty re ins ex ac].
  unfold user_ref, _merge_expand_users, _do_expand, truth_of_term, doc_of;
    unfold_record.
  destruct (truth_of_flag expand); destruct ac as [c|]; cbn;
    try reflexivity;
    destruct (table_get _ (DStr a)); destruct (table_get _ (DStr u));
    reflexivity.
Qed.

Lemma eval_active_check_fields db now fields r :
  obj_get "type" fields = Some (DStr (type r)) ->
  obj_get "active" fields = option_map DBool (active r) ->
  obj_get "expires_at" fields = Some (time_or_null (expires_at r)) ->
  eval db now (Some (DObj fields)) (_merge_active_check Var)
  = Ok (DObj [("active", DBool (effective_active now r))]).
Proof.
  intros Ht Ha He.
  unfold _merge_active_check, _is_timed_infraction.
  cbn. rewrite Ht. cbn. rewrite Ha, He.
  unfold effective_active, timed.
  destruct (active r) as [[|]|], (expires_at r) as [e|]; cbn;
  destruct (String.eqb (type r) "mute"), (String.eqb (type r) "ban"); reflexivity.
Qed.

Lemma eval_get_infraction tbl users now row key :
  eval (db_of tbl users) now row (Get "bot_infractions" (Expr (DStr key)))
  = Ok (match find_by_id key tbl with
        | Some r => doc_of r
        | None => DNull
        end).
Proof.
  cbn. unfold table_get. cbn [primary_key documents].
  rewrite find_doc_of. destruct (find_by_id key tbl); reflexivity.
Qed.

Lemma eval_table_infractions tbl users now row :
  eval (db_of tbl users) now row (Table "bot_infractions")
  = Ok (DArr (map doc_of tbl)).
Proof. reflexivity. Qed.

Lemma merge_expand_doc ua uu r :
  merge_datum (DObj [("actor", ua); ("user", uu)]) (doc_of r)
  = expanded ua uu r.
Proof. destruct r as [i a u ty re ins ex [c|]]; reflexivity. Qed.

Lemma eval_active_check_expanded db now ua uu r :
  eval db now (Some (expanded ua uu r)) (_merge_active_check Var)
  = Ok (DObj [("active", DBool (effective_active now r))]).
Proof.
  apply eval_active_check_fields;
    destruct r as [i a u ty re ins ex [c|]]; reflexivity.
Qed.

Lemma merge_active_expanded b ua uu r :
  merge_datum (DObj [("active", DBool b)]) (expanded ua uu r)
  = expanded ua uu (with_active (Some b) r).
Proof. destruct r as [i a u ty re ins ex [c|]]; reflexivity. Qed.

Lemma without_refs_expanded users expand now r :
  without_fields ["user_id"; "actor_id"]
    (expanded (user_ref users expand (actor_id r))
       (user_ref users expand (user_id r)) (derive now r))
  = Ok (shaped users expand now r).
Proof. destruct r as [i a u ty re ins ex ac]; reflexivity. Qed.

Lemma eval_shaped_by_id tbl users now expand key :
  eval (db_of tbl users) now None (shaped_by_id bot_infractions_view expand key)
  = Ok (match find_by_id key tbl with
        | Some r => shaped users expand now r
        | None => DNull
        end).
Proof.
  unfold shaped_by_id. cbn [table_name bot_infractions_view].
  rewrite eval_Default, eval_Without, eval_Merge, eval_Merge,
    eval_get_infraction.
  destruct (find_by_id key tbl) as [r|]; [| reflexivity].
  cbn [bind doc_of].
  change (DObj (stored_active (active r) ++ _)) with (doc_of r).
  rewrite eval_merge_expand_users.
  cbn [merge_row bind]. rewrite merge_expand_doc.
  cbn [expanded].
  rewrite eval_active_check_expanded.
  cbn [merge_row bind]. rewrite merge_active_expanded.
  fold (derive now r).
  pose proof (without_refs_expanded users expand now r) as H.
  cbn [expanded] in *.
  rewrite H. reflexivity.
Qed.

Lemma derive_row tbl users now r :
  merge_row (eval (db_of tbl users) now (Some (doc_of r))
               (_merge_active_check Var)) (doc_of r)
  = Ok (doc_of (derive now r)).
Proof.
  rewrite eval_merge_active_check. cbn [merge_row bind].
  rewrite merge_active_doc. reflexivity.
Qed.

Lemma expand_row tbl users now expand r :
  merge_row (eval (db_of tbl users) now (Some (doc_of r))
               (_merge_expand_users expand Var)) (doc_of r)
  = Ok (expanded (user_ref users expand (actor_id r))
          (user_ref users expand (user_id r)) r).
Proof.
  rewrite eval_merge_expand_users. cbn [merge_row bind].
  rewrite merge_expand_doc. reflexivity.
Qed.

Lemma eval_merged_query tbl users now expand query_filter :
  eval (db_of tbl users) now None
    (_merged_query bot_infractions_view expand query_filter)
  = Ok (DArr (map (shaped users expand now) (selected query_filter now tbl))).
Proof.
  unfold _merged_query. cbn [table_name bot_infractions_view].
  rewrite eval_Without, eval_Merge, eval_Filter, eval_Merge,
    eval_table_infractions.
  cbn [bind].
  rewrite (mapM_map _ doc_of (fun r => doc_of (derive now r)))
    by (intros r; apply derive_row).
  cbn [bind]. rewrite <- (map_map (derive now) doc_of), filter_map_swap, filter_map_swap.
  fold (selected query_filter now tbl).
  rewrite map_map.
  rewrite (mapM_map _ _
             (fun r => expanded (user_ref users expand (actor_id r))
                         (user_ref users expand (user_id r)) (derive now r)))
    by (intros r; apply (expand_row tbl users now expand (derive now r))).
  cbn [bind].
  rewrite (mapM_map _ _ (shaped users expand now))
    by (intros r; apply without_refs_expanded).
  reflexivity.
Qed.

Lemma db_run_ok db log now q d :
  eval db now None q = Ok d ->
  db_run now q (mkWorld db log) = (Returns d, mkWorld db (log ++ [OpRun now q])).
Proof. intros H. unfold db_run. cbn [store Infractions.log]. rewrite H. reflexivity. Qed.

Lemma InfractionById_get_run tbl users log params key now :
  InfractionById_get params key now (mkWorld (db_of tbl users) log)
  = (Returns
       (Json
          (DObj
             [("infraction",
               match find_by_id key tbl with
               | Some r =>
                   shaped users
                     (parse_bool (dict_get "expand" (params_or_empty params))
                        (Some false)) now r
               | None => DNull
               end)])),
     mkWorld (db_of tbl users)
       (log ++ [OpRun now
                  (shaped_by_id bot_infractions_view
                     (parse_bool (dict_get "expand" (params_or_empty params))
                        (Some false)) key)])).
Proof.
  unfold InfractionById_get, bindM.
  rewrite (db_run_ok _ _ _ _ _ (eval_shaped_by_id tbl users now _ key)).
  reflexivity.
Qed.

Lemma _infraction_list_filtered_run tbl users log params query_filter now :
  fst (_infraction_list_filtered bot_infractions_view params query_filter now
         (mkWorld (db_of tbl users) log))
  = Returns
      (Json
         (DArr
            (map
               (shaped users
                  (parse_bool (dict_get "expand" (params_or_empty params))
                     (Some false)) now)
               (selected (list_filter params query_filter) now tbl)))).
Proof.
  unfold _infraction_list_filtered, bindM, list_filter.
  erewrite db_run_ok.
  2:{ rewrite eval_CoerceToArray, eval_merged_query. reflexivity. }
  reflexivity.
Qed.

Lemma shaped_matches_active users expand now r :
  obj_matches [("active", DBool true)] (shaped users expand now r)
  = effective_active now r.
Proof.
  cbn. destruct (effective_active now r); reflexivity.
Qed.

Lemma eval_current_query tbl users now expand user ty :
  eval (db_of tbl users) now None (current_query expand user ty)
  = Ok match
         hd_error
           (filter (effective_active now)
              (selected [("user_id", DStr user); ("type", DStr ty)] now tbl))
       with
       | Some r => shaped users expand now r
       | None => DNull
       end.
Proof.
  unfold current_query.
  rewrite eval_Default, eval_Nth, eval_Limit, eval_Filter, eval_merged_query.
  cbn [bind]. rewrite filter_map_swap.
  erewrite filter_ext by (intros r; apply shaped_matches_active).
  destruct (filter _ _) as [| r rest]; reflexivity.
Qed.

Lemma CurrentInfractionByTypeAndUserView_get_run tbl users log params user ty now :
  fst (CurrentInfractionByTypeAndUserView_get params user ty now
         (mkWorld (db_of tbl users) log))
  = Returns
      (Json
         (DObj
            [("infraction",
              match
                hd_error
                  (filter (effective_active now)
                     (selected [("user_id", DStr user); ("type", DStr ty)]
                        now tbl))
              with
              | Some r =>
                  shaped users
                    (parse_bool (dict_get "expand" (params_or_empty params))
                       (Some false)) now r
              | None => DNull
              end)])).
Proof.
  unfold CurrentInfractionByTypeAndUserView_get, bindM.
  fold (current_query
          (parse_bool (dict_get "expand" (params_or_empty params)) (Some false))
          user ty).
  rewrite (db_run_ok _ _ _ _ _ (eval_current_query tbl users now _ user ty)).
  reflexivity.
Qed.

Lemma time_or_null_inj a b : time_or_null a = time_or_null b -> a = b.
Proof. destruct a, b; cbn; congruence. Qed.

Lemma doc_of_inj r1 r2 : doc_of r1 = doc_of r2 -> r1 = r2.
Proof.
  destruct r1 as [i1 a1 u1 t1 re1 in1 ex1 [c1|]],
           r2 as [i2 a2 u2 t2 re2 in2 ex2 [c2|]];
    cbn; intros H; try discriminate H; injection H; intros;
    subst; f_equal; auto using time_or_null_inj.
Qed.

Lemma doc_eqb_false r1 r2 : r1 <> r2 -> datum_eqb (doc_of r1) (doc_of r2) = false.
Proof.
  intros H. destruct (datum_eqb (doc_of r1) (doc_of r2)) eqn:E; [| reflexivity].
  apply datum_eqb_eq, doc_of_inj in E. contradiction.
Qed.

Lemma eval_lookup_query tbl users now user ty :
  eval (db_of tbl users) now None (lookup_query user ty)
  = Ok match current_active user ty now tbl with
       | Some r => doc_of (derive now r)
       | None => DNull
       end.
Proof.
  unfold lookup_query, current_active.
  rewrite eval_Default, eval_Nth, eval_Limit, eval_Filter, eval_Merge,
    eval_table_infractions.
  cbn [bind].
  rewrite (mapM_map _ doc_of (fun r => doc_of (derive now r)))
    by (intros r; apply derive_row).
  cbn [bind]. rewrite <- (map_map (derive now) doc_of), filter_map_swap, filter_map_swap.
  fold (selected [("user_id", DStr user); ("type", DStr ty);
                  ("active", DBool true)] now tbl).
  destruct (selected _ now tbl) as [| r rest]; [reflexivity|].
  cbn [map firstn nth_error hd_error].
  destruct r as [i a u t re ins ex ac]; reflexivity.
Qed.

Lemma selected_current user ty now r :
  obj_matches [("user_id", DStr user); ("type", DStr ty); ("active", DBool true)]
    (doc_of (derive now r))
  = (String.eqb (user_id r) user && String.eqb (type r) ty
     && effective_active now r)%bool.
Proof.
  destruct r as [i a u t re ins ex ac]. unfold derive, with_active.
  cbn. unfold_record.
  destruct (effective_active now _); cbn;
    destruct (String.eqb u user), (String.eqb t ty); reflexivity.
Qed.

Lemma ids_fresh fresh tbl :
  ~ In fresh (map id tbl) ->
  existsb (has_key "id" (DStr fresh)) (map doc_of tbl) = false.
Proof.
  induction tbl as [| r tbl IH]; intros H; [reflexivity|].
  cbn [map existsb]. rewrite has_key_doc_of.
  cbn [map In] in H.
  destruct (String.eqb (id r) fresh) eqn:E.
  - apply String.eqb_eq in E. tauto.
  - apply IH. tauto.
Qed.

Lemma created_doc data inserted_at fresh expires :
  DObj (obj_set "id" (DStr fresh)
          match dict [ ("actor_id", DStr (c_actor_id data));
                       ("user_id", DStr (c_user_id data));
                       ("type", DStr (c_type data));
                       ("reason", DStr (c_reason data));
                       ("inserted_at", DTime inserted_at);
                       ("expires_at", time_or_null expires) ] with
          | DObj f => f
          | _ => []
          end)
  = doc_of (mkInfraction fresh (c_actor_id data) (c_user_id data) (c_type data)
              (c_reason data) inserted_at expires None).
Proof. reflexivity. Qed.

Lemma get_field_id r : get_field (doc_of r) "id" = Some (DStr (id r)).
Proof. destruct r as [i a u t re ins ex [c|]]; reflexivity. Qed.

Lemma update_doc_deactivate r :
  fst (update_doc "id" (dict [("active", DBool false)]) (doc_of r))
  = doc_of (with_active (Some false) r).
Proof.
  change (dict [("active", DBool false)]) with (DObj [("active", DBool false)]).
  unfold update_doc. cbv zeta.
  rewrite merge_active_doc, !get_field_id.
  cbn [option_datum_eqb datum_eqb with_active id].
  rewrite String.eqb_refl. cbn [negb].
  destruct (datum_eqb _ (doc_of r)) eqn:E; cbn [fst]; [| reflexivity].
  apply datum_eqb_eq in E. symmetry. exact E.
Qed.

Lemma update_one_deactivate key tbl :
  fst (update_one "id" (DStr key) (dict [("active", DBool false)])
         (map doc_of tbl))
  = map doc_of (update_first key (with_active (Some false)) tbl).
Proof.
  induction tbl as [| r tbl IH]; [reflexivity|].
  cbn [map update_one update_first]. rewrite has_key_doc_of.
  destruct (String.eqb (id r) key).
  - pose proof (update_doc_deactivate r) as H.
    destruct (update_doc _ _ (doc_of r)) as [d o]. cbn [fst] in *.
    rewrite H. reflexivity.
  - destruct (update_one _ _ _ (map doc_of tbl)) as [rest res].
    cbn [fst] in *. rewrite IH. reflexivity.
Qed.

Lemma db_run_write_deactivate tbl users log key :
  exists res,
    db_run_write
      (GetUpdate "bot_infractions" (DStr key) (dict [("active", DBool false)]))
      (mkWorld (db_of tbl users) log)
    = (Returns res,
       mkWorld (db_of (update_first key (with_active (Some false)) tbl) users)
         (log ++ [OpWrite (GetUpdate "bot_infractions" (DStr key)
                             (dict [("active", DBool false)]))])).
Proof.
  unfold db_run_write, run_write_query.
  cbn [store Infractions.log db_of find_table String.eqb Ascii.eqb Bool.eqb
       primary_key documents].
  pose proof (update_one_deactivate key tbl) as H.
  destruct (update_one _ _ _ (map doc_of tbl)) as [docs res].
  cbn [fst] in H. subst docs. exists res. reflexivity.
Qed.

Lemma db_insert_created tbl users log data inserted_at fresh expires :
  ~ In fresh (map id tbl) ->
  db_insert "bot_infractions"
    (dict [ ("actor_id", DStr (c_actor_id data));
            ("user_id", DStr (c_user_id data));
            ("type", DStr (c_type data));
            ("reason", DStr (c_reason data));
            ("inserted_at", DTime inserted_at);
            ("expires_at", time_or_null expires) ])
    fresh (mkWorld (db_of tbl users) log)
  = (Returns (mkWriteResult 0 0 0 0 1 [fresh]),
     mkWorld
       (db_of (tbl ++ [mkInfraction fresh (c_actor_id data) (c_user_id data)
                         (c_type data) (c_reason data) inserted_at expires
                         None]) users)
       (log ++ [OpInsert "bot_infractions"
                  (dict [ ("actor_id", DStr (c_actor_id data));
                          ("user_id", DStr (c_user_id data));
                          ("type", DStr (c_type data));
                          ("reason", DStr (c_reason data));
                          ("inserted_at", DTime inserted_at);
                          ("expires_at", time_or_null expires) ])])).
Proof.
  intros Hfresh.
  unfold db_insert, run_insert, insert_doc.
  cbn [store Infractions.log db_of find_table String.eqb Ascii.eqb Bool.eqb
       primary_key documents].
  cbn [dict fold_left fst snd].
  rewrite (ids_fresh _ _ Hfresh).
  unfold db_of. rewrite map_app. reflexivity.
Qed.

Lemma find_by_id_app_fresh fresh tbl new :
  ~ In fresh (map id tbl) -> id new = fresh ->
  find_by_id fresh (tbl ++ [new]) = Some new.
Proof.
  intros Hf Hn. unfold find_by_id.
  induction tbl as [| r tbl IH]; cbn [app find].
  - rewrite Hn, String.eqb_refl. reflexivity.
  - cbn [map In] in Hf.
    destruct (String.eqb (id r) fresh) eqn:E.
    + apply String.eqb_eq in E. tauto.
    + apply IH. tauto.
Qed.

Lemma find_by_id_update_first key k f tbl :
  (forall r, id (f r) = id r) ->
  find_by_id k (update_first key f tbl)
  = if String.eqb k key then option_map f (find_by_id k tbl)
    else find_by_id k tbl.
Proof.
  intros Hid. unfold find_by_id.
  induction tbl as [| r tbl IH]; cbn [update_first find].
  - destruct (String.eqb k key); reflexivity.
  - destruct (String.eqb (id r) key) eqn:E1.
    + apply String.eqb_eq in E1. cbn [find]. rewrite Hid.
      destruct (String.eqb (id r) k) eqn:E2.
      * apply String.eqb_eq in E2.
        rewrite <- E1, <- E2, String.eqb_refl. reflexivity.
      * destruct (String.eqb k key) eqn:E3; [| reflexivity].
        apply String.eqb_eq in E3.
        rewrite E1, <- E3, String.eqb_refl in E2. discriminate.
    + cbn [find]. destruct (String.eqb (id r) k) eqn:E2.
      * apply String.eqb_eq in E2. rewrite <- E2, E1. reflexivity.
      * exact IH.
Qed.

Lemma lookup_doc_truth now r : truth (doc_of (derive now r)) = true.
Proof. destruct r as [i a u t re ins ex ac]; reflexivity. Qed.

Lemma timed_valid data :
  is_timed_key (c_type data) = true -> valid_create data = true.
Proof.
  unfold is_timed_key, valid_create. cbn.
  destruct (String.eqb (c_type data) "warning"),
           (String.eqb (c_type data) "mute"),
           (String.eqb (c_type data) "ban"),
           (String.eqb (c_type data) "kick"),
           (String.eqb (c_type data) "softban"); cbn; congruence.
Qed.

Lemma timedelta_value n delta :
  timedelta n = Some delta -> delta = microseconds n.
Proof.
  unfold timedelta.
  destruct ((-999999999 <=? n / 86400) && (n / 86400 <=? 999999999))%bool;
    congruence.
Qed.

Lemma datetime_add_value d delta sum :
  datetime_add d delta = Some sum -> sum = d + delta.
Proof.
  unfold datetime_add.
  destruct ((datetime_min <=? d + delta) && (d + delta <=? datetime_max))%bool;
    congruence.
Qed.

Lemma add_seconds_in_range t n :
  representable t n = true -> add_seconds t n = ret (t + microseconds n).
Proof.
  unfold representable, add_seconds.
  destruct (timedelta n) as [delta|] eqn:Hd; [| discriminate].
  destruct (datetime_add t delta) as [sum|] eqn:Hs; [| discriminate].
  intros _. apply datetime_add_value in Hs. apply timedelta_value in Hd.
  subst. reflexivity.
Qed.

Lemma add_seconds_overflow t n :
  representable t n = false -> add_seconds t n = raise OverflowError.
Proof.
  unfold representable, add_seconds.
  destruct (timedelta n) as [delta|]; [| reflexivity].
  destruct (datetime_add t delta); [discriminate | reflexivity].
Qed.

(** The bounds of [representable], spelled out. *)
Lemma representable_spec t n :
  representable t n = true
  <-> -999999999 <= n / 86400 <= 999999999
      /\ datetime_min <= t + microseconds n <= datetime_max.
Proof.
  unfold representable, timedelta, datetime_add.
  destruct ((-999999999 <=? n / 86400) && (n / 86400 <=? 999999999))%bool
    eqn:E1.
  - destruct ((datetime_min <=? t + microseconds n)
              && (t + microseconds n <=? datetime_max))%bool eqn:E2.
    + apply andb_true_iff in E1, E2. rewrite !Z.leb_le in E1, E2.
      split; [intros _; lia | reflexivity].
    + apply andb_false_iff in E2. rewrite !Z.leb_gt in E2.
      split; [discriminate | lia].
  - apply andb_false_iff in E1. rewrite !Z.leb_gt in E1.
    split; [discriminate | lia].
Qed.

Lemma post_expires data inserted_at fresh :
  is_timed_key (c_type data) = true ->
  create_in_range data inserted_at = true ->
  (if truth_of_int (c_duration data)
   then match c_duration data with
        | Some d => sum <~ add_seconds inserted_at d ;; ret (DTime sum)
        | None => ret DNull
        end
   else ret DNull)
  = ret (time_or_null (expires_at (created data inserted_at fresh))).
Proof.
  unfold create_in_range, created; unfold_record. intros Ht. rewrite Ht.
  cbn [andb].
  destruct (c_duration data) as [d|]; [| reflexivity].
  destruct (truth_of_int (Some d)); [| reflexivity].
  intros Hr. rewrite (add_seconds_in_range _ _ Hr). reflexivity.
Qed.

Lemma untimed_never_expires data inserted_at fresh :
  is_timed_key (c_type data) = false ->
  expires_at (created data inserted_at fresh) = None.
Proof.
  unfold created; unfold_record. intros Ht. rewrite Ht. reflexivity.
Qed.

Lemma untimed_in_range data inserted_at :
  is_timed_key (c_type data) = false -> create_in_range data inserted_at = true.
Proof. unfold create_in_range. intros Ht. rewrite Ht. reflexivity. Qed.

Lemma current_active_In user ty now tbl r :
  current_active user ty now tbl = Some r -> In r tbl.
Proof.
  unfold current_active, selected. intros H.
  destruct (filter _ tbl) as [| x rest] eqn:E; [discriminate|].
  injection H as ->.
  assert (Hin : In r (r :: rest)) by (left; reflexivity).
  rewrite <- E in Hin. apply filter_In in Hin. tauto.
Qed.

Lemma post_tail tbl users log data inserted_at now_read fresh q :
  ~ In fresh (map id tbl) ->
  match q with
  | Some key => key <> fresh
  | None => True
  end ->
  (inserted <~
     db_insert "bot_infractions"
       (insert_doc_of data inserted_at
          (expires_at (created data inserted_at fresh))) fresh ;;
   match generated_keys inserted with
   | [] => raise (KeyError "generated_keys")
   | infraction_id :: _ =>
       _done <~
         (match option_map deactivate_query q with
          | Some w => r <~ db_run_write w ;; ret tt
          | None => ret tt
          end) ;;
       infraction <~
         db_run now_read
           (shaped_by_id bot_infractions_view (c_expand data) infraction_id) ;;
       ret (jsonify (dict [("infraction", infraction)]))
   end) (mkWorld (db_of tbl users) log)
  = (Returns
       (Json
          (DObj
             [("infraction",
               shaped users (c_expand data) now_read
                 (created data inserted_at fresh))])),
     mkWorld
       (db_of
          match q with
          | Some key =>
              update_first key (with_active (Some false))
                (tbl ++ [created data inserted_at fresh])
          | None => tbl ++ [created data inserted_at fresh]
          end users)
       (log
        ++ [OpInsert "bot_infractions"
              (insert_doc_of data inserted_at
                 (expires_at (created data inserted_at fresh)))]
        ++ match q with
           | Some key => [OpWrite (deactivate_query key)]
           | None => []
           end
        ++ [OpRun now_read
              (shaped_by_id bot_infractions_view (c_expand data) fresh)])).
Proof.
  intros Hfresh Hq.
  unfold bindM at 1. unfold insert_doc_of at 1.
  rewrite db_insert_created by exact Hfresh.
  change (mkInfraction fresh _ _ _ _ inserted_at _ None)
    with (created data inserted_at fresh).
  cbn [generated_keys].
  pose proof (find_by_id_app_fresh fresh tbl (created data inserted_at fresh)
                Hfresh eq_refl) as Hnew.
  destruct q as [key|]; cbn [option_map].
  - unfold deactivate_query at 1.
    destruct (db_run_write_deactivate
                (tbl ++ [created data inserted_at fresh]) users
                (log ++ [OpInsert "bot_infractions"
                           (dict [ ("actor_id", DStr (c_actor_id data));
                                   ("user_id", DStr (c_user_id data));
                                   ("type", DStr (c_type data));
                                   ("reason", DStr (c_reason data));
                                   ("inserted_at", DTime inserted_at);
                                   ("expires_at",
                                    time_or_null
                                      (expires_at
                                         (created data inserted_at fresh)))])])
                key) as [res Hres].
    unfold bindM. rewrite Hres. cbn [ret].
    rewrite (db_run_ok _ _ _ _ _ (eval_shaped_by_id _ users now_read _ fresh)).
    rewrite find_by_id_update_first by reflexivity.
    destruct (String.eqb fresh key) eqn:E.
    { apply String.eqb_eq in E. congruence. }
    rewrite Hnew. unfold insert_doc_of, deactivate_query.
    rewrite <- !app_assoc. reflexivity.
  - unfold bindM. cbn [ret].
    rewrite (db_run_ok _ _ _ _ _ (eval_shaped_by_id _ users now_read _ fresh)).
    rewrite Hnew. unfold insert_doc_of.
    rewrite <- !app_assoc. reflexivity.
Qed.

Lemma post_run tbl users log data inserted_at now_lookup now_read fresh :
  valid_create data = true ->
  create_in_range data inserted_at = true ->
  ~ In fresh (map id tbl) ->
  InfractionsView_post data inserted_at now_lookup now_read fresh
    (mkWorld (db_of tbl users) log)
  = (Returns
       (Json
          (DObj
             [("infraction",
               shaped users (c_expand data) now_read
                 (created data inserted_at fresh))])),
     mkWorld (db_of (post_table data inserted_at now_lookup fresh tbl) users)
       (log ++ post_log data inserted_at now_lookup now_read fresh tbl)).
Proof.
  intros Hvalid Hrange Hfresh.
  unfold InfractionsView_post, post_table, post_log, superseded.
  rewrite Hvalid. cbn [negb table_name bot_infractions_view].
  fold (lookup_query (c_user_id data) (c_type data)).
  destruct (is_timed_key (c_type data)) eqn:Htimed.
  - rewrite (post_expires data inserted_at fresh Htimed Hrange).
    unfold bindM at 1. unfold bindM at 1.
    rewrite (db_run_ok _ _ _ _ _
               (eval_lookup_query tbl users now_lookup (c_user_id data)
                  (c_type data))).
    destruct (current_active (c_user_id data) (c_type data) now_lookup tbl)
      as [prior|] eqn:Hprior.
    + rewrite lookup_doc_truth, get_field_id.
      cbn [ret bindM fst snd derive with_active id].
      fold (insert_doc_of data inserted_at
              (expires_at (created data inserted_at fresh))).
      fold (deactivate_query (id prior)).
      rewrite (post_tail tbl users _ data inserted_at now_read fresh
                 (Some (id prior)) Hfresh).
      * rewrite <- !app_assoc. reflexivity.
      * intros E. apply Hfresh. rewrite <- E.
        apply in_map, (current_active_In _ _ _ _ _ Hprior).
    + cbn [truth ret bindM fst snd].
      fold (insert_doc_of data inserted_at
              (expires_at (created data inserted_at fresh))).
      rewrite (post_tail tbl users _ data inserted_at now_read fresh None
                 Hfresh I).
      rewrite <- !app_assoc. reflexivity.
  - unfold bindM at 1. cbn [ret fst snd].
    change DNull with (time_or_null None) at 1.
    rewrite <- (untimed_never_expires data inserted_at fresh Htimed).
    fold (insert_doc_of data inserted_at
            (expires_at (created data inserted_at fresh))).
    rewrite (post_tail tbl users _ data inserted_at now_read fresh None
               Hfresh I).
    reflexivity.
Qed.

Lemma merge_patch data current_time r :
  merge_datum (dict (update_collection_of data current_time)) (doc_of r)
  = doc_of (apply_update data current_time (with_id (u_id data) r)).
Proof.
  destruct data as [key [s|] [d|] [b|]];
    destruct r as [i a u t re ins ex [c|]]; reflexivity.
Qed.

Lemma update_doc_patch data current_time r :
  update_doc "id" (dict (update_collection_of data current_time)) (doc_of r)
  = if String.eqb (id r) (u_id data)
    then (doc_of (apply_update data current_time r),
          if datum_eqb (doc_of (apply_update data current_time r)) (doc_of r)
          then Unchanged else Replaced)
    else (doc_of r, Errored).
Proof.
  unfold update_doc. cbv zeta.
  rewrite merge_patch, !get_field_id.
  cbn [option_datum_eqb datum_eqb apply_update with_id id].
  rewrite String.eqb_sym.
  destruct (String.eqb (id r) (u_id data)) eqn:E; cbn [negb]; [| reflexivity].
  apply String.eqb_eq in E.
  replace (with_id (u_id data) r) with r
    by (rewrite <- E; destruct r; reflexivity).
  destruct (datum_eqb _ (doc_of r)) eqn:E2; [| reflexivity].
  apply datum_eqb_eq in E2. rewrite E2. reflexivity.
Qed.

Lemma update_all_patch data current_time tbl :
  fst (update_all "id" (dict (update_collection_of data current_time))
         (map doc_of tbl))
  = map doc_of (update_where (u_id data) (apply_update data current_time) tbl)
  /\ replaced
       (snd (update_all "id" (dict (update_collection_of data current_time))
               (map doc_of tbl)))
     = List.length (filter (changed data current_time) tbl).
Proof.
  induction tbl as [| r tbl [IH1 IH2]]; [split; reflexivity|].
  cbn [map update_all update_where filter].
  fold (update_where (u_id data) (apply_update data current_time) tbl).
  rewrite update_doc_patch. unfold changed at 1.
  destruct (update_all _ _ (map doc_of tbl)) as [docs res].
  cbn [fst snd] in *. subst docs.
  destruct (String.eqb (id r) (u_id data)); cbn [andb negb fst snd].
  - destruct (datum_eqb _ (doc_of r)); cbn [negb count_outcome replaced List.length];
      split; congruence.
  - split; [reflexivity | exact IH2].
Qed.

Lemma filter_id_nodup key tbl :
  NoDup (map id tbl) ->
  filter (fun r => String.eqb (id r) key) tbl
  = match find_by_id key tbl with
    | Some r => [r]
    | None => []
    end.
Proof.
  unfold find_by_id.
  induction tbl as [| r tbl IH]; intros Hnd; [reflexivity|].
  cbn [map] in Hnd. inversion Hnd as [| x l Hnotin Hnd']; subst.
  cbn [filter find].
  destruct (String.eqb (id r) key) eqn:E.
  - apply String.eqb_eq in E. f_equal.
    rewrite <- E in *. clear IH Hnd.
    induction tbl as [| x tbl IHt]; [reflexivity|].
    cbn [filter map In] in *.
    destruct (String.eqb (id x) (id r)) eqn:E2.
    + apply String.eqb_eq in E2. tauto.
    + apply IHt; [tauto|]. inversion Hnd'; assumption.
  - apply IH. exact Hnd'.
Qed.

Lemma filter_andb {A} (f g : A -> bool) l :
  filter (fun x => f x && g x)%bool l = filter g (filter f l).
Proof.
  induction l as [| a l IH]; [reflexivity|].
  cbn [filter]. destruct (f a); cbn [andb filter];
    [destruct (g a)|]; rewrite IH; reflexivity.
Qed.

Lemma changed_count data current_time tbl :
  NoDup (map id tbl) ->
  List.length (filter (changed data current_time) tbl)
  = match find_by_id (u_id data) tbl with
    | Some r =>
        if datum_eqb (doc_of (apply_update data current_time r)) (doc_of r)
        then 0%nat else 1%nat
    | None => 0%nat
    end.
Proof.
  intros Hnd. unfold changed.
  rewrite (filter_andb (fun r => String.eqb (id r) (u_id data))).
  rewrite filter_id_nodup by exact Hnd.
  destruct (find_by_id (u_id data) tbl) as [r|]; [| reflexivity].
  cbn [filter]. destruct (datum_eqb _ (doc_of r)); reflexivity.
Qed.

Lemma find_by_id_update_where key f tbl :
  (forall r, id (f r) = id r) ->
  find_by_id key (update_where key f tbl) = option_map f (find_by_id key tbl).
Proof.
  intros Hid. unfold find_by_id, update_where.
  induction tbl as [| r tbl IH]; [reflexivity|].
  cbn [map find].
  destruct (String.eqb (id r) key) eqn:E.
  - rewrite Hid, E. reflexivity.
  - rewrite E. exact IH.
Qed.

Lemma db_run_write_patch tbl users log data current_time :
  exists res,
    db_run_write
      (TableUpdate "bot_infractions"
         (dict (update_collection_of data current_time)))
      (mkWorld (db_of tbl users) log)
    = (Returns res,
       mkWorld
         (db_of (update_where (u_id data) (apply_update data current_time) tbl)
            users)
         (log ++ [OpWrite
                    (TableUpdate "bot_infractions"
                       (dict (update_collection_of data current_time)))]))
    /\ replaced res = List.length (filter (changed data current_time) tbl).
Proof.
  unfold db_run_write, run_write_query.
  cbn [store Infractions.log db_of find_table String.eqb Ascii.eqb Bool.eqb
       primary_key documents].
  destruct (update_all_patch data current_time tbl) as [H1 H2].
  destruct (update_all _ _ (map doc_of tbl)) as [docs res].
  cbn [fst snd] in H1, H2. subst docs.
  exists res. split; [reflexivity | exact H2].
Qed.

(** [patch] once the expiry it asks for is known to be a datetime: the
    update, then the read-back. *)
Lemma patch_in_range data current_time now_read w :
  update_in_range data current_time = true ->
  InfractionsView_patch data current_time now_read w
  = (result_update <~
       db_run_write
         (TableUpdate "bot_infractions"
            (dict (update_collection_of data current_time))) ;;
     if Nat.eqb (replaced result_update) 0 then
       ret (jsonify (dict [("success", DBool false)]))
     else
       infraction <~
         db_run now_read
           (shaped_by_id bot_infractions_view None (u_id data)) ;;
       ret (jsonify (dict [("infraction", infraction);
                           ("success", DBool true)]))) w.
Proof.
  unfold InfractionsView_patch, update_collection_of, update_in_range.
  destruct (u_duration data) as [d|]; [| reflexivity].
  intros Hr. rewrite (add_seconds_in_range _ _ Hr). reflexivity.
Qed.

(** [patch] when it is not: the sum raises before any call to the
    database. *)
Lemma patch_overflow data current_time now_read w :
  update_in_range data current_time = false ->
  InfractionsView_patch data current_time now_read w
  = (Raises OverflowError, w).
Proof.
  unfold InfractionsView_patch, update_in_range.
  destruct (u_duration data) as [d|]; [| discriminate].
  intros Hr. rewrite (add_seconds_overflow _ _ Hr). reflexivity.
Qed.

(** [post] of a timed type when the expiry it asks for is not a datetime:
    the sum raises after the look-up and before the insert. *)
Lemma post_overflow tbl users log data inserted_at now_lookup now_read fresh :
  is_timed_key (c_type data) = true ->
  create_in_range data inserted_at = false ->
  InfractionsView_post data inserted_at now_lookup now_read fresh
    (mkWorld (db_of tbl users) log)
  = (Raises OverflowError,
     mkWorld (db_of tbl users)
       (log ++ [OpRun now_lookup
                  (lookup_query (c_user_id data) (c_type data))])).
Proof.
  intros Htimed Hrange.
  unfold InfractionsView_post. rewrite (timed_valid _ Htimed).
  cbn [negb table_name bot_infractions_view].
  fold (lookup_query (c_user_id data) (c_type data)).
  rewrite Htimed.
  unfold create_in_range in Hrange. rewrite Htimed in Hrange.
  cbn [andb] in Hrange.
  destruct (truth_of_int (c_duration data)); [| discriminate].
  destruct (c_duration data) as [d|]; [| discriminate].
  rewrite (add_seconds_overflow _ _ Hrange).
  unfold bindM at 1. unfold bindM at 1.
  rewrite (db_run_ok _ _ _ _ _
             (eval_lookup_query tbl users now_lookup (c_user_id data)
                (c_type data))).
  destruct (current_active (c_user_id data) (c_type data) now_lookup tbl)
    as [prior|].
  - rewrite lookup_doc_truth, get_field_id. reflexivity.
  - reflexivity.
Qed.

Lemma patch_run tbl users log data current_time now_read :
  NoDup (map id tbl) ->
  update_in_range data current_time = true ->
  exists log',
    InfractionsView_patch data current_time now_read
      (mkWorld (db_of tbl users) log)
    = (Returns (patch_response users data current_time now_read tbl),
       mkWorld
         (db_of (update_where (u_id data) (apply_update data current_time) tbl)
            users) log').
Proof.
  intros Hnd Hrange.
  rewrite (patch_in_range _ _ _ _ Hrange).
  destruct (db_run_write_patch tbl users log data current_time)
    as [res [Hrun Hres]].
  unfold bindM at 1. rewrite Hrun, Hres, (changed_count _ _ _ Hnd).
  unfold patch_response.
  destruct (find_by_id (u_id data) tbl) as [r|] eqn:Hfind.
  - destruct (datum_eqb _ (doc_of r)) eqn:E; cbn [Nat.eqb].
    + eexists. reflexivity.
    + unfold bindM.
      rewrite (db_run_ok _ _ _ _ _
                 (eval_shaped_by_id _ users now_read None (u_id data))).
      rewrite find_by_id_update_where by reflexivity.
      rewrite Hfind. eexists. reflexivity.
  - eexists. reflexivity.
Qed.

End InfractionsFacts.

(* ================================================================== *)
(** * Infractions: the properties of the views *)
(* ================================================================== *)

Module InfractionsTheorems.
Import ReQL Py Infractions ReQLFacts InfractionsFacts.

Lemma shaped_active users expand now r :
  get_field (shaped users expand now r) "active"
  = Some (DBool (effective_active now r)).
Proof. reflexivity. Qed.

(** C1.  Every read path returns, as [active], the value of the activation
    rule at the time of the query: false for a type that is not timed,
    whatever is stored; otherwise false when the stored override is false;
    otherwise true when [expires_at] is null; otherwise [expires_at > now].
    The read paths are the function merged into every query, the query by
    id (also the read-back of create and update), the list views and the
    current-infraction view. *)
Theorem derived_active_is_activation_rule :
  forall (tbl : list Infraction) (users : list datum) (log : list db_op)
         (now : Z),
    (forall r,
        effective_active now r
        = if negb (String.eqb (type r) "mute" || String.eqb (type r) "ban")
          then false
          else match active r with
               | Some false => false
               | _ => match expires_at r with
                      | None => true
                      | Some e => e >? now
                      end
               end)
    /\ (forall r,
          eval (db_of tbl users) now (Some (doc_of r)) (_merge_active_check Var)
          = Ok (DObj [("active", DBool (effective_active now r))]))
    /\ (forall expand key,
          exists d,
            eval (db_of tbl users) now None
              (shaped_by_id bot_infractions_view expand key) = Ok d
            /\ match find_by_id key tbl with
               | Some r =>
                   get_field d "active" = Some (DBool (effective_active now r))
               | None => d = DNull
               end)
    /\ (forall params key,
          exists d,
            fst (InfractionById_get params key now
                   (mkWorld (db_of tbl users) log))
            = Returns (Json (DObj [("infraction", d)]))
            /\ match find_by_id key tbl with
               | Some r =>
                   get_field d "active" = Some (DBool (effective_active now r))
               | None => d = DNull
               end)
    /\ (forall params query_filter,
          exists docs,
            fst (_infraction_list_filtered bot_infractions_view params
                   query_filter now (mkWorld (db_of tbl users) log))
            = Returns (Json (DArr docs))
            /\ Forall2
                 (fun r d =>
                    get_field d "active"
                    = Some (DBool (effective_active now r)))
                 (selected (list_filter params query_filter) now tbl) docs)
    /\ (forall params user ty,
          exists d,
            fst (CurrentInfractionByTypeAndUserView_get params user ty now
                   (mkWorld (db_of tbl users) log))
            = Returns (Json (DObj [("infraction", d)]))
            /\ (d = DNull
                \/ exists r,
                     In r tbl
                     /\ get_field d "active"
                        = Some (DBool (effective_active now r)))).
Proof.
  intros tbl users log now. repeat split.
  - intros r. unfold effective_active, timed.
    destruct (active r) as [[|]|]; reflexivity.
  - intros r. apply eval_merge_active_check.
  - intros expand key. eexists. split; [apply eval_shaped_by_id|].
    destruct (find_by_id key tbl); reflexivity.
  - intros params key. rewrite InfractionById_get_run. cbn [fst].
    eexists. split; [reflexivity|].
    destruct (find_by_id key tbl); reflexivity.
  - intros params query_filter. rewrite _infraction_list_filtered_run.
    eexists. split; [reflexivity|].
    induction (selected _ now tbl) as [| r l IH]; constructor;
      [reflexivity | exact IH].
  - intros params user ty.
    rewrite CurrentInfractionByTypeAndUserView_get_run.
    eexists. split; [reflexivity|].
    destruct (hd_error _) as [r|] eqn:E; [right | left; reflexivity].
    exists r. split; [| reflexivity].
    destruct (filter (effective_active now) _) as [| x l] eqn:F;
      [discriminate|].
    injection E as ->.
    assert (Hin : In r (r :: l)) by (left; reflexivity).
    rewrite <- F in Hin. apply filter_In in Hin. destruct Hin as [Hin _].
    unfold selected in Hin. apply filter_In in Hin. tauto.
Qed.

(** C10.  A stored override of true is read exactly as an absent or null
    one: the rule takes a missing [active] for true and only stops on a
    stored false.  With either, a timed infraction is governed by
    [expires_at] (an expired one reads inactive in spite of the stored
    true) and a type that is not timed reads false. *)
Theorem stored_true_reads_as_absent :
  forall (db : database) (now : Z) (r : Infraction),
    eval db now (Some (doc_of (with_active (Some true) r)))
      (_merge_active_check Var)
    = eval db now (Some (doc_of (with_active None r))) (_merge_active_check Var)
    /\ eval db now (Some (doc_of (with_active (Some true) r)))
         (_merge_active_check Var)
       = eval db now (Some (doc_of_null_active r)) (_merge_active_check Var)
    /\ eval db now (Some (doc_of (with_active (Some true) r)))
         (_merge_active_check Var)
       = Ok (DObj
               [("active",
                 DBool
                   (if (String.eqb (type r) "mute" || String.eqb (type r) "ban")
                    then match expires_at r with
                         | None => true
                         | Some e => e >? now
                         end
                    else false))]).
Proof.
  intros db now r.
  assert (Hnull : eval db now (Some (doc_of_null_active r))
                    (_merge_active_check Var)
                  = Ok (DObj [("active",
                               DBool (effective_active now
                                        (with_active None r)))])).
  { destruct r as [i a u ty re ins ex ac].
    unfold effective_active, timed, with_active, doc_of_null_active;
      unfold_record.
    destruct ex as [e|]; cbn;
      destruct (String.eqb ty "mute"), (String.eqb ty "ban"); reflexivity. }
  rewrite Hnull, !eval_merge_active_check.
  unfold effective_active, timed, with_active; unfold_record.
  destruct (String.eqb (type r) "mute" || String.eqb (type r) "ban");
    repeat split; reflexivity.
Qed.

Lemma obj_matches_In pred d k v :
  In (k, v) pred -> obj_matches pred d = true ->
  exists v', get_field d k = Some v' /\ datum_eqb v' v = true.
Proof.
  unfold obj_matches. intros Hin H.
  rewrite forallb_forall in H. specialize (H _ Hin). cbn [fst snd] in H.
  destruct (get_field d k) as [v'|]; [| discriminate].
  exists v'. split; [reflexivity | exact H].
Qed.

Lemma dict_set_In {A} k (v : A) d : exists k', String.eqb k k' = true /\ In (k', v) (dict_set k v d).
Proof.
  induction d as [| [k0 v0] d [k' [E IH]]]; cbn [dict_set].
  - exists k. split; [apply String.eqb_refl | left; reflexivity].
  - destruct (String.eqb k k0) eqn:E0.
    + exists k0. split; [exact E0 | left; reflexivity].
    + exists k'. split; [exact E | right; exact IH].
Qed.

Lemma selected_active_sound b query_filter now r :
  obj_matches (dict_set "active" (DBool b) query_filter) (doc_of (derive now r))
  = true ->
  effective_active now r = b.
Proof.
  intros H.
  destruct (dict_set_In "active" (DBool b) query_filter) as [k' [E Hin]].
  apply String.eqb_eq in E. subst k'.
  destruct (obj_matches_In _ _ _ _ Hin H) as [v' [Hget Heq]].
  apply datum_eqb_eq in Heq. subst v'.
  destruct r as [i a u t re ins ex ac]. cbn in Hget. congruence.
Qed.

Lemma get_field_derive now r k :
  String.eqb k "active" = false ->
  get_field (doc_of (derive now r)) k = get_field (doc_of r) k.
Proof.
  intros H. destruct r as [i a u t re ins ex [c|]]; cbn; rewrite ?H; reflexivity.
Qed.

Lemma obj_matches_active b query_filter now r :
  dict_get "active" query_filter = None ->
  obj_matches (dict_set "active" (DBool b) query_filter) (doc_of (derive now r))
  = (obj_matches query_filter (doc_of r)
     && Bool.eqb (effective_active now r) b)%bool.
Proof.
  unfold obj_matches.
  induction query_filter as [| [k v] q IH]; intros Hget.
  - destruct r as [i a u t re ins ex ac]. cbn.
    rewrite andb_true_r. reflexivity.
  - cbn [dict_get dict_set] in *.
    destruct (String.eqb "active" k) eqn:E; [discriminate|].
    cbn [forallb fst snd]. rewrite IH by exact Hget.
    rewrite get_field_derive by (rewrite String.eqb_sym; exact E).
    rewrite andb_assoc. reflexivity.
Qed.

(** C8.  When a list view is asked for [active], every infraction it
    returns has that value as its derived [active]: the filter is applied
    to the value the rule gives at the time of the query, after it has
    replaced the stored override.  For the filters of the list views
    (which never name [active] themselves) the view returns exactly the
    records that match the filter and whose rule value is the one asked
    for. *)
Theorem list_active_filter_is_on_derived_value :
  forall (tbl : list Infraction) (users : list datum) (log : list db_op)
         (now : Z) (params : option params_t)
         (query_filter : list (string * datum)) (b : bool),
    parse_bool (dict_get "active" (params_or_empty params)) None = Some b ->
    exists docs,
      fst (_infraction_list_filtered bot_infractions_view params query_filter
             now (mkWorld (db_of tbl users) log))
      = Returns (Json (DArr docs))
      /\ Forall (fun d => get_field d "active" = Some (DBool b)) docs
      /\ Forall2
           (fun r d =>
              effective_active now r = b
              /\ d = shaped users
                       (parse_bool (dict_get "expand" (params_or_empty params))
                          (Some false)) now r)
           (selected (dict_set "active" (DBool b) query_filter) now tbl) docs
      /\ (dict_get "active" query_filter = None ->
          selected (dict_set "active" (DBool b) query_filter) now tbl
          = filter
              (fun r =>
                 obj_matches query_filter (doc_of r)
                 && Bool.eqb (effective_active now r) b)%bool tbl).
Proof.
  intros tbl users log now params query_filter b Hb.
  rewrite _infraction_list_filtered_run. unfold list_filter. rewrite Hb.
  eexists. split; [reflexivity|].
  assert (Hsel : Forall (fun r => effective_active now r = b)
                   (selected (dict_set "active" (DBool b) query_filter) now tbl)).
  { apply Forall_forall. intros r Hin. unfold selected in Hin.
    apply filter_In in Hin. destruct Hin as [_ Hm].
    exact (selected_active_sound _ _ _ _ Hm). }
  repeat split.
  - induction Hsel as [| r l Hr _ IH]; constructor; [| exact IH].
    rewrite shaped_active, Hr. reflexivity.
  - induction Hsel as [| r l Hr _ IH]; constructor; [| exact IH].
    split; [exact Hr | reflexivity].
  - intros Hnone. unfold selected. apply filter_ext.
    intros r. apply obj_matches_active. exact Hnone.
Qed.

Lemma list_active_filter_witness :
  parse_bool
    (dict_get "active" (params_or_empty (Some [("active", "False")]))) None
  = Some false
  /\ exists docs,
       fst (_infraction_list_filtered bot_infractions_view
              (Some [("active", "False")]) [("user_id", DStr "u1")] 20
              (mkWorld
                 (db_of [mkInfraction "a" "mod" "u1" "ban" "spam" 10 (Some 15)
                           (Some true)] []) []))
       = Returns (Json (DArr docs))
       /\ Forall (fun d => get_field d "active" = Some (DBool false)) docs.
Proof.
  split; [reflexivity|].
  destruct (list_active_filter_is_on_derived_value
              [mkInfraction "a" "mod" "u1" "ban" "spam" 10 (Some 15) (Some true)]
              [] [] 20 (Some [("active", "False")]) [("user_id", DStr "u1")]
              false eq_refl) as [docs [H1 [H2 _]]].
  exists docs. split; assumption.
Defined.

Lemma timed_key_valid data :
  is_timed_key (c_type data) = true -> valid_create data = true.
Proof.
  unfold is_timed_key, valid_create. cbn.
  destruct (String.eqb (c_type data) "warning"),
           (String.eqb (c_type data) "mute"),
           (String.eqb (c_type data) "ban"),
           (String.eqb (c_type data) "kick"),
           (String.eqb (c_type data) "softban"); cbn; congruence.
Qed.

Lemma find_by_id_In_nodup r tbl :
  NoDup (map id tbl) -> In r tbl -> find_by_id (id r) tbl = Some r.
Proof.
  unfold find_by_id.
  induction tbl as [| x tbl IH]; intros Hnd Hin; [contradiction|].
  cbn [map] in Hnd. inversion Hnd as [| y l Hnotin Hnd']; subst.
  cbn [find]. destruct Hin as [-> | Hin].
  - rewrite String.eqb_refl. reflexivity.
  - destruct (String.eqb (id x) (id r)) eqn:E.
    + apply String.eqb_eq in E. exfalso. apply Hnotin. rewrite E.
      apply in_map. exact Hin.
    + apply IH; assumption.
Qed.


Lemma current_active_spec user ty now tbl r :
  current_active user ty now tbl = Some r ->
  In r tbl /\ user_id r = user /\ type r = ty /\ effective_active now r = true.
Proof.
  intros H. split; [exact (current_active_In _ _ _ _ _ H)|].
  unfold current_active, selected in H.
  destruct (filter _ tbl) as [| x rest] eqn:E; [discriminate|].
  injection H as ->.
  assert (Hin : In r (r :: rest)) by (left; reflexivity).
  rewrite <- E in Hin. apply filter_In in Hin. destruct Hin as [_ Hm].
  rewrite selected_current in Hm.
  apply andb_true_iff in Hm. destruct Hm as [Hm Ha].
  apply andb_true_iff in Hm. destruct Hm as [Hu Ht].
  apply String.eqb_eq in Hu, Ht. auto.
Qed.

Lemma deactivated_reads_inactive now r :
  effective_active now (with_active (Some false) r) = false.
Proof.
  unfold effective_active, with_active; unfold_record.
  destruct (timed (type r)); reflexivity.
Qed.


Ltac solve_nodup :=
  repeat (apply NoDup_cons; [cbn; intuition discriminate|]); apply NoDup_nil.




Lemma doc_eqb_unchanged r1 r2 :
  datum_eqb (doc_of r1) (doc_of r2) = true <-> r1 = r2.
Proof.
  rewrite datum_eqb_eq. split; [apply doc_of_inj | congruence].
Qed.

(** C5 (amended).  An update whose expiry is a datetime (no duration, or
    [current_time + timedelta(seconds=duration)] raises no
    [OverflowError]) answers [success = false], with no infraction in the
    payload, exactly when the store replaced no document: either no
    record has the given id, or the record under that id already holds
    every value the request supplies, so that nothing changes.  When the
    record was changed the answer is [success = true] with the updated
    record in the shaped form (derived [active], user and actor objects in
    place of the raw ids).  An update whose expiry is not a datetime gives
    neither answer: it raises [OverflowError] before any call to the
    database. *)
Theorem update_succeeds_iff_record_replaced :
  forall (tbl : list Infraction) (users : list datum) (log : list db_op)
         (data : UpdateData) (current_time now_read : Z),
    NoDup (map id tbl) ->
    (update_in_range data current_time = false ->
     InfractionsView_patch data current_time now_read
       (mkWorld (db_of tbl users) log)
     = (Raises OverflowError, mkWorld (db_of tbl users) log))
    /\
    (update_in_range data current_time = true ->
    match find_by_id (u_id data) tbl with
    | None =>
        fst (InfractionsView_patch data current_time now_read
               (mkWorld (db_of tbl users) log))
        = Returns (Json (DObj [("success", DBool false)]))
    | Some r =>
        (apply_update data current_time r = r ->
         fst (InfractionsView_patch data current_time now_read
                (mkWorld (db_of tbl users) log))
         = Returns (Json (DObj [("success", DBool false)])))
        /\ (apply_update data current_time r <> r ->
            fst (InfractionsView_patch data current_time now_read
                   (mkWorld (db_of tbl users) log))
            = Returns
                (Json
                   (DObj
                      [ ("infraction",
                         DObj
                           [ ("active",
                              DBool
                                (effective_active now_read
                                   (apply_update data current_time r)));
                             ("actor", DObj [("user_id", DStr (actor_id r))]);
                             ("expires_at",
                              time_or_null
                                (expires_at (apply_update data current_time r)));
                             ("id", DStr (id r));
                             ("inserted_at", DTime (inserted_at r));
                             ("reason",
                              DStr (reason (apply_update data current_time r)));
                             ("type", DStr (type r));
                             ("user", DObj [("user_id", DStr (user_id r))]) ]);
                        ("success", DBool true) ])))
    end).
Proof.
  intros tbl users log data current_time now_read Hnd.
  split; [apply patch_overflow|]. intros Hrange.
  destruct (patch_run tbl users log data current_time now_read Hnd Hrange)
    as [log' Hrun].
  rewrite Hrun. cbn [fst]. unfold patch_response.
  destruct (find_by_id (u_id data) tbl) as [r|]; [| reflexivity].
  split; intros H.
  - apply doc_eqb_unchanged in H. rewrite H. reflexivity.
  - destruct (datum_eqb _ (doc_of r)) eqn:E.
    + apply doc_eqb_unchanged in E. contradiction.
    + reflexivity.
Qed.

Lemma update_succeeds_witness :
  NoDup (map id [mkInfraction "a" "mod" "u1" "ban" "spam" 10 None None])
  /\ update_in_range (mkUpdateData "a" (Some "flood") None None) 20 = true
  /\ fst (InfractionsView_patch (mkUpdateData "a" (Some "flood") None None)
            20 21
            (mkWorld
               (db_of [mkInfraction "a" "mod" "u1" "ban" "spam" 10 None None]
                  []) []))
     = Returns
         (Json
            (DObj
               [ ("infraction",
                  DObj
                    [ ("active", DBool true);
                      ("actor", DObj [("user_id", DStr "mod")]);
                      ("expires_at", DNull);
                      ("id", DStr "a");
                      ("inserted_at", DTime 10);
                      ("reason", DStr "flood");
                      ("type", DStr "ban");
                      ("user", DObj [("user_id", DStr "u1")]) ]);
                 ("success", DBool true) ])).
Proof.
  assert (H1 : NoDup (map id [mkInfraction "a" "mod" "u1" "ban" "spam" 10 None
                                None])) by solve_nodup.
  split; [exact H1|]. split; [reflexivity|].
  pose proof (proj2 (update_succeeds_iff_record_replaced
                       [mkInfraction "a" "mod" "u1" "ban" "spam" 10 None None]
                       [] [] (mkUpdateData "a" (Some "flood") None None)
                       20 21 H1) eq_refl) as H.
  cbn [find_by_id find id u_id String.eqb Ascii.eqb Bool.eqb] in H.
  destruct H as [_ H]. apply H. discriminate.
Defined.

(** C5 does not hold with "no record matched" alone: an update that
    matches a record but gives it the values it already has is answered
    [success = false]. *)
Lemma update_of_matching_record_can_fail :
  find_by_id "a" [mkInfraction "a" "mod" "u1" "ban" "spam" 10 None None]
  = Some (mkInfraction "a" "mod" "u1" "ban" "spam" 10 None None)
  /\ fst (InfractionsView_patch (mkUpdateData "a" (Some "spam") None None)
            20 21
            (mkWorld
               (db_of [mkInfraction "a" "mod" "u1" "ban" "spam" 10 None None]
                  []) []))
     = Returns (Json (DObj [("success", DBool false)])).
Proof. split; vm_compute; reflexivity. Qed.



(** What a create stores, for every valid request whose expiry is a
    datetime: [inserted_at] is the clock of the request; [expires_at] is
    [inserted_at] plus the duration when the type is timed and the duration
    is given and not zero, and null otherwise. *)
Lemma create_stores_times tbl users log data inserted_at now_lookup now_read
  fresh :
  valid_create data = true ->
  create_in_range data inserted_at = true ->
  ~ In fresh (map id tbl) ->
  exists tbl' new,
    store (snd (InfractionsView_post data inserted_at now_lookup now_read fresh
                  (mkWorld (db_of tbl users) log)))
    = db_of tbl' users
    /\ find_by_id fresh tbl' = Some new
    /\ Infractions.inserted_at new = inserted_at
    /\ expires_at new
       = match c_duration data with
         | Some d =>
             if (is_timed_key (c_type data) && negb (d =? 0))%bool
             then Some (inserted_at + microseconds d)
             else None
         | None => None
         end.
Proof.
  intros Hvalid Hrange Hfresh.
  rewrite (post_run tbl users log data inserted_at now_lookup now_read fresh
             Hvalid Hrange Hfresh).
  exists (post_table data inserted_at now_lookup fresh tbl),
         (created data inserted_at fresh).
  cbn [snd store]. split; [reflexivity|].
  split.
  { unfold post_table.
    destruct (superseded data now_lookup tbl) as [prior|] eqn:Hs.
    - rewrite find_by_id_update_first by reflexivity.
      assert (Hin : In prior tbl).
      { unfold superseded in Hs.
        destruct (is_timed_key (c_type data)); [| discriminate].
        exact (current_active_In _ _ _ _ _ Hs). }
      destruct (String.eqb fresh (id prior)) eqn:E.
      + apply String.eqb_eq in E. exfalso. apply Hfresh. rewrite E.
        apply in_map. exact Hin.
      + apply find_by_id_app_fresh; [exact Hfresh | reflexivity].
    - apply find_by_id_app_fresh; [exact Hfresh | reflexivity]. }
  split; [reflexivity|].
  unfold created; unfold_record.
  destruct (c_duration data) as [d|]; cbn;
    destruct (is_timed_key (c_type data)); reflexivity.
Qed.

(** C6.  A create of a timed type with a duration is to set
    [expires_at = inserted_at + duration].  [post] tests the duration for
    truth, not for presence: a ban created with duration 0 is stored with a
    null [expires_at], that is, as permanent.  [patch], given the same
    duration, does set [expires_at], to the time of the update. *)
Lemma create_with_zero_duration_never_expires :
  valid_create (mkCreateData "ban" "spam" "u1" "mod" (Some 0) None) = true
  /\ is_timed_key "ban" = true
  /\ InfractionsView_post (mkCreateData "ban" "spam" "u1" "mod" (Some 0) None)
       5000000 5000001 5000002 "n" (mkWorld (db_of [] []) [])
     = (Returns
          (Json
             (DObj
                [("infraction",
                  DObj
                    [ ("active", DBool true);
                      ("actor", DObj [("user_id", DStr "mod")]);
                      ("expires_at", DNull);
                      ("id", DStr "n");
                      ("inserted_at", DTime 5000000);
                      ("reason", DStr "spam");
                      ("type", DStr "ban");
                      ("user", DObj [("user_id", DStr "u1")]) ])])),
        mkWorld
          (db_of [mkInfraction "n" "mod" "u1" "ban" "spam" 5000000 None None] [])
          [ OpRun 5000001 (lookup_query "u1" "ban");
            OpInsert "bot_infractions"
              (insert_doc_of
                 (mkCreateData "ban" "spam" "u1" "mod" (Some 0) None)
                 5000000 None);
            OpRun 5000002 (shaped_by_id bot_infractions_view None "n") ])
  /\ store
       (snd (InfractionsView_patch (mkUpdateData "n" None (Some 0) None)
               6000000 6000001
               (mkWorld
                  (db_of [mkInfraction "n" "mod" "u1" "ban" "spam" 5000000 None
                            None] []) [])))
     = db_of [mkInfraction "n" "mod" "u1" "ban" "spam" 5000000 (Some 6000000)
                None] [].
Proof. repeat split; vm_compute; reflexivity. Qed.

(** C9.  A null or absent [user_id] is to expand to null.  [_do_expand]
    tests [not user_id] on the term it is handed while the query is built,
    and a term object is always true, so the test never holds: the row
    is given the stub [{user_id: null}] (and with expansion the users
    table is asked for the key null). *)
Lemma expand_of_null_user_is_not_null :
  _do_expand None (Default (Bracket Var "user_id") (Expr DNull))
  = MakeObj [("user_id", Default (Bracket Var "user_id") (Expr DNull))]
  /\ eval db_without_user 20 (Some row_without_user)
       (_merge_expand_users None Var)
     = Ok (DObj [ ("actor", DObj [("user_id", DStr "mod")]);
                  ("user", DObj [("user_id", DNull)]) ])
  /\ eval db_without_user 20 (Some (DObj [("actor_id", DStr "mod")]))
       (_merge_expand_users None Var)
     = Ok (DObj [ ("actor", DObj [("user_id", DStr "mod")]);
                  ("user", DObj [("user_id", DNull)]) ])
  /\ fst (InfractionById_get None "a" 20 (mkWorld db_without_user []))
     = Returns
         (Json
            (DObj
               [("infraction",
                 DObj
                   [ ("active", DBool true);
                     ("actor", DObj [("user_id", DStr "mod")]);
                     ("expires_at", DNull);
                     ("id", DStr "a");
                     ("inserted_at", DTime 10);
                     ("reason", DStr "spam");
                     ("type", DStr "ban");
                     ("user", DObj [("user_id", DNull)]) ])])).
Proof. repeat split; vm_compute; reflexivity. Qed.

(** The part of the expansion that does hold, for every stored infraction:
    without expansion the user object is the stub; with it, the stored
    profile when the users table has one under the id, and the stub
    otherwise.  The query never fails over a missing profile. *)
Lemma expand_of_stored_user tbl users now expand r :
  eval (db_of tbl users) now (Some (doc_of r)) (_merge_expand_users expand Var)
  = Ok (DObj [ ("actor", user_ref users expand (actor_id r));
               ("user", user_ref users expand (user_id r)) ])
  /\ (forall uid,
        user_ref users expand uid
        = if truth_of_flag expand
          then match find (has_key "user_id" (DStr uid)) users with
               | Some profile => profile
               | None => DObj [("user_id", DStr uid)]
               end
          else DObj [("user_id", DStr uid)]).
Proof.
  split; [apply eval_merge_expand_users|].
  intros uid. unfold user_ref, table_get, stub. cbn [primary_key documents].
  destruct (truth_of_flag expand); [| reflexivity].
  destruct (find _ users) as [p|] eqn:E; [| reflexivity].
  apply find_some in E. destruct E as [_ E]. unfold has_key in E.
  destruct p; try reflexivity; discriminate E.
Qed.

End InfractionsTheorems.

(* ================================================================== *)
(** * Code-jam ban gate: the properties of the check *)
(* ================================================================== *)

Module JamsTheorems.
Import Jams.

Lemma jam_in_In jam l : jam_in jam l = true <-> In jam l.
Proof.
  unfold jam_in. rewrite existsb_exists. split.
  - intros [x [Hin E]]. apply Z.eqb_eq in E. subst. exact Hin.
  - intros H. exists jam. split; [exact H | apply Z.eqb_refl].
Qed.

Lemma jam_in_false jam l : jam_in jam l = false <-> ~ In jam l.
Proof.
  rewrite <- jam_in_In. destruct (jam_in jam l); split; congruence.
Qed.

Lemma get_loop_skip jam pre rest w :
  Forall (passes jam) pre ->
  get_loop jam (pre ++ rest) w = get_loop jam rest w.
Proof.
  induction 1 as [| x pre [Hn Hd] _ IH]; [reflexivity|].
  cbn [app get_loop]. apply jam_in_false in Hd.
  rewrite Hn, Hd. exact IH.
Qed.

Lemma post_loop_skip jam pre rest w :
  Forall (passes jam) pre ->
  post_loop jam (pre ++ rest) w = post_loop jam rest w.
Proof.
  induction 1 as [| x pre [Hn Hd] _ IH]; [reflexivity|].
  cbn [app post_loop]. apply jam_in_false in Hd.
  rewrite Hn, Hd. exact IH.
Qed.

Lemma get_loop_clear jam rs w :
  fst (get_loop jam rs w) = Clear <-> Forall (passes jam) rs.
Proof.
  induction rs as [| x rs IH]; cbn [get_loop].
  - split; [constructor | reflexivity].
  - destruct (number x =? -1) eqn:E1.
    { split; [discriminate|]. intros H. inversion H as [| ? ? [Hn _] _]; subst.
      rewrite Hn in E1. discriminate. }
    destruct (number x =? 0) eqn:E2; cbn [negb].
    + apply Z.eqb_eq in E2.
      destruct (jam_in jam (decremented_for x)) eqn:E3.
      * split; [discriminate|]. intros H.
        inversion H as [| ? ? [_ Hd] _]; subst.
        apply jam_in_false in Hd. congruence.
      * rewrite IH. split.
        -- intros H. constructor; [| exact H].
           split; [exact E2 | apply jam_in_false; exact E3].
        -- intros H. inversion H; assumption.
    + apply Z.eqb_neq in E2.
      split.
      * destruct (jam_in jam (decremented_for x)); discriminate.
      * intros H. inversion H as [| ? ? [Hn _] _]; subst. contradiction.
Qed.

Lemma loops_agree jam rs w :
  fst (post_loop jam rs w) = fst (get_loop jam rs w)
  /\ infractions_table (snd (post_loop jam rs w))
     = infractions_table (snd (get_loop jam rs w)).
Proof.
  induction rs as [| x rs IH]; cbn [get_loop post_loop]; [split; reflexivity|].
  destruct (number x =? -1); [split; reflexivity|].
  destruct (negb (number x =? 0)).
  - destruct (negb (jam_in jam (decremented_for x))); split; reflexivity.
  - destruct (jam_in jam (decremented_for x)); [split; reflexivity | exact IH].
Qed.


Lemma get_loop_first jam r rest w :
  get_loop jam (r :: rest) w
  = if number r =? -1 then (Blocked r, w)
    else if negb (number r =? 0) then
      if negb (jam_in jam (decremented_for r))
      then (Blocked (charge jam r), db_upsert (charge jam r) w)
      else (Blocked r, w)
    else if jam_in jam (decremented_for r) then (Blocked r, w)
    else get_loop jam rest w.
Proof. reflexivity. Qed.

Lemma post_loop_first jam r rest w :
  post_loop jam (r :: rest) w
  = if number r =? -1 then (Blocked r, log_banned (number r) (reason r) w)
    else if negb (number r =? 0) then
      if negb (jam_in jam (decremented_for r))
      then (Blocked (charge jam r),
            log_banned (number (charge jam r)) (reason (charge jam r))
              (db_upsert (charge jam r) w))
      else (Blocked r, log_banned (number r) (reason r) w)
    else if jam_in jam (decremented_for r)
    then (Blocked r, log_banned (number r) (reason r) w)
    else post_loop jam rest w.
Proof. reflexivity. Qed.

(** The countdown branch is taken on the truth value of [number]: any
    count other than 0 and -1 is charged, a negative one included. *)
Lemma countdown_charges_any_nonzero_count jam r rest w :
  number r <> 0 -> number r <> -1 -> ~ In jam (decremented_for r) ->
  get_loop jam (r :: rest) w
  = (Blocked (charge jam r), db_upsert (charge jam r) w).
Proof.
  intros H0 H1 Hd. rewrite get_loop_first.
  apply Z.eqb_neq in H0, H1. apply jam_in_false in Hd.
  rewrite H0, H1, Hd. reflexivity.
Qed.



Lemma upsert_charge jam x tbl :
  NoDup (map id tbl) -> In x tbl ->
  upsert (charge jam x) tbl = charge_where (id x) jam tbl.
Proof.
  unfold charge_where.
  induction tbl as [| y tbl IH]; intros Hnd Hin; [contradiction|].
  cbn [map] in Hnd. inversion Hnd as [| a l Hnotin Hnd']; subst.
  cbn [upsert map charge id].
  destruct Hin as [-> | Hin].
  - rewrite String.eqb_refl. f_equal.
    symmetry. rewrite <- (map_id tbl) at 2. apply map_ext_in.
    intros y Hy. destruct (String.eqb (id y) (id x)) eqn:E; [| reflexivity].
    apply String.eqb_eq in E. exfalso. apply Hnotin. rewrite <- E.
    apply in_map. exact Hy.
  - destruct (String.eqb (id y) (id x)) eqn:E.
    + apply String.eqb_eq in E. exfalso. apply Hnotin. rewrite E.
      apply in_map. exact Hin.
    + f_equal. apply IH; assumption.
Qed.

Lemma charge_where_ids key jam tbl :
  map id (charge_where key jam tbl) = map id tbl.
Proof.
  unfold charge_where. rewrite map_map. apply map_ext.
  intros y. destruct (String.eqb (id y) key); reflexivity.
Qed.

Lemma get_infractions_charge_where key jam tbl user :
  get_infractions (charge_where key jam tbl) user
  = charge_where key jam (get_infractions tbl user).
Proof.
  unfold get_infractions, charge_where. rewrite filter_map_swap.
  f_equal. apply filter_ext. intros y.
  destruct (String.eqb (id y) key); reflexivity.
Qed.

Lemma same_id_same_record (tbl : list JamInfraction) x y :
  NoDup (map id tbl) -> In x tbl -> In y tbl -> id y = id x -> y = x.
Proof.
  intros Hnd Hx Hy Hid.
  induction tbl as [| z tbl IH]; [contradiction|].
  cbn [map] in Hnd. inversion Hnd as [| a l Hnotin Hnd']; subst.
  destruct Hx as [-> | Hx], Hy as [-> | Hy]; auto.
  - exfalso. apply Hnotin. rewrite <- Hid. apply in_map. exact Hy.
  - exfalso. apply Hnotin. rewrite Hid. apply in_map. exact Hx.
Qed.

Lemma get_infractions_In tbl user y :
  In y (get_infractions tbl user) -> In y tbl.
Proof. unfold get_infractions. intros H. apply filter_In in H. tauto. Qed.

Lemma charge_where_split user jam' tbl x pre r rest :
  NoDup (map id tbl) -> In x tbl -> number x <> 0 ->
  get_infractions tbl user = pre ++ r :: rest ->
  Forall (fun y => number y = 0) pre ->
  get_infractions (charge_where (id x) jam' tbl) user
  = pre ++ (if String.eqb (id r) (id x) then charge jam' r else r)
        :: charge_where (id x) jam' rest.
Proof.
  intros Hnd Hx Hx0 Hrs Hpre.
  rewrite get_infractions_charge_where, Hrs.
  unfold charge_where at 1. rewrite map_app. cbn [map].
  f_equal. rewrite <- (map_id pre) at 2. apply map_ext_in.
  intros y Hy. destruct (String.eqb (id y) (id x)) eqn:E; [| reflexivity].
  apply String.eqb_eq in E. exfalso.
  assert (y = x).
  { apply (same_id_same_record tbl); auto.
    apply (get_infractions_In _ user). rewrite Hrs.
    apply in_or_app. left. exact Hy. }
  subst y. rewrite Forall_forall in Hpre. apply Hx0, Hpre, Hy.
Qed.

Lemma settled_charge_where user jam jam' tbl x :
  NoDup (map id tbl) -> In x tbl ->
  number x <> 0 -> number x <> -1 ->
  settled user jam tbl -> settled user jam (charge_where (id x) jam' tbl).
Proof.
  intros Hnd Hx Hx0 Hx1 [pre [r [rest [Hrs [Hpre Hr]]]]].
  exists pre,
    (if String.eqb (id r) (id x) then charge jam' r else r),
    (charge_where (id x) jam' rest).
  split; [apply charge_where_split; assumption|].
  split; [exact Hpre|].
  destruct (String.eqb (id r) (id x)) eqn:E; [| exact Hr].
  apply String.eqb_eq in E.
  assert (r = x).
  { apply (same_id_same_record tbl); auto.
    apply (get_infractions_In _ user). rewrite Hrs.
    apply in_or_app. right. left. reflexivity. }
  subst r. destruct Hr as [Hr | Hr]; [contradiction|].
  right. cbn [charge decremented_for]. apply in_or_app. left. exact Hr.
Qed.

Lemma get_loop_effect jam rs w :
  infractions_table (snd (get_loop jam rs w)) = infractions_table w
  \/ exists x,
       In x rs /\ number x <> 0 /\ number x <> -1
       /\ infractions_table (snd (get_loop jam rs w))
          = upsert (charge jam x) (infractions_table w).
Proof.
  induction rs as [| y rs IH]; [left; reflexivity|].
  rewrite get_loop_first.
  destruct (number y =? -1) eqn:E1; [left; reflexivity|].
  destruct (number y =? 0) eqn:E2; cbn [negb].
  - destruct (jam_in jam (decremented_for y)); [left; reflexivity|].
    destruct IH as [IH | [x [Hx H]]]; [left; exact IH|].
    right. exists x. split; [right; exact Hx | exact H].
  - destruct (jam_in jam (decremented_for y)); cbn [negb];
      [left; reflexivity|].
    right. exists y. apply Z.eqb_neq in E1, E2.
    repeat split; [left; reflexivity | assumption | assumption].
Qed.

Lemma settled_blocks_loop jam pre r rest w :
  Forall (fun x => number x = 0) pre ->
  number r = -1 \/ In jam (decremented_for r) ->
  exists r',
    fst (get_loop jam (pre ++ r :: rest) w) = Blocked r'
    /\ infractions_table (snd (get_loop jam (pre ++ r :: rest) w))
       = infractions_table w.
Proof.
  intros Hpre Hr.
  induction Hpre as [| y pre Hy _ IH]; cbn [app]; rewrite get_loop_first.
  - destruct Hr as [Hr | Hr].
    + rewrite Hr. exists r. split; reflexivity.
    + apply jam_in_In in Hr. rewrite Hr. cbn [negb].
      destruct (number r =? -1); [exists r; split; reflexivity|].
      destruct (negb (number r =? 0)); exists r; split; reflexivity.
  - rewrite Hy. cbn [Z.eqb negb].
    destruct (jam_in jam (decremented_for y));
      [exists y; split; reflexivity | exact IH].
Qed.

Lemma first_block_settles user jam w r :
  NoDup (map id (infractions_table w)) ->
  fst (get_check user jam w) = Blocked r ->
  settled user jam (infractions_table (snd (get_check user jam w))).
Proof.
  intros Hnd. unfold get_check.
  assert (Hgen : forall rs pre,
             get_infractions (infractions_table w) user = pre ++ rs ->
             Forall (fun x => number x = 0) pre ->
             fst (get_loop jam rs w) = Blocked r ->
             settled user jam (infractions_table (snd (get_loop jam rs w)))).
  { induction rs as [| y rs IH]; intros pre Hrs Hpre Hb; [discriminate Hb|].
    rewrite get_loop_first in *.
    destruct (number y =? -1) eqn:E1.
    { apply Z.eqb_eq in E1. exists pre, y, rs. cbn [snd]. auto. }
    destruct (number y =? 0) eqn:E2; cbn [negb] in *.
    - destruct (jam_in jam (decremented_for y)) eqn:E3.
      + apply jam_in_In in E3. exists pre, y, rs. cbn [snd]. auto.
      + apply Z.eqb_eq in E2.
        apply (IH (pre ++ [y])).
        * rewrite <- app_assoc. exact Hrs.
        * apply Forall_app. split; [exact Hpre | constructor; auto].
        * exact Hb.
    - apply Z.eqb_neq in E1, E2.
      assert (Hy : In y (infractions_table w)).
      { apply (get_infractions_In _ user). rewrite Hrs.
        apply in_or_app. right. left. reflexivity. }
      destruct (jam_in jam (decremented_for y)) eqn:E3; cbn [negb snd] in *.
      + apply jam_in_In in E3. exists pre, y, rs. auto.
      + cbn [db_upsert infractions_table].
        rewrite (upsert_charge jam y _ Hnd Hy).
        exists pre, (charge jam y), (charge_where (id y) jam rs).
        split.
        { rewrite (charge_where_split user jam _ y pre y rs Hnd Hy E2 Hrs Hpre).
          rewrite String.eqb_refl. reflexivity. }
        split; [exact Hpre|].
        right. cbn [charge decremented_for]. apply in_or_app.
        right. left. reflexivity. }
  apply (Hgen _ []); [reflexivity | constructor].
Qed.

Lemma settled_blocks user jam w :
  settled user jam (infractions_table w) ->
  exists r,
    fst (get_check user jam w) = Blocked r
    /\ infractions_table (snd (get_check user jam w)) = infractions_table w.
Proof.
  intros [pre [r [rest [Hrs [Hpre Hr]]]]]. unfold get_check. rewrite Hrs.
  apply settled_blocks_loop; assumption.
Qed.

Lemma serve_as_get rq w :
  fst (serve rq w) = fst (get_check (request_user rq) (request_jam rq) w)
  /\ infractions_table (snd (serve rq w))
     = infractions_table
         (snd (get_check (request_user rq) (request_jam rq) w)).
Proof.
  destruct rq as [u j | u j]; cbn [serve request_user request_jam];
    [split; reflexivity|].
  unfold post_check, get_check. apply loops_agree.
Qed.

Lemma serve_preserves user jam rq w :
  NoDup (map id (infractions_table w)) ->
  settled user jam (infractions_table w) ->
  NoDup (map id (infractions_table (snd (serve rq w))))
  /\ settled user jam (infractions_table (snd (serve rq w))).
Proof.
  intros Hnd Hs.
  rewrite (proj2 (serve_as_get rq w)). unfold get_check.
  destruct (get_loop_effect (request_jam rq)
              (get_infractions (infractions_table w) (request_user rq)) w)
    as [H | [x [Hx [Hx0 [Hx1 H]]]]]; rewrite H.
  - split; assumption.
  - apply get_infractions_In in Hx.
    rewrite (upsert_charge _ x _ Hnd Hx).
    split.
    + rewrite charge_where_ids. exact Hnd.
    + apply settled_charge_where; assumption.
Qed.

Lemma serve_all_preserves user jam rqs w :
  NoDup (map id (infractions_table w)) ->
  settled user jam (infractions_table w) ->
  NoDup (map id (infractions_table (serve_all rqs w)))
  /\ settled user jam (infractions_table (serve_all rqs w)).
Proof.
  revert w. induction rqs as [| rq rqs IH]; intros w Hnd Hs; [split; assumption|].
  cbn [serve_all].
  destruct (serve_preserves user jam rq w Hnd Hs) as [Hnd' Hs'].
  apply IH; assumption.
Qed.

(** C4.  The ban check charges a jam at most once.  A record with
    [number = 2] and an empty [decremented_for], checked for jam 7, comes
    out with [number = 1] and [decremented_for = [7]]; a second check for
    jam 7 is blocked by the same record and changes nothing.  In general,
    once a check for a user and a jam has been blocked (in particular once
    it has charged a record), every later check for that user and jam, by
    [get] or [post] and after any other join requests, is blocked again
    and leaves the table as it finds it. *)
Theorem ban_check_idempotent_per_jam :
  (forall (i p re : string) (ev : list ban_message),
      post_check p 7 (mkWorld [mkJamInfraction i p re 2 []] ev)
      = (Blocked (mkJamInfraction i p re 1 [7]),
         mkWorld [mkJamInfraction i p re 1 [7]] (ev ++ [ApplicationsLeft 1 re]))
      /\ post_check p 7 (mkWorld [mkJamInfraction i p re 1 [7]] ev)
         = (Blocked (mkJamInfraction i p re 1 [7]),
            mkWorld [mkJamInfraction i p re 1 [7]]
              (ev ++ [ApplicationsLeft 1 re]))
      /\ get_check p 7 (mkWorld [mkJamInfraction i p re 2 []] ev)
         = (Blocked (mkJamInfraction i p re 1 [7]),
            mkWorld [mkJamInfraction i p re 1 [7]] ev)
      /\ get_check p 7 (mkWorld [mkJamInfraction i p re 1 [7]] ev)
         = (Blocked (mkJamInfraction i p re 1 [7]),
            mkWorld [mkJamInfraction i p re 1 [7]] ev))
  /\ (forall (w0 : world) (user : string) (jam : Z) (rq0 rq1 : request)
             (rqs : list request) (r : JamInfraction),
        NoDup (map id (infractions_table w0)) ->
        request_user rq0 = user -> request_jam rq0 = jam ->
        request_user rq1 = user -> request_jam rq1 = jam ->
        fst (serve rq0 w0) = Blocked r ->
        exists r',
          fst (serve rq1 (serve_all rqs (snd (serve rq0 w0)))) = Blocked r'
          /\ infractions_table
               (snd (serve rq1 (serve_all rqs (snd (serve rq0 w0)))))
             = infractions_table (serve_all rqs (snd (serve rq0 w0)))).
Proof.
  split.
  - intros i p re ev.
    unfold post_check, get_check, get_infractions.
    cbn [infractions_table filter participant].
    rewrite String.eqb_refl.
    cbn. unfold charge, db_upsert, log_banned. cbn.
    rewrite ?String.eqb_refl. repeat split.
  - intros w0 user jam rq0 rq1 rqs r Hnd Hu0 Hj0 Hu1 Hj1 Hb.
    destruct (serve_as_get rq0 w0) as [Hf0 Ht0].
    rewrite Hu0, Hj0 in Hf0, Ht0.
    assert (Hs : settled user jam (infractions_table (snd (serve rq0 w0)))).
    { rewrite Ht0. apply (first_block_settles user jam w0 r Hnd).
      rewrite <- Hf0. exact Hb. }
    assert (Hnd0 : NoDup (map id (infractions_table (snd (serve rq0 w0))))).
    { rewrite Ht0. unfold get_check.
      destruct (get_loop_effect jam
                  (get_infractions (infractions_table w0) user) w0)
        as [H | [x [Hx [_ [_ H]]]]]; rewrite H; [exact Hnd|].
      apply get_infractions_In in Hx.
      rewrite (upsert_charge _ x _ Hnd Hx), charge_where_ids. exact Hnd. }
    destruct (serve_all_preserves user jam rqs _ Hnd0 Hs) as [_ Hs'].
    destruct (settled_blocks user jam _ Hs') as [r' [Hb' Ht']].
    destruct (serve_as_get rq1 (serve_all rqs (snd (serve rq0 w0))))
      as [Hf1 Ht1].
    rewrite Hu1, Hj1 in Hf1, Ht1.
    exists r'. rewrite Hf1, Ht1. split; assumption.
Qed.


Lemma ban_check_idempotent_witness :
  NoDup
    (map id
       (infractions_table
          (mkWorld [ mkJamInfraction "x" "u" "spam" 1 [];
                     mkJamInfraction "y" "u" "flood" 2 [] ] [])))
  /\ fst (serve (PostJoin "u" 7)
            (mkWorld [ mkJamInfraction "x" "u" "spam" 1 [];
                       mkJamInfraction "y" "u" "flood" 2 [] ] []))
     = Blocked (mkJamInfraction "x" "u" "spam" 0 [7])
  /\ exists r',
       fst (serve (GetJoin "u" 7)
              (serve_all [GetJoin "u" 8; PostJoin "v" 7]
                 (snd (serve (PostJoin "u" 7)
                         (mkWorld [ mkJamInfraction "x" "u" "spam" 1 [];
                                    mkJamInfraction "y" "u" "flood" 2 [] ]
                            [])))))
       = Blocked r'
       /\ infractions_table
            (snd (serve (GetJoin "u" 7)
                    (serve_all [GetJoin "u" 8; PostJoin "v" 7]
                       (snd (serve (PostJoin "u" 7)
                               (mkWorld
                                  [ mkJamInfraction "x" "u" "spam" 1 [];
                                    mkJamInfraction "y" "u" "flood" 2 [] ]
                                  []))))))
          = infractions_table
              (serve_all [GetJoin "u" 8; PostJoin "v" 7]
                 (snd (serve (PostJoin "u" 7)
                         (mkWorld [ mkJamInfraction "x" "u" "spam" 1 [];
                                    mkJamInfraction "y" "u" "flood" 2 [] ]
                            [])))).
Proof.
  assert (H1 : NoDup
                 (map id
                    (infractions_table
                       (mkWorld [ mkJamInfraction "x" "u" "spam" 1 [];
                                  mkJamInfraction "y" "u" "flood" 2 [] ] [])))).
  { repeat (apply NoDup_cons; [cbn; intuition discriminate|]). apply NoDup_nil. }
  split; [exact H1|]. split; [reflexivity|].
  exact (proj2 ban_check_idempotent_per_jam
           (mkWorld [ mkJamInfraction "x" "u" "spam" 1 [];
                      mkJamInfraction "y" "u" "flood" 2 [] ] [])
           "u" 7 (PostJoin "u" 7) (GetJoin "u" 7)
           [GetJoin "u" 8; PostJoin "v" 7]
           (mkJamInfraction "x" "u" "spam" 0 [7])
           H1 eq_refl eq_refl eq_refl eq_refl eq_refl).
Defined.

End JamsTheorems.

(* ================================================================== *)
(** * Infractions: the life of a record *)
(* ================================================================== *)

Module InfractionsLifecycle.
Import ReQL Py Infractions ReQLFacts InfractionsFacts InfractionsTheorems.

(** ** The rule over time *)

Lemma effective_active_antitone now now' r :
  now <= now' -> effective_active now' r = true -> effective_active now r = true.
Proof.
  intros Hle. unfold effective_active.
  destruct (negb (timed (type r))); [auto|].
  destruct (stored_false (active r)); [auto|].
  destruct (expires_at r) as [e|]; [| auto].
  rewrite !Z.gtb_lt. lia.
Qed.

(** Expiry is final: an infraction that the rule reads as inactive
    at some time reads as inactive at every later time, as long as the
    stored record is not changed. *)
Theorem inactive_stays_inactive :
  forall (db : database) (now now' : Z) (r : Infraction),
    now <= now' ->
    eval db now (Some (doc_of r)) (_merge_active_check Var)
    = Ok (DObj [("active", DBool false)]) ->
    eval db now' (Some (doc_of r)) (_merge_active_check Var)
    = Ok (DObj [("active", DBool false)]).
Proof.
  intros db now now' r Hle. rewrite !eval_merge_active_check. intros H.
  destruct (effective_active now' r) eqn:E; [| reflexivity].
  rewrite (effective_active_antitone now now' r Hle E) in H. discriminate H.
Qed.

Lemma inactive_stays_inactive_witness :
  20 <= 30
  /\ eval [] 30
       (Some (doc_of (mkInfraction "a" "mod" "u1" "ban" "spam" 10 (Some 15) None)))
       (_merge_active_check Var)
     = Ok (DObj [("active", DBool false)]).
Proof.
  assert (H : 20 <= 30) by lia.
  split; [exact H|].
  apply (inactive_stays_inactive [] 20 30 _ H). reflexivity.
Defined.

(** ** Reading a flag *)

Lemma lower_false_not_default s :
  lower s = "false" \/ lower s = "no" ->
  String.eqb s "null" = false /\ String.eqb s "any" = false.
Proof.
  intros H. split.
  - destruct (String.eqb s "null") eqn:E; [| reflexivity].
    apply String.eqb_eq in E. subst s. cbn in H. destruct H; discriminate.
  - destruct (String.eqb s "any") eqn:E; [| reflexivity].
    apply String.eqb_eq in E. subst s. cbn in H. destruct H; discriminate.
Qed.

(** [parse_bool] reads "false" and "no" in any mix of upper and lower
    case as false, whatever the default: the earlier test for "null" and
    "any", which compares the string as it is, never takes them. *)
Theorem parse_bool_false_words :
  forall (s : string) (default : option bool),
    lower s = "false" \/ lower s = "no" ->
    parse_bool (Some s) default = Some false.
Proof.
  intros s default H.
  destruct (lower_false_not_default s H) as [E1 E2].
  unfold parse_bool. rewrite E1, E2. cbn [orb].
  destruct H as [-> | ->]; reflexivity.
Qed.

Lemma parse_bool_false_words_witness :
  (lower "FaLsE" = "false" \/ lower "FaLsE" = "no")
  /\ parse_bool (Some "FaLsE") (Some true) = Some false.
Proof.
  assert (H : lower "FaLsE" = "false" \/ lower "FaLsE" = "no")
    by (left; reflexivity).
  split; [exact H|].
  exact (parse_bool_false_words "FaLsE" (Some true) H).
Defined.

(** ** Create *)

Lemma Forall2_same_or {A} (f : A -> A) (l : list A) :
  Forall2 (fun r r' => r' = r \/ r' = f r) l l.
Proof. induction l; constructor; auto. Qed.

Lemma update_first_kept key f tbl :
  Forall2 (fun r r' => r' = r \/ r' = f r) tbl (update_first key f tbl).
Proof.
  induction tbl as [| r tbl IH]; cbn [update_first]; [constructor|].
  destruct (String.eqb (id r) key).
  - constructor; [right; reflexivity | apply Forall2_same_or].
  - constructor; [left; reflexivity | exact IH].
Qed.

Lemma update_first_ids key f tbl :
  (forall r, id (f r) = id r) ->
  map id (update_first key f tbl) = map id tbl.
Proof.
  intros Hid. induction tbl as [| r tbl IH]; cbn [update_first map];
    [reflexivity|].
  destruct (String.eqb (id r) key); cbn [map]; [rewrite Hid | rewrite IH];
    reflexivity.
Qed.

Lemma update_first_app key f tbl l :
  In key (map id tbl) ->
  update_first key f (tbl ++ l) = update_first key f tbl ++ l.
Proof.
  induction tbl as [| r tbl IH]; intros Hin; [contradiction|].
  cbn [app update_first map In] in *.
  destruct (String.eqb (id r) key) eqn:E; [reflexivity|].
  destruct Hin as [Hin | Hin].
  - subst key. rewrite String.eqb_refl in E. discriminate.
  - rewrite IH by exact Hin. reflexivity.
Qed.

Lemma superseded_In data now tbl prior :
  superseded data now tbl = Some prior -> In prior tbl.
Proof.
  unfold superseded. destruct (is_timed_key (c_type data)); [| discriminate].
  apply current_active_In.
Qed.

Lemma post_table_shape data inserted_at now_lookup fresh tbl :
  exists tbl1,
    post_table data inserted_at now_lookup fresh tbl
    = tbl1 ++ [created data inserted_at fresh]
    /\ match superseded data now_lookup tbl with
       | Some prior => tbl1 = update_first (id prior) (with_active (Some false)) tbl
       | None => tbl1 = tbl
       end.
Proof.
  unfold post_table.
  destruct (superseded data now_lookup tbl) as [prior|] eqn:E.
  - exists (update_first (id prior) (with_active (Some false)) tbl).
    split; [| reflexivity].
    apply update_first_app, in_map, (superseded_In _ _ _ _ E).
  - exists tbl. split; reflexivity.
Qed.

(** A create whose expiry is a datetime keeps every stored infraction:
    the table after it is the table before it, record for record and in
    the same order, followed by the new record under the fresh key.  A
    stored record is either left as it is or differs only in that its
    [active] override is now false.  The ids stay distinct. *)
Theorem create_keeps_every_record :
  forall (tbl : list Infraction) (users : list datum) (log : list db_op)
         (data : CreateData) (inserted_at now_lookup now_read : Z)
         (fresh : string),
    valid_create data = true ->
    create_in_range data inserted_at = true ->
    ~ In fresh (map id tbl) ->
    exists (tbl1 : list Infraction) (new : Infraction),
      store (snd (InfractionsView_post data inserted_at now_lookup now_read
                    fresh (mkWorld (db_of tbl users) log)))
      = db_of (tbl1 ++ [new]) users
      /\ id new = fresh
      /\ Forall2 (fun r r' => r' = r \/ r' = with_active (Some false) r) tbl tbl1
      /\ map id tbl1 = map id tbl
      /\ (NoDup (map id tbl) -> NoDup (map id (tbl1 ++ [new]))).
Proof.
  intros tbl users log data inserted_at now_lookup now_read fresh Hvalid
    Hrange Hfresh.
  rewrite (post_run tbl users log data inserted_at now_lookup now_read fresh
             Hvalid Hrange Hfresh).
  cbn [snd store].
  destruct (post_table_shape data inserted_at now_lookup fresh tbl)
    as [tbl1 [Heq Hshape]].
  exists tbl1, (created data inserted_at fresh). rewrite Heq.
  assert (Hkept : Forall2 (fun r r' => r' = r \/ r' = with_active (Some false) r)
                    tbl tbl1
                  /\ map id tbl1 = map id tbl).
  { destruct (superseded data now_lookup tbl) as [prior|]; subst tbl1.
    - split; [apply update_first_kept | apply update_first_ids; reflexivity].
    - split; [apply Forall2_same_or | reflexivity]. }
  destruct Hkept as [Hk Hids].
  repeat split; try assumption.
  intros Hnd. rewrite map_app, Hids. cbn [map created id].
  apply NoDup_app; [exact Hnd | repeat constructor; auto |].
  intros a Ha [<- | []]. contradiction.
Qed.

Lemma create_keeps_every_record_witness :
  valid_create (mkCreateData "ban" "spam" "u1" "mod" (Some 60) None) = true
  /\ create_in_range (mkCreateData "ban" "spam" "u1" "mod" (Some 60) None)
       100
     = true
  /\ ~ In "b" (map id [mkInfraction "a" "mod" "u1" "ban" "old" 10 None None])
  /\ exists tbl1 new,
       store (snd (InfractionsView_post
                     (mkCreateData "ban" "spam" "u1" "mod" (Some 60) None)
                     100 101 102 "b"
                     (mkWorld
                        (db_of [mkInfraction "a" "mod" "u1" "ban" "old" 10 None
                                  None] []) [])))
       = db_of (tbl1 ++ [new]) []
       /\ map id tbl1 = ["a"].
Proof.
  assert (H2 : ~ In "b" (map id [mkInfraction "a" "mod" "u1" "ban" "old" 10
                                   None None])) by (cbn; intuition discriminate).
  split; [reflexivity|]. split; [reflexivity|]. split; [exact H2|].
  destruct (create_keeps_every_record
              [mkInfraction "a" "mod" "u1" "ban" "old" 10 None None] [] []
              (mkCreateData "ban" "spam" "u1" "mod" (Some 60) None)
              100 101 102 "b"
              eq_refl eq_refl H2) as [tbl1 [new [Hs [_ [_ [Hids _]]]]]].
  exists tbl1, new. split; assumption.
Defined.

Lemma is_timed_key_timed ty : is_timed_key ty = timed ty.
Proof.
  unfold is_timed_key, timed. cbn.
  destruct (String.eqb_spec ty "warning") as [-> | _]; [reflexivity|].
  destruct (String.eqb_spec ty "mute") as [-> | _]; [reflexivity|].
  destruct (String.eqb_spec ty "ban") as [-> | _]; [reflexivity|].
  destruct (String.eqb_spec ty "kick") as [-> | _]; [reflexivity|].
  destruct (String.eqb_spec ty "softban") as [-> | _]; reflexivity.
Qed.

(** A create of a type that is not timed (warning, kick, softban)
    looks for no earlier infraction and deactivates none: it inserts the
    record and reads it back, nothing else.  The duration, if one is
    given, is ignored: [expires_at] is null; and the record is returned
    with [active] false. *)
Theorem create_of_untimed_type :
  forall (tbl : list Infraction) (users : list datum) (log : list db_op)
         (data : CreateData) (inserted_at now_lookup now_read : Z)
         (fresh : string),
    valid_create data = true ->
    is_timed_key (c_type data) = false ->
    ~ In fresh (map id tbl) ->
    InfractionsView_post data inserted_at now_lookup now_read fresh
      (mkWorld (db_of tbl users) log)
    = (Returns
         (Json
            (DObj
               [("infraction",
                 DObj
                   [ ("active", DBool false);
                     ("actor", user_ref users (c_expand data) (c_actor_id data));
                     ("expires_at", DNull);
                     ("id", DStr fresh);
                     ("inserted_at", DTime inserted_at);
                     ("reason", DStr (c_reason data));
                     ("type", DStr (c_type data));
                     ("user", user_ref users (c_expand data) (c_user_id data))
                   ])])),
       mkWorld
         (db_of
            (tbl ++ [mkInfraction fresh (c_actor_id data) (c_user_id data)
                       (c_type data) (c_reason data) inserted_at None None])
            users)
         (log
          ++ [ OpInsert "bot_infractions" (insert_doc_of data inserted_at None);
               OpRun now_read
                 (shaped_by_id bot_infractions_view (c_expand data) fresh) ])).
Proof.
  intros tbl users log data inserted_at now_lookup now_read fresh
    Hvalid Htimed Hfresh.
  rewrite (post_run tbl users log data inserted_at now_lookup now_read fresh
             Hvalid (untimed_in_range _ _ Htimed) Hfresh).
  unfold post_table, post_log, superseded, created, shaped, effective_active.
  rewrite Htimed. cbn [andb id actor_id user_id type reason
                       Infractions.inserted_at expires_at active app].
  rewrite <- is_timed_key_timed, Htimed. reflexivity.
Qed.

Lemma create_of_untimed_type_witness :
  valid_create (mkCreateData "kick" "spam" "u1" "mod" (Some 60) None) = true
  /\ is_timed_key "kick" = false
  /\ ~ In "b" (map id [mkInfraction "a" "mod" "u1" "kick" "old" 10 None None])
  /\ store (snd (InfractionsView_post
                   (mkCreateData "kick" "spam" "u1" "mod" (Some 60) None)
                   100 101 102 "b"
                   (mkWorld
                      (db_of [mkInfraction "a" "mod" "u1" "kick" "old" 10 None
                                None] []) [])))
     = db_of [ mkInfraction "a" "mod" "u1" "kick" "old" 10 None None;
               mkInfraction "b" "mod" "u1" "kick" "spam" 100 None None ] [].
Proof.
  assert (H3 : ~ In "b" (map id [mkInfraction "a" "mod" "u1" "kick" "old" 10
                                   None None])) by (cbn; intuition discriminate).
  repeat (split; [first [exact H3 | reflexivity]|]).
  rewrite (create_of_untimed_type
             [mkInfraction "a" "mod" "u1" "kick" "old" 10 None None] [] []
             (mkCreateData "kick" "spam" "u1" "mod" (Some 60) None)
             100 101 102 "b" eq_refl eq_refl H3).
  reflexivity.
Defined.

(** ** Durations out of range *)

Lemma out_of_range t d :
  d / 86400 < -999999999 \/ 999999999 < d / 86400
  \/ t + microseconds d < datetime_min
  \/ datetime_max < t + microseconds d ->
  representable t d = false.
Proof.
  intros H. destruct (representable t d) eqn:E; [| reflexivity].
  apply representable_spec in E. lia.
Qed.

(** A create of a timed type with a duration that takes the expiry out of
    the range of datetimes stores nothing.  When the duration is not zero
    and is more than 999999999 days either way, or [inserted_at] plus the
    duration falls outside the years 1 to 9999, the sum raises
    [OverflowError]: the look-up has been made, but nothing is inserted
    and no record is deactivated. *)
Theorem create_out_of_range_raises :
  forall (tbl : list Infraction) (users : list datum) (log : list db_op)
         (data : CreateData) (inserted_at now_lookup now_read : Z)
         (fresh : string) (d : Z),
    is_timed_key (c_type data) = true ->
    c_duration data = Some d ->
    d <> 0 ->
    (d / 86400 < -999999999 \/ 999999999 < d / 86400
     \/ inserted_at + microseconds d < datetime_min
     \/ datetime_max < inserted_at + microseconds d) ->
    InfractionsView_post data inserted_at now_lookup now_read fresh
      (mkWorld (db_of tbl users) log)
    = (Raises OverflowError,
       mkWorld (db_of tbl users)
         (log ++ [OpRun now_lookup
                    (lookup_query (c_user_id data) (c_type data))])).
Proof.
  intros tbl users log data inserted_at now_lookup now_read fresh d
    Htimed Hd Hnz Hout.
  apply post_overflow; [exact Htimed|].
  unfold create_in_range. rewrite Htimed, Hd. cbn [andb truth_of_int].
  apply Z.eqb_neq in Hnz. rewrite Hnz. cbn [negb].
  apply out_of_range. exact Hout.
Qed.

Lemma create_out_of_range_witness :
  300000000000 <> 0
  /\ InfractionsView_post
       (mkCreateData "ban" "again" "u1" "mod2" (Some 300000000000) None)
       1527811200000000 1527811200000001 1527811200000002 "b"
       (mkWorld
          (db_of [mkInfraction "a" "mod" "u1" "ban" "spam" 10 None None] [])
          [])
     = (Raises OverflowError,
        mkWorld
          (db_of [mkInfraction "a" "mod" "u1" "ban" "spam" 10 None None] [])
          [OpRun 1527811200000001 (lookup_query "u1" "ban")]).
Proof.
  assert (H : 300000000000 <> 0) by discriminate.
  split; [exact H|].
  apply (create_out_of_range_raises
           [mkInfraction "a" "mod" "u1" "ban" "spam" 10 None None] [] []
           (mkCreateData "ban" "again" "u1" "mod2" (Some 300000000000) None)
           1527811200000000 1527811200000001 1527811200000002 "b"
           300000000000 eq_refl eq_refl H).
  right. right. right. reflexivity.
Defined.

(** An update with a duration that takes the expiry out of the range of
    datetimes does nothing at all: the sum raises [OverflowError] before
    the update is sent, so the database is not called and the table and
    the log are as they were. *)
Theorem update_out_of_range_raises :
  forall (w : world) (data : UpdateData) (current_time now_read d : Z),
    u_duration data = Some d ->
    (d / 86400 < -999999999 \/ 999999999 < d / 86400
     \/ current_time + microseconds d < datetime_min
     \/ datetime_max < current_time + microseconds d) ->
    InfractionsView_patch data current_time now_read w
    = (Raises OverflowError, w).
Proof.
  intros w data current_time now_read d Hd Hout.
  apply patch_overflow. unfold update_in_range. rewrite Hd.
  apply out_of_range. exact Hout.
Qed.

Lemma update_out_of_range_witness :
  InfractionsView_patch
    (mkUpdateData "a" None (Some (-90000000000000)) None)
    1527811200000000 1527811200000001
    (mkWorld
       (db_of [mkInfraction "a" "mod" "u1" "ban" "spam" 10 None None] []) [])
  = (Raises OverflowError,
     mkWorld
       (db_of [mkInfraction "a" "mod" "u1" "ban" "spam" 10 None None] []) []).
Proof.
  apply (update_out_of_range_raises
           (mkWorld
              (db_of [mkInfraction "a" "mod" "u1" "ban" "spam" 10 None None]
                 []) [])
           (mkUpdateData "a" None (Some (-90000000000000)) None)
           1527811200000000 1527811200000001 (-90000000000000) eq_refl).
  left. reflexivity.
Defined.

(** ** Supersession *)

Lemma selected_current_In user ty now tbl r :
  In r (selected [("user_id", DStr user); ("type", DStr ty);
                  ("active", DBool true)] now tbl)
  <-> In r tbl /\ user_id r = user /\ type r = ty
      /\ effective_active now r = true.
Proof.
  unfold selected. rewrite filter_In, selected_current.
  rewrite !andb_true_iff, !String.eqb_eq. tauto.
Qed.

Lemma unique_active_is_current user ty now tbl r :
  (forall r1 r2,
      In r1 tbl -> In r2 tbl ->
      user_id r1 = user -> type r1 = ty -> effective_active now r1 = true ->
      user_id r2 = user -> type r2 = ty -> effective_active now r2 = true ->
      r1 = r2) ->
  In r tbl -> user_id r = user -> type r = ty ->
  effective_active now r = true ->
  current_active user ty now tbl = Some r.
Proof.
  intros Huniq Hin Hu Ht Ha. unfold current_active.
  destruct (selected _ now tbl) as [| x rest] eqn:E.
  - assert (H : In r []).
    { rewrite <- E. apply selected_current_In. auto. }
    contradiction.
  - cbn [hd_error]. f_equal.
    assert (Hx : In x (x :: rest)) by (left; reflexivity).
    rewrite <- E in Hx. apply selected_current_In in Hx.
    destruct Hx as [Hx [Hxu [Hxt Hxa]]].
    apply Huniq; assumption.
Qed.

Lemma In_update_first key f tbl r' :
  In r' (update_first key f tbl) ->
  In r' tbl \/ exists r, In r tbl /\ id r = key /\ r' = f r.
Proof.
  induction tbl as [| x tbl IH]; cbn [update_first]; [contradiction|].
  destruct (String.eqb (id x) key) eqn:E.
  - apply String.eqb_eq in E. intros [<- | H].
    + right. exists x. split; [left; reflexivity | auto].
    + left. right. exact H.
  - intros [<- | H]; [left; left; reflexivity|].
    destruct (IH H) as [H' | [r [Hr H']]].
    + left. right. exact H'.
    + right. exists r. split; [right; exact Hr | exact H'].
Qed.

Lemma update_first_where key f tbl :
  NoDup (map id tbl) -> update_first key f tbl = update_where key f tbl.
Proof.
  unfold update_where.
  induction tbl as [| r tbl IH]; intros Hnd; [reflexivity|].
  cbn [map] in Hnd. inversion Hnd as [| a l Hnotin Hnd']; subst.
  cbn [update_first map].
  destruct (String.eqb (id r) key) eqn:E.
  - f_equal. rewrite <- (map_id tbl) at 1. apply map_ext_in.
    intros x Hx. destruct (String.eqb (id x) key) eqn:E2; [| reflexivity].
    apply String.eqb_eq in E, E2. exfalso. apply Hnotin. rewrite E, <- E2.
    apply in_map. exact Hx.
  - f_equal. apply IH. exact Hnd'.
Qed.

Lemma post_only_new_reads_active tbl data inserted_at now_lookup fresh t r :
  NoDup (map id tbl) ->
  is_timed_key (c_type data) = true ->
  (forall r1 r2,
      In r1 tbl -> In r2 tbl ->
      user_id r1 = c_user_id data -> type r1 = c_type data ->
      effective_active now_lookup r1 = true ->
      user_id r2 = c_user_id data -> type r2 = c_type data ->
      effective_active now_lookup r2 = true ->
      r1 = r2) ->
  now_lookup <= t ->
  In r (post_table data inserted_at now_lookup fresh tbl) ->
  user_id r = c_user_id data -> type r = c_type data ->
  effective_active t r = true ->
  r = created data inserted_at fresh.
Proof.
  intros Hnd Htimed Huniq Hle Hin Hu Ht Ha.
  pose proof (effective_active_antitone now_lookup t r Hle Ha) as Ha0.
  unfold post_table, superseded in Hin. rewrite Htimed in Hin.
  destruct (current_active (c_user_id data) (c_type data) now_lookup tbl)
    as [prior|] eqn:Hprior.
  - pose proof (current_active_spec _ _ _ _ _ Hprior) as [Hp [Hpu [Hpt Hpa]]].
    rewrite update_first_app in Hin by (apply in_map; exact Hp).
    apply in_app_or in Hin. destruct Hin as [Hin | [<- | []]]; [| reflexivity].
    rewrite update_first_where in Hin by exact Hnd.
    unfold update_where in Hin. apply in_map_iff in Hin.
    destruct Hin as [x [Hx Hxin]].
    destruct (String.eqb (id x) (id prior)) eqn:E.
    + subst r. rewrite deactivated_reads_inactive in Ha. discriminate.
    + subst r. exfalso.
      assert (x = prior) by (apply Huniq; assumption).
      subst x. rewrite String.eqb_refl in E. discriminate.
  - apply in_app_or in Hin. destruct Hin as [Hin | [<- | []]]; [| reflexivity].
    exfalso. unfold current_active in Hprior.
    destruct (selected _ now_lookup tbl) as [| y rest] eqn:E; [| discriminate].
    assert (H : In r []).
    { rewrite <- E. apply selected_current_In. auto. }
    contradiction.
Qed.

(** Supersession.  If, when a create of a timed type whose expiry is a
    datetime looks up the table, at most one infraction of that user and
    type reads active, then from that moment on the only infraction of that
    user and type that can read active is the one just created: every
    other record reads inactive at the time of the look-up and at every
    later time. *)
Theorem create_leaves_one_active :
  forall (tbl : list Infraction) (users : list datum) (log : list db_op)
         (data : CreateData) (inserted_at now_lookup now_read : Z)
         (fresh : string),
    NoDup (map id tbl) ->
    ~ In fresh (map id tbl) ->
    is_timed_key (c_type data) = true ->
    create_in_range data inserted_at = true ->
    (forall r1 r2,
        In r1 tbl -> In r2 tbl ->
        user_id r1 = c_user_id data -> type r1 = c_type data ->
        effective_active now_lookup r1 = true ->
        user_id r2 = c_user_id data -> type r2 = c_type data ->
        effective_active now_lookup r2 = true ->
        r1 = r2) ->
    exists tbl' : list Infraction,
      store (snd (InfractionsView_post data inserted_at now_lookup now_read
                    fresh (mkWorld (db_of tbl users) log)))
      = db_of tbl' users
      /\ forall (t : Z) (r : Infraction),
           now_lookup <= t ->
           In r tbl' ->
           user_id r = c_user_id data -> type r = c_type data ->
           effective_active t r = true ->
           id r = fresh.
Proof.
  intros tbl users log data inserted_at now_lookup now_read fresh
    Hnd Hfresh Htimed Hrange Huniq.
  rewrite (post_run tbl users log data inserted_at now_lookup now_read fresh
             (timed_key_valid _ Htimed) Hrange Hfresh).
  exists (post_table data inserted_at now_lookup fresh tbl).
  split; [reflexivity|].
  intros t r Hle Hin Hu Ht Ha.
  rewrite (post_only_new_reads_active tbl data inserted_at now_lookup fresh t r
             Hnd Htimed Huniq Hle Hin Hu Ht Ha).
  reflexivity.
Qed.

Lemma create_leaves_one_active_witness :
  NoDup (map id [ mkInfraction "a" "mod" "u1" "ban" "spam" 10 None None;
                  mkInfraction "k" "mod" "u1" "kick" "spam" 11 None None ])
  /\ ~ In "b" (map id [ mkInfraction "a" "mod" "u1" "ban" "spam" 10 None None;
                        mkInfraction "k" "mod" "u1" "kick" "spam" 11 None None ])
  /\ is_timed_key "ban" = true
  /\ create_in_range (mkCreateData "ban" "again" "u1" "mod2" (Some 60) None)
       100
     = true
  /\ exists tbl',
       store (snd (InfractionsView_post
                     (mkCreateData "ban" "again" "u1" "mod2" (Some 60) None)
                     100 101 102 "b"
                     (mkWorld
                        (db_of [ mkInfraction "a" "mod" "u1" "ban" "spam" 10
                                   None None;
                                 mkInfraction "k" "mod" "u1" "kick" "spam" 11
                                   None None ] []) [])))
       = db_of tbl' []
       /\ forall t r,
            101 <= t -> In r tbl' -> user_id r = "u1" -> type r = "ban" ->
            effective_active t r = true -> id r = "b".
Proof.
  assert (H1 : NoDup (map id [ mkInfraction "a" "mod" "u1" "ban" "spam" 10 None
                                 None;
                               mkInfraction "k" "mod" "u1" "kick" "spam" 11 None
                                 None ])) by solve_nodup.
  assert (H2 : ~ In "b" (map id [ mkInfraction "a" "mod" "u1" "ban" "spam" 10
                                    None None;
                                  mkInfraction "k" "mod" "u1" "kick" "spam" 11
                                    None None ]))
    by (cbn; intuition discriminate).
  split; [exact H1|]. split; [exact H2|]. split; [reflexivity|].
  split; [reflexivity|].
  apply (create_leaves_one_active _ [] []
           (mkCreateData "ban" "again" "u1" "mod2" (Some 60) None)
           100 101 102 "b" H1 H2 eq_refl eq_refl).
  intros r1 r2 [<- | [<- | []]] [<- | [<- | []]]; cbn; intros; congruence.
Defined.

(** ** Round trip: create, then read *)

Lemma find_created data inserted_at now_lookup fresh tbl :
  ~ In fresh (map id tbl) ->
  find_by_id fresh (post_table data inserted_at now_lookup fresh tbl)
  = Some (created data inserted_at fresh).
Proof.
  intros Hfresh. unfold post_table.
  destruct (superseded data now_lookup tbl) as [prior|] eqn:Hs.
  - rewrite find_by_id_update_first by reflexivity.
    destruct (String.eqb fresh (id prior)) eqn:E.
    + apply String.eqb_eq in E. exfalso. apply Hfresh. rewrite E.
      apply in_map, (superseded_In _ _ _ _ Hs).
    + apply find_by_id_app_fresh; [exact Hfresh | reflexivity].
  - apply find_by_id_app_fresh; [exact Hfresh | reflexivity].
Qed.

Lemma shaped_flag users e1 e2 now r :
  truth_of_flag e1 = truth_of_flag e2 ->
  shaped users e1 now r = shaped users e2 now r.
Proof. intros H. unfold shaped, user_ref. rewrite H. reflexivity. Qed.

(** Create, then read by id: after a create whose expiry is a datetime,
    fetching the new infraction under the key the create returned gives
    back the very answer of the create, when it is read at the same time
    and with the same choice of expansion. *)
Theorem read_back_of_create :
  forall (tbl : list Infraction) (users : list datum) (log : list db_op)
         (data : CreateData) (inserted_at now_lookup now_read : Z)
         (fresh : string) (params : option params_t),
    valid_create data = true ->
    create_in_range data inserted_at = true ->
    ~ In fresh (map id tbl) ->
    truth_of_flag (parse_bool (dict_get "expand" (params_or_empty params))
                     (Some false))
    = truth_of_flag (c_expand data) ->
    fst (InfractionById_get params fresh now_read
           (snd (InfractionsView_post data inserted_at now_lookup now_read
                   fresh (mkWorld (db_of tbl users) log))))
    = fst (InfractionsView_post data inserted_at now_lookup now_read fresh
             (mkWorld (db_of tbl users) log)).
Proof.
  intros tbl users log data inserted_at now_lookup now_read fresh params
    Hvalid Hrange Hfresh Hflag.
  rewrite (post_run tbl users log data inserted_at now_lookup now_read fresh
             Hvalid Hrange Hfresh).
  cbn [fst snd]. rewrite InfractionById_get_run. cbn [fst].
  rewrite (find_created _ _ _ _ _ Hfresh).
  rewrite (shaped_flag users _ _ now_read _ Hflag). reflexivity.
Qed.

Lemma read_back_of_create_witness :
  valid_create (mkCreateData "mute" "spam" "u1" "mod" (Some 60) (Some true))
  = true
  /\ create_in_range
       (mkCreateData "mute" "spam" "u1" "mod" (Some 60) (Some true)) 100
     = true
  /\ ~ In "b" (map id [mkInfraction "a" "mod" "u1" "ban" "old" 10 None None])
  /\ fst (InfractionById_get (Some [("expand", "yes")]) "b" 102
            (snd (InfractionsView_post
                    (mkCreateData "mute" "spam" "u1" "mod" (Some 60) (Some true))
                    100 101 102 "b"
                    (mkWorld
                       (db_of [mkInfraction "a" "mod" "u1" "ban" "old" 10 None
                                 None]
                          [DObj [("user_id", DStr "u1");
                                 ("username", DStr "bob")]]) []))))
     = fst (InfractionsView_post
              (mkCreateData "mute" "spam" "u1" "mod" (Some 60) (Some true))
              100 101 102 "b"
              (mkWorld
                 (db_of [mkInfraction "a" "mod" "u1" "ban" "old" 10 None None]
                    [DObj [("user_id", DStr "u1"); ("username", DStr "bob")]])
                 [])).
Proof.
  assert (H2 : ~ In "b" (map id [mkInfraction "a" "mod" "u1" "ban" "old" 10
                                   None None])) by (cbn; intuition discriminate).
  split; [reflexivity|]. split; [reflexivity|]. split; [exact H2|].
  apply (read_back_of_create
           [mkInfraction "a" "mod" "u1" "ban" "old" 10 None None]
           [DObj [("user_id", DStr "u1"); ("username", DStr "bob")]] []
           (mkCreateData "mute" "spam" "u1" "mod" (Some 60) (Some true))
           100 101 102 "b" (Some [("expand", "yes")]) eq_refl eq_refl H2
           eq_refl).
Defined.

(** ** The current-infraction view *)

Lemma selected_user_type user ty now r :
  obj_matches [("user_id", DStr user); ("type", DStr ty)]
    (doc_of (derive now r))
  = (String.eqb (user_id r) user && String.eqb (type r) ty)%bool.
Proof.
  destruct r as [i a u t re ins ex ac]. unfold derive, with_active.
  cbn. unfold_record.
  destruct (String.eqb u user), (String.eqb t ty); reflexivity.
Qed.

Lemma current_candidates_In user ty now tbl r :
  In r (filter (effective_active now)
          (selected [("user_id", DStr user); ("type", DStr ty)] now tbl))
  <-> In r tbl /\ user_id r = user /\ type r = ty
      /\ effective_active now r = true.
Proof.
  unfold selected. rewrite !filter_In, selected_user_type.
  rewrite !andb_true_iff, !String.eqb_eq. tauto.
Qed.

(** The current-infraction view never returns an infraction of a
    type that is not timed: for such a type the answer is null, whatever
    the table holds. *)
Theorem current_of_untimed_type_is_null :
  forall (tbl : list Infraction) (users : list datum) (log : list db_op)
         (params : option params_t) (user ty : string) (now : Z),
    timed ty = false ->
    fst (CurrentInfractionByTypeAndUserView_get params user ty now
           (mkWorld (db_of tbl users) log))
    = Returns (Json (DObj [("infraction", DNull)])).
Proof.
  intros tbl users log params user ty now Hty.
  rewrite CurrentInfractionByTypeAndUserView_get_run.
  destruct (filter (effective_active now) _) as [| r rest] eqn:E;
    [reflexivity|].
  exfalso.
  assert (Hin : In r (r :: rest)) by (left; reflexivity).
  rewrite <- E in Hin. apply current_candidates_In in Hin.
  destruct Hin as [_ [_ [Ht Ha]]].
  unfold effective_active in Ha. rewrite Ht, Hty in Ha. discriminate.
Qed.

Lemma current_of_untimed_type_witness :
  timed "kick" = false
  /\ fst (CurrentInfractionByTypeAndUserView_get None "u1" "kick" 20
            (mkWorld
               (db_of [mkInfraction "a" "mod" "u1" "kick" "spam" 10 None
                         (Some true)] []) []))
     = Returns (Json (DObj [("infraction", DNull)])).
Proof.
  split; [reflexivity|].
  apply (current_of_untimed_type_is_null
           [mkInfraction "a" "mod" "u1" "kick" "spam" 10 None (Some true)]
           [] [] None "u1" "kick" 20 eq_refl).
Defined.

(** Create, then ask for the current infraction.  Under the premise
    of supersession (at most one active infraction of the user and type at
    the look-up), and after a create whose expiry is a datetime, the
    current-infraction view, asked at any later time at which the new
    record has not expired, returns the new record. *)
Theorem current_after_create :
  forall (tbl : list Infraction) (users : list datum) (log : list db_op)
         (data : CreateData) (inserted_at now_lookup now_read now : Z)
         (fresh : string) (params : option params_t),
    NoDup (map id tbl) ->
    ~ In fresh (map id tbl) ->
    is_timed_key (c_type data) = true ->
    create_in_range data inserted_at = true ->
    (forall r1 r2,
        In r1 tbl -> In r2 tbl ->
        user_id r1 = c_user_id data -> type r1 = c_type data ->
        effective_active now_lookup r1 = true ->
        user_id r2 = c_user_id data -> type r2 = c_type data ->
        effective_active now_lookup r2 = true ->
        r1 = r2) ->
    now_lookup <= now ->
    match c_duration data with
    | Some d => d = 0 \/ now < inserted_at + microseconds d
    | None => True
    end ->
    exists new : Infraction,
      fst (CurrentInfractionByTypeAndUserView_get params (c_user_id data)
             (c_type data) now
             (snd (InfractionsView_post data inserted_at now_lookup now_read
                     fresh (mkWorld (db_of tbl users) log))))
      = Returns
          (Json
             (DObj
                [("infraction",
                  shaped users
                    (parse_bool (dict_get "expand" (params_or_empty params))
                       (Some false)) now new)]))
      /\ id new = fresh
      /\ reason new = c_reason data
      /\ Infractions.inserted_at new = inserted_at
      /\ effective_active now new = true.
Proof.
  intros tbl users log data inserted_at now_lookup now_read now fresh params
    Hnd Hfresh Htimed Hrange Huniq Hle Hlive.
  rewrite (post_run tbl users log data inserted_at now_lookup now_read fresh
             (timed_key_valid _ Htimed) Hrange Hfresh).
  cbn [snd]. rewrite CurrentInfractionByTypeAndUserView_get_run.
  exists (created data inserted_at fresh).
  assert (Hactive : effective_active now (created data inserted_at fresh)
                    = true).
  { unfold created, effective_active; unfold_record.
    rewrite <- is_timed_key_timed, Htimed. cbn [negb stored_false andb].
    destruct (c_duration data) as [d|]; [| reflexivity].
    cbn [truth_of_int option_map].
    destruct (d =? 0) eqn:E; cbn [negb]; [reflexivity|].
    apply Z.eqb_neq in E. apply Z.gtb_lt. lia. }
  assert (Hnew : In (created data inserted_at fresh)
                   (filter (effective_active now)
                      (selected [("user_id", DStr (c_user_id data));
                                 ("type", DStr (c_type data))] now
                         (post_table data inserted_at now_lookup fresh tbl)))).
  { apply current_candidates_In. repeat split; try reflexivity; [| exact Hactive].
    destruct (post_table_shape data inserted_at now_lookup fresh tbl)
      as [tbl1 [Heq _]].
    rewrite Heq. apply in_or_app. right. left. reflexivity. }
  destruct (filter (effective_active now) _) as [| x rest] eqn:E;
    [contradiction|].
  assert (Hx : In x (x :: rest)) by (left; reflexivity).
  rewrite <- E in Hx. apply current_candidates_In in Hx.
  destruct Hx as [Hx [Hxu [Hxt Hxa]]].
  rewrite (post_only_new_reads_active tbl data inserted_at now_lookup fresh now
             x Hnd Htimed Huniq Hle Hx Hxu Hxt Hxa).
  cbn [hd_error]. repeat split; try reflexivity. exact Hactive.
Qed.

Lemma current_after_create_witness :
  NoDup (map id [mkInfraction "a" "mod" "u1" "ban" "spam" 10 None None])
  /\ ~ In "b" (map id [mkInfraction "a" "mod" "u1" "ban" "spam" 10 None None])
  /\ is_timed_key "ban" = true
  /\ create_in_range (mkCreateData "ban" "again" "u1" "mod2" (Some 60) None)
       100
     = true
  /\ 101 <= 500
  /\ (60 = 0 \/ 500 < 100 + microseconds 60)
  /\ exists new,
       fst (CurrentInfractionByTypeAndUserView_get None "u1" "ban" 500
              (snd (InfractionsView_post
                      (mkCreateData "ban" "again" "u1" "mod2" (Some 60) None)
                      100 101 102 "b"
                      (mkWorld
                         (db_of [mkInfraction "a" "mod" "u1" "ban" "spam" 10
                                   None None] []) []))))
       = Returns (Json (DObj [("infraction", shaped [] (Some false) 500 new)]))
       /\ id new = "b".
Proof.
  assert (H1 : NoDup (map id [mkInfraction "a" "mod" "u1" "ban" "spam" 10 None
                                None])) by solve_nodup.
  assert (H2 : ~ In "b" (map id [mkInfraction "a" "mod" "u1" "ban" "spam" 10
                                   None None])) by (cbn; intuition discriminate).
  assert (H4 : 101 <= 500) by lia.
  assert (H5 : 60 = 0 \/ 500 < 100 + microseconds 60) by (right; reflexivity).
  split; [exact H1|]. split; [exact H2|]. split; [reflexivity|].
  split; [reflexivity|].
  split; [exact H4|]. split; [exact H5|].
  destruct (current_after_create
              [mkInfraction "a" "mod" "u1" "ban" "spam" 10 None None] [] []
              (mkCreateData "ban" "again" "u1" "mod2" (Some 60) None)
              100 101 102 500 "b" None H1 H2 eq_refl eq_refl)
    as [new [Hrun [Hid _]]]; try assumption.
  - intros r1 r2 [<- | []] [<- | []]; reflexivity.
  - exists new. split; assumption.
Defined.

(** ** Update *)

Lemma find_by_id_none key tbl :
  find_by_id key tbl = None -> forall r, In r tbl -> String.eqb (id r) key = false.
Proof.
  unfold find_by_id. intros H r Hin.
  exact (find_none _ _ H r Hin).
Qed.

Lemma update_where_ids key f tbl :
  (forall r, id (f r) = id r) ->
  map id (update_where key f tbl) = map id tbl.
Proof.
  intros Hid. unfold update_where. rewrite map_map. apply map_ext.
  intros r. destruct (String.eqb (id r) key); [apply Hid | reflexivity].
Qed.

Lemma update_where_same key f tbl :
  (forall r, In r tbl -> String.eqb (id r) key = true -> f r = r) ->
  update_where key f tbl = tbl.
Proof.
  intros H. unfold update_where. rewrite <- (map_id tbl) at 2.
  apply map_ext_in. intros r Hr.
  destruct (String.eqb (id r) key) eqn:E; [apply H; assumption | reflexivity].
Qed.

(** An update that names an id no record has, and whose expiry is a
    datetime, changes nothing: the table is left exactly as it was, the
    only database call is the update itself (there is no read-back), and
    the answer is [success = false]. *)
Theorem update_of_unknown_id_changes_nothing :
  forall (tbl : list Infraction) (users : list datum) (log : list db_op)
         (data : UpdateData) (current_time now_read : Z),
    update_in_range data current_time = true ->
    find_by_id (u_id data) tbl = None ->
    InfractionsView_patch data current_time now_read
      (mkWorld (db_of tbl users) log)
    = (Returns (Json (DObj [("success", DBool false)])),
       mkWorld (db_of tbl users)
         (log ++ [OpWrite
                    (TableUpdate "bot_infractions"
                       (dict (update_collection_of data current_time)))])).
Proof.
  intros tbl users log data current_time now_read Hrange Hnone.
  pose proof (find_by_id_none _ _ Hnone) as Hne.
  rewrite (patch_in_range _ _ _ _ Hrange).
  destruct (db_run_write_patch tbl users log data current_time)
    as [res [Hrun Hres]].
  unfold bindM at 1. rewrite Hrun, Hres.
  assert (Hnochange : filter (changed data current_time) tbl = []).
  { clear - Hne. induction tbl as [| r tbl IH]; [reflexivity|].
    cbn [filter]. unfold changed at 1.
    rewrite (Hne r (or_introl eq_refl)). cbn [andb].
    apply IH. intros x Hx. apply Hne. right. exact Hx. }
  rewrite Hnochange. cbn [List.length Nat.eqb].
  rewrite update_where_same; [reflexivity|].
  intros r Hr E. rewrite (Hne r Hr) in E. discriminate.
Qed.

Lemma update_of_unknown_id_witness :
  update_in_range (mkUpdateData "zz" (Some "x") (Some 5) (Some false)) 20
  = true
  /\ find_by_id "zz" [mkInfraction "a" "mod" "u1" "ban" "spam" 10 None None]
     = None
  /\ store (snd (InfractionsView_patch
                   (mkUpdateData "zz" (Some "x") (Some 5) (Some false)) 20 21
                   (mkWorld
                      (db_of [mkInfraction "a" "mod" "u1" "ban" "spam" 10 None
                                None] []) [])))
     = db_of [mkInfraction "a" "mod" "u1" "ban" "spam" 10 None None] [].
Proof.
  split; [reflexivity|]. split; [reflexivity|].
  rewrite (update_of_unknown_id_changes_nothing
             [mkInfraction "a" "mod" "u1" "ban" "spam" 10 None None] [] []
             (mkUpdateData "zz" (Some "x") (Some 5) (Some false)) 20 21
             eq_refl eq_refl).
  reflexivity.
Defined.

Lemma no_duration_in_range data current_time :
  u_duration data = None -> update_in_range data current_time = true.
Proof. unfold update_in_range. intros H. rewrite H. reflexivity. Qed.

Lemma patched_record tbl users log data current_time now_read r :
  NoDup (map id tbl) -> In r tbl -> id r = u_id data ->
  update_in_range data current_time = true ->
  exists tbl',
    store (snd (InfractionsView_patch data current_time now_read
                  (mkWorld (db_of tbl users) log)))
    = db_of tbl' users
    /\ find_by_id (u_id data) tbl' = Some (apply_update data current_time r)
    /\ NoDup (map id tbl').
Proof.
  intros Hnd Hin Hid Hrange.
  destruct (patch_run tbl users log data current_time now_read Hnd Hrange)
    as [log' Hrun].
  exists (update_where (u_id data) (apply_update data current_time) tbl).
  rewrite Hrun. cbn [snd store]. split; [reflexivity|]. split.
  - rewrite find_by_id_update_where by reflexivity.
    rewrite <- Hid, (find_by_id_In_nodup _ _ Hnd Hin). reflexivity.
  - rewrite update_where_ids by reflexivity. exact Hnd.
Qed.

(** What the [active] field of an update does.  After an update that
    sets [active] to [b] and gives no duration, the record reads active at
    a time [t] exactly when [b] is true, its type is timed and it has not
    expired at [t].  So [active = false] deactivates for good, and
    [active = true] does nothing for a type that is not timed or for an
    infraction that has expired. *)
Theorem update_of_active_override :
  forall (tbl : list Infraction) (users : list datum) (log : list db_op)
         (data : UpdateData) (current_time now_read : Z) (r : Infraction)
         (b : bool),
    NoDup (map id tbl) ->
    In r tbl ->
    id r = u_id data ->
    u_active data = Some b ->
    u_duration data = None ->
    exists (tbl' : list Infraction) (r' : Infraction),
      store (snd (InfractionsView_patch data current_time now_read
                    (mkWorld (db_of tbl users) log)))
      = db_of tbl' users
      /\ find_by_id (u_id data) tbl' = Some r'
      /\ forall t,
           eval (db_of tbl' users) t (Some (doc_of r')) (_merge_active_check Var)
           = Ok (DObj
                   [("active",
                     DBool
                       (b && (String.eqb (type r) "mute"
                              || String.eqb (type r) "ban")
                        && match expires_at r with
                           | None => true
                           | Some e => e >? t
                           end))]).
Proof.
  intros tbl users log data current_time now_read r b Hnd Hin Hid Hb Hd.
  destruct (patched_record tbl users log data current_time now_read r
              Hnd Hin Hid (no_duration_in_range _ _ Hd)) as [tbl' [Hs [Hf _]]].
  exists tbl', (apply_update data current_time r).
  split; [exact Hs|]. split; [exact Hf|].
  intros t. rewrite eval_merge_active_check.
  unfold effective_active, apply_update, timed; unfold_record.
  rewrite Hb, Hd.
  destruct b, (String.eqb (type r) "mute" || String.eqb (type r) "ban");
    reflexivity.
Qed.

Lemma update_of_active_override_witness :
  NoDup (map id [mkInfraction "a" "mod" "u1" "ban" "spam" 10 (Some 50) None])
  /\ In (mkInfraction "a" "mod" "u1" "ban" "spam" 10 (Some 50) None)
       [mkInfraction "a" "mod" "u1" "ban" "spam" 10 (Some 50) None]
  /\ exists tbl' r',
       store (snd (InfractionsView_patch
                     (mkUpdateData "a" None None (Some false)) 20 21
                     (mkWorld
                        (db_of [mkInfraction "a" "mod" "u1" "ban" "spam" 10
                                  (Some 50) None] []) [])))
       = db_of tbl' []
       /\ find_by_id "a" tbl' = Some r'
       /\ eval (db_of tbl' []) 30 (Some (doc_of r')) (_merge_active_check Var)
          = Ok (DObj [("active", DBool false)]).
Proof.
  assert (H1 : NoDup (map id [mkInfraction "a" "mod" "u1" "ban" "spam" 10
                                (Some 50) None])) by solve_nodup.
  assert (H2 : In (mkInfraction "a" "mod" "u1" "ban" "spam" 10 (Some 50) None)
                 [mkInfraction "a" "mod" "u1" "ban" "spam" 10 (Some 50) None])
    by (left; reflexivity).
  split; [exact H1|]. split; [exact H2|].
  destruct (update_of_active_override
              [mkInfraction "a" "mod" "u1" "ban" "spam" 10 (Some 50) None]
              [] [] (mkUpdateData "a" None None (Some false)) 20 21
              (mkInfraction "a" "mod" "u1" "ban" "spam" 10 (Some 50) None)
              false H1 H2 eq_refl eq_refl eq_refl)
    as [tbl' [r' [Hs [Hf Ht]]]].
  exists tbl', r'. split; [exact Hs|]. split; [exact Hf|]. exact (Ht 30).
Defined.

Lemma apply_update_again data current_time current_time' r :
  u_duration data = None \/ current_time' = current_time ->
  apply_update data current_time' (apply_update data current_time r)
  = apply_update data current_time r.
Proof.
  intros H. unfold apply_update; unfold_record.
  destruct (u_reason data), (u_active data), (u_duration data) as [d|];
    try reflexivity;
    destruct H as [H | H]; try discriminate; subst; reflexivity.
Qed.

(** An update sent a second time finds nothing to change.  When the
    expiry the request asks for is a datetime, and the request gives no
    duration or the clock has not moved, the second request leaves the
    table as the first one left it and is answered [success = false],
    although the record exists and holds every value the request asks
    for. *)
Theorem repeated_update_reports_failure :
  forall (tbl : list Infraction) (users : list datum) (log : list db_op)
         (data : UpdateData) (current_time now_read current_time' now_read' : Z)
         (r : Infraction),
    NoDup (map id tbl) ->
    In r tbl ->
    id r = u_id data ->
    update_in_range data current_time = true ->
    u_duration data = None \/ current_time' = current_time ->
    exists (tbl1 : list Infraction) (log1 log2 : list db_op),
      snd (InfractionsView_patch data current_time now_read
             (mkWorld (db_of tbl users) log))
      = mkWorld (db_of tbl1 users) log1
      /\ find_by_id (u_id data) tbl1 = Some (apply_update data current_time r)
      /\ InfractionsView_patch data current_time' now_read'
           (mkWorld (db_of tbl1 users) log1)
         = (Returns (Json (DObj [("success", DBool false)])),
            mkWorld (db_of tbl1 users) log2).
Proof.
  intros tbl users log data current_time now_read current_time' now_read' r
         Hnd Hin Hid Hrange Hsame.
  assert (Hrange' : update_in_range data current_time' = true).
  { destruct Hsame as [Hnone | ->]; [| exact Hrange].
    apply no_duration_in_range. exact Hnone. }
  destruct (patch_run tbl users log data current_time now_read Hnd Hrange)
    as [log1 Hrun1].
  set (tbl1 := update_where (u_id data) (apply_update data current_time) tbl)
    in *.
  assert (Hnd1 : NoDup (map id tbl1)).
  { unfold tbl1. rewrite update_where_ids by reflexivity. exact Hnd. }
  assert (Hf1 : find_by_id (u_id data) tbl1
                = Some (apply_update data current_time r)).
  { unfold tbl1. rewrite find_by_id_update_where by reflexivity.
    rewrite <- Hid, (find_by_id_In_nodup _ _ Hnd Hin). reflexivity. }
  destruct (patch_run tbl1 users log1 data current_time' now_read' Hnd1
              Hrange')
    as [log2 Hrun2].
  exists tbl1, log1, log2.
  rewrite Hrun1. cbn [snd]. split; [reflexivity|]. split; [exact Hf1|].
  rewrite Hrun2. unfold patch_response. rewrite Hf1.
  rewrite (apply_update_again _ _ _ _ Hsame), datum_eqb_refl.
  f_equal. f_equal. f_equal.
  apply update_where_same. intros x Hx E.
  unfold tbl1, update_where in Hx. apply in_map_iff in Hx.
  destruct Hx as [y [Hy Hyin]].
  destruct (String.eqb (id y) (u_id data)) eqn:Ey.
  - subst x. apply apply_update_again. exact Hsame.
  - subst x. rewrite Ey in E. discriminate.
Qed.

Lemma repeated_update_witness :
  update_in_range (mkUpdateData "a" (Some "again") (Some 60) None) 5000000
  = true
  /\ exists tbl1 log1 log2,
       snd (InfractionsView_patch
              (mkUpdateData "a" (Some "again") (Some 60) None)
              5000000 5000001
              (mkWorld
                 (db_of [mkInfraction "a" "mod" "u1" "ban" "spam" 10 None None]
                    []) []))
       = mkWorld (db_of tbl1 []) log1
       /\ find_by_id "a" tbl1
          = Some (mkInfraction "a" "mod" "u1" "ban" "again" 10 (Some 65000000)
                    None)
       /\ InfractionsView_patch
            (mkUpdateData "a" (Some "again") (Some 60) None)
            5000000 5000002 (mkWorld (db_of tbl1 []) log1)
          = (Returns (Json (DObj [("success", DBool false)])),
             mkWorld (db_of tbl1 []) log2).
Proof.
  split; [reflexivity|].
  apply (repeated_update_reports_failure
           [mkInfraction "a" "mod" "u1" "ban" "spam" 10 None None] [] []
           (mkUpdateData "a" (Some "again") (Some 60) None)
           5000000 5000001 5000000 5000002
           (mkInfraction "a" "mod" "u1" "ban" "spam" 10 None None)).
  - solve_nodup.
  - left. reflexivity.
  - reflexivity.
  - reflexivity.
  - right. reflexivity.
Defined.

(** ** List views *)

Lemma obj_matches_derive query_filter now r :
  dict_get "active" query_filter = None ->
  obj_matches query_filter (doc_of (derive now r))
  = obj_matches query_filter (doc_of r).
Proof.
  unfold obj_matches.
  induction query_filter as [| [k v] q IH]; intros Hget; [reflexivity|].
  cbn [dict_get] in Hget.
  destruct (String.eqb "active" k) eqn:E; [discriminate|].
  cbn [forallb fst snd]. rewrite IH by exact Hget.
  rewrite get_field_derive by (rewrite String.eqb_sym; exact E).
  reflexivity.
Qed.

Lemma shaped_active_is b users expand now r :
  obj_matches [("active", DBool b)] (shaped users expand now r)
  = Bool.eqb (effective_active now r) b.
Proof.
  cbn. destruct (effective_active now r), b; reflexivity.
Qed.

(** The [active] parameter of a list view only selects from the
    list the view gives without it.  For a filter that does not itself
    name [active], and requests that agree on [expand], the answer to
    [active = b] is the sublist of the unfiltered answer whose [active]
    field is [b], in the same order; so every infraction of the unfiltered
    answer appears in exactly one of the two filtered answers. *)
Theorem list_active_parameter_selects :
  forall (tbl : list Infraction) (users : list datum) (log : list db_op)
         (now : Z) (params params_b : option params_t)
         (query_filter : list (string * datum)) (b : bool),
    dict_get "active" query_filter = None ->
    parse_bool (dict_get "active" (params_or_empty params)) None = None ->
    parse_bool (dict_get "active" (params_or_empty params_b)) None = Some b ->
    parse_bool (dict_get "expand" (params_or_empty params_b)) (Some false)
    = parse_bool (dict_get "expand" (params_or_empty params)) (Some false) ->
    exists docs,
      fst (_infraction_list_filtered bot_infractions_view params query_filter
             now (mkWorld (db_of tbl users) log))
      = Returns (Json (DArr docs))
      /\ fst (_infraction_list_filtered bot_infractions_view params_b
                query_filter now (mkWorld (db_of tbl users) log))
         = Returns
             (Json
                (DArr (filter (obj_matches [("active", DBool b)]) docs))).
Proof.
  intros tbl users log now params params_b query_filter b Hq Hnone Hb He.
  rewrite !_infraction_list_filtered_run. unfold list_filter.
  rewrite Hnone, Hb, He.
  eexists. split; [reflexivity|].
  do 3 f_equal.
  rewrite filter_map_swap. f_equal.
  unfold selected. rewrite <- filter_andb. apply filter_ext.
  intros r.
  rewrite obj_matches_active by exact Hq.
  rewrite obj_matches_derive by exact Hq.
  rewrite shaped_active_is.
  reflexivity.
Qed.

Lemma list_active_parameter_witness :
  exists docs,
    fst (_infraction_list_filtered bot_infractions_view None
           [("user_id", DStr "u1")] 20
           (mkWorld
              (db_of [mkInfraction "a" "mod" "u1" "ban" "spam" 10 (Some 15)
                        None;
                      mkInfraction "b" "mod" "u1" "ban" "more" 12 None None]
                 []) []))
    = Returns (Json (DArr docs))
    /\ fst (_infraction_list_filtered bot_infractions_view
              (Some [("active", "true")]) [("user_id", DStr "u1")] 20
              (mkWorld
                 (db_of [mkInfraction "a" "mod" "u1" "ban" "spam" 10 (Some 15)
                           None;
                         mkInfraction "b" "mod" "u1" "ban" "more" 12 None None]
                    []) []))
       = Returns
           (Json (DArr (filter (obj_matches [("active", DBool true)]) docs))).
Proof.
  apply (list_active_parameter_selects
           [mkInfraction "a" "mod" "u1" "ban" "spam" 10 (Some 15) None;
            mkInfraction "b" "mod" "u1" "ban" "more" 12 None None]
           [] [] 20 None (Some [("active", "true")])
           [("user_id", DStr "u1")] true);
    reflexivity.
Defined.

(** ** User objects *)

Lemma table_get_key pk docs key :
  table_get (mkTable pk docs) key = DNull
  \/ get_field (table_get (mkTable pk docs) key) pk = Some key.
Proof.
  unfold table_get. cbn [primary_key documents].
  destruct (find (has_key pk key) docs) as [doc|] eqn:E; [| left; reflexivity].
  right. apply find_some in E. destruct E as [_ E].
  unfold has_key in E. destruct (get_field doc pk) as [v|]; [| discriminate].
  apply datum_eqb_eq in E. subst v. reflexivity.
Qed.

Lemma user_ref_names_user users expand uid :
  get_field (user_ref users expand uid) "user_id" = Some (DStr uid).
Proof.
  unfold user_ref. destruct (truth_of_flag expand); [| reflexivity].
  destruct (table_get_key "user_id" users (DStr uid)) as [H | H].
  - rewrite H. reflexivity.
  - destruct (table_get (mkTable "user_id" users) (DStr uid));
      try exact H; reflexivity.
Qed.

(** However [expand] is set and whatever the users table holds, an
    infraction read by id carries no raw [user_id] or [actor_id]; it
    carries a [user] and an [actor] object instead, and the [user_id] of
    each is that of the stored reference. *)
Theorem user_objects_name_their_user :
  forall (tbl : list Infraction) (users : list datum) (log : list db_op)
         (params : option params_t) (key : string) (now : Z) (r : Infraction),
    find_by_id key tbl = Some r ->
    exists infraction user actor,
      fst (InfractionById_get params key now (mkWorld (db_of tbl users) log))
      = Returns (Json (DObj [("infraction", infraction)]))
      /\ get_field infraction "user_id" = None
      /\ get_field infraction "actor_id" = None
      /\ get_field infraction "user" = Some user
      /\ get_field user "user_id" = Some (DStr (user_id r))
      /\ get_field infraction "actor" = Some actor
      /\ get_field actor "user_id" = Some (DStr (actor_id r)).
Proof.
  intros tbl users log params key now r Hfind.
  rewrite InfractionById_get_run, Hfind. cbn [fst].
  eexists. eexists. eexists.
  split; [reflexivity|].
  split; [reflexivity|]. split; [reflexivity|].
  split; [reflexivity|]. split; [apply user_ref_names_user|].
  split; [reflexivity | apply user_ref_names_user].
Qed.

Lemma user_objects_witness :
  exists infraction user actor,
    fst (InfractionById_get (Some [("expand", "true")]) "a" 20
           (mkWorld
              (db_of [mkInfraction "a" "mod" "u1" "ban" "spam" 10 None None]
                 [DObj [("name", DStr "Ann"); ("user_id", DStr "u1")]]) []))
    = Returns (Json (DObj [("infraction", infraction)]))
    /\ get_field infraction "user_id" = None
    /\ get_field infraction "actor_id" = None
    /\ get_field infraction "user" = Some user
    /\ get_field user "user_id" = Some (DStr "u1")
    /\ get_field infraction "actor" = Some actor
    /\ get_field actor "user_id" = Some (DStr "mod").
Proof.
  apply (user_objects_name_their_user
           [mkInfraction "a" "mod" "u1" "ban" "spam" 10 None None]
           [DObj [("name", DStr "Ann"); ("user_id", DStr "u1")]] []
           (Some [("expand", "true")]) "a" 20
           (mkInfraction "a" "mod" "u1" "ban" "spam" 10 None None)
           eq_refl).
Defined.

Lemma shaped_without_expand users users' expand now r :
  truth_of_flag expand = false ->
  shaped users expand now r = shaped users' expand now r.
Proof.
  intros H. unfold shaped, user_ref. rewrite H. reflexivity.
Qed.

(** Unless [expand] is asked for, a list view never looks at the
    users table: the same infractions give the same answer whatever
    profiles are stored. *)
Theorem list_without_expand_ignores_users :
  forall (tbl : list Infraction) (users users' : list datum)
         (log log' : list db_op) (params : option params_t)
         (query_filter : list (string * datum)) (now : Z),
    truth_of_flag
      (parse_bool (dict_get "expand" (params_or_empty params)) (Some false))
    = false ->
    fst (_infraction_list_filtered bot_infractions_view params query_filter
           now (mkWorld (db_of tbl users) log))
    = fst (_infraction_list_filtered bot_infractions_view params query_filter
             now (mkWorld (db_of tbl users') log')).
Proof.
  intros tbl users users' log log' params query_filter now H.
  rewrite !_infraction_list_filtered_run.
  do 3 f_equal. apply map_ext. intros r.
  apply shaped_without_expand. exact H.
Qed.

Lemma list_without_expand_witness :
  fst (_infraction_list_filtered bot_infractions_view
         (Some [("expand", "no")]) [] 20
         (mkWorld
            (db_of [mkInfraction "a" "mod" "u1" "ban" "spam" 10 None None]
               [DObj [("name", DStr "Ann"); ("user_id", DStr "u1")]]) []))
  = fst (_infraction_list_filtered bot_infractions_view
           (Some [("expand", "no")]) [] 20
           (mkWorld
              (db_of [mkInfraction "a" "mod" "u1" "ban" "spam" 10 None None]
                 []) [])).
Proof.
  apply (list_without_expand_ignores_users
           [mkInfraction "a" "mod" "u1" "ban" "spam" 10 None None]
           [DObj [("name", DStr "Ann"); ("user_id", DStr "u1")]] [] [] []
           (Some [("expand", "no")]) [] 20 eq_refl).
Defined.

End InfractionsLifecycle.

(* ================================================================== *)
(** * Code-jam ban gate: what requests do to the table *)
(* ================================================================== *)

Module JamsInvariants.
Import Jams JamsTheorems.

(** ** The ban check: what it writes *)

Lemma get_loop_charges jam rs w :
  snd (get_loop jam rs w) = w
  \/ exists x,
       In x rs /\ number x <> 0 /\ number x <> -1
       /\ ~ In jam (decremented_for x)
       /\ fst (get_loop jam rs w) = Blocked (charge jam x)
       /\ snd (get_loop jam rs w) = db_upsert (charge jam x) w.
Proof.
  induction rs as [| y rs IH]; [left; reflexivity|].
  rewrite get_loop_first.
  destruct (number y =? -1) eqn:E1; [left; reflexivity|].
  destruct (number y =? 0) eqn:E2; cbn [negb].
  - destruct (jam_in jam (decremented_for y)); [left; reflexivity|].
    destruct IH as [IH | [x [Hx H]]]; [left; exact IH|].
    right. exists x. split; [right; exact Hx | exact H].
  - destruct (jam_in jam (decremented_for y)) eqn:E3; cbn [negb];
      [left; reflexivity|].
    right. exists y. apply Z.eqb_neq in E1, E2. apply jam_in_false in E3.
    repeat split; [left; reflexivity | assumption | assumption | assumption].
Qed.

(** A join request writes at most one thing.  Either the table is
    left as it was, or exactly one record is rewritten: a record of the
    requesting user whose count is neither 0 nor -1 and which does not yet
    list the jam; it loses one from its count and gains the jam, and it is
    the record the banned page is rendered with.  Every other record, and
    so every other user's, stays as it was, and no record is added or
    removed. *)
Theorem join_request_writes_one_record :
  forall (rq : request) (w : world),
    NoDup (map id (infractions_table w)) ->
    infractions_table (snd (serve rq w)) = infractions_table w
    \/ exists x,
         In x (infractions_table w)
         /\ participant x = request_user rq
         /\ number x <> 0 /\ number x <> -1
         /\ ~ In (request_jam rq) (decremented_for x)
         /\ fst (serve rq w) = Blocked (charge (request_jam rq) x)
         /\ infractions_table (snd (serve rq w))
            = map (fun y => if String.eqb (id y) (id x)
                            then charge (request_jam rq) x else y)
                (infractions_table w).
Proof.
  intros rq w Hnd.
  destruct (serve_as_get rq w) as [Hf Ht]. rewrite Hf, Ht.
  unfold get_check.
  destruct (get_loop_charges (request_jam rq)
              (get_infractions (infractions_table w) (request_user rq)) w)
    as [H | [x [Hx [H0 [H1 [Hd [Hb H]]]]]]]; rewrite H.
  - left. reflexivity.
  - right. exists x.
    assert (Hin : In x (infractions_table w))
      by exact (get_infractions_In _ _ _ Hx).
    unfold get_infractions in Hx. apply filter_In in Hx.
    destruct Hx as [_ Hp]. apply String.eqb_eq in Hp.
    repeat split; try assumption.
    cbn [db_upsert infractions_table].
    rewrite (upsert_charge _ x _ Hnd Hin). unfold charge_where.
    apply map_ext_in. intros y Hy.
    destruct (String.eqb (id y) (id x)) eqn:E; [| reflexivity].
    apply String.eqb_eq in E.
    rewrite (same_id_same_record _ x y Hnd Hin Hy E). reflexivity.
Qed.

Lemma join_request_writes_witness :
  NoDup (map id [mkJamInfraction "i1" "u1" "late" 2 [];
                 mkJamInfraction "i2" "u2" "rude" 1 []])
  /\ (infractions_table
        (snd (serve (PostJoin "u1" 7)
                (mkWorld [mkJamInfraction "i1" "u1" "late" 2 [];
                          mkJamInfraction "i2" "u2" "rude" 1 []] [])))
      = [mkJamInfraction "i1" "u1" "late" 2 [];
         mkJamInfraction "i2" "u2" "rude" 1 []]
      \/ exists x,
           In x [mkJamInfraction "i1" "u1" "late" 2 [];
                 mkJamInfraction "i2" "u2" "rude" 1 []]
           /\ participant x = "u1"
           /\ number x <> 0 /\ number x <> -1
           /\ ~ In 7 (decremented_for x)
           /\ fst (serve (PostJoin "u1" 7)
                     (mkWorld [mkJamInfraction "i1" "u1" "late" 2 [];
                               mkJamInfraction "i2" "u2" "rude" 1 []] []))
              = Blocked (charge 7 x)
           /\ infractions_table
                (snd (serve (PostJoin "u1" 7)
                        (mkWorld [mkJamInfraction "i1" "u1" "late" 2 [];
                                  mkJamInfraction "i2" "u2" "rude" 1 []] [])))
              = map (fun y => if String.eqb (id y) (id x)
                              then charge 7 x else y)
                  [mkJamInfraction "i1" "u1" "late" 2 [];
                   mkJamInfraction "i2" "u2" "rude" 1 []]).
Proof.
  assert (Hnd : NoDup (map id [mkJamInfraction "i1" "u1" "late" 2 [];
                               mkJamInfraction "i2" "u2" "rude" 1 []])).
  { cbn. repeat constructor; cbn; intuition discriminate. }
  split; [exact Hnd|].
  exact (join_request_writes_one_record (PostJoin "u1" 7)
           (mkWorld [mkJamInfraction "i1" "u1" "late" 2 [];
                     mkJamInfraction "i2" "u2" "rude" 1 []] []) Hnd).
Defined.

(** ** Counts stay in range *)

Lemma upsert_Forall (P : JamInfraction -> Prop) doc tbl :
  P doc -> Forall P tbl -> Forall P (upsert doc tbl).
Proof.
  intros Hd H. induction H as [| y tbl Hy Ht IH]; cbn [upsert].
  - constructor; [exact Hd | constructor].
  - destruct (String.eqb (id y) (id doc)); constructor; assumption.
Qed.

Lemma serve_keeps_range rq w :
  Forall (fun r => -1 <= number r) (infractions_table w) ->
  Forall (fun r => -1 <= number r) (infractions_table (snd (serve rq w))).
Proof.
  intros H. rewrite (proj2 (serve_as_get rq w)). unfold get_check.
  destruct (get_loop_charges (request_jam rq)
              (get_infractions (infractions_table w) (request_user rq)) w)
    as [E | [x [Hx [H0 [H1 [_ [_ E]]]]]]]; rewrite E; [exact H|].
  cbn [db_upsert infractions_table]. apply upsert_Forall; [| exact H].
  apply get_infractions_In in Hx.
  rewrite Forall_forall in H. specialize (H x Hx).
  cbn [charge number]. lia.
Qed.

(** Counts never leave their range.  If every stored count is -1 or
    more, so is every stored count after any run of join requests: only a
    count of 1 or more is ever decremented.  The branch that would take a
    count below -1 is therefore not reached from a table whose counts are
    in range. *)
Theorem counts_stay_in_range :
  forall (rqs : list request) (w : world),
    Forall (fun r => -1 <= number r) (infractions_table w) ->
    Forall (fun r => -1 <= number r) (infractions_table (serve_all rqs w)).
Proof.
  induction rqs as [| rq rqs IH]; intros w H; [exact H|].
  cbn [serve_all]. apply IH. apply serve_keeps_range. exact H.
Qed.

Lemma counts_stay_in_range_witness :
  Forall (fun r => -1 <= number r)
    (infractions_table
       (serve_all [GetJoin "u1" 7; PostJoin "u1" 8; GetJoin "u1" 9]
          (mkWorld [mkJamInfraction "i1" "u1" "late" 2 []] []))).
Proof.
  apply (counts_stay_in_range
           [GetJoin "u1" 7; PostJoin "u1" 8; GetJoin "u1" 9]
           (mkWorld [mkJamInfraction "i1" "u1" "late" 2 []] [])).
  repeat constructor. cbn. lia.
Defined.

(** ** Indefinite bans *)

(** An indefinite ban does not wear off.  When the first record of a
    user with a count other than 0 is an indefinite ban, then after any run
    of join requests, by anyone and for any jams, a request of that user
    for any jam is refused and writes nothing. *)
Theorem indefinite_ban_is_permanent :
  forall (w : world) (user : string) (pre rest : list JamInfraction)
         (r : JamInfraction) (rqs : list request) (rq : request),
    NoDup (map id (infractions_table w)) ->
    get_infractions (infractions_table w) user = pre ++ r :: rest ->
    Forall (fun x => number x = 0) pre ->
    number r = -1 ->
    request_user rq = user ->
    exists r',
      fst (serve rq (serve_all rqs w)) = Blocked r'
      /\ infractions_table (snd (serve rq (serve_all rqs w)))
         = infractions_table (serve_all rqs w).
Proof.
  intros w user pre rest r rqs rq Hnd Hrs Hpre Hr Hu.
  assert (Hs : settled user (request_jam rq) (infractions_table w)).
  { exists pre, r, rest. auto. }
  destruct (serve_all_preserves user (request_jam rq) rqs w Hnd Hs)
    as [_ Hs'].
  destruct (settled_blocks user (request_jam rq) _ Hs') as [r' [Hb Ht]].
  destruct (serve_as_get rq (serve_all rqs w)) as [Hf1 Ht1].
  rewrite Hu in Hf1, Ht1.
  exists r'. rewrite Hf1, Ht1. split; assumption.
Qed.

Lemma indefinite_ban_witness :
  exists r',
    fst (serve (PostJoin "u1" 9)
           (serve_all [GetJoin "u1" 7; PostJoin "u2" 7]
              (mkWorld [mkJamInfraction "i1" "u1" "cheat" (-1) [];
                        mkJamInfraction "i2" "u2" "rude" 1 []] [])))
    = Blocked r'
    /\ infractions_table
         (snd (serve (PostJoin "u1" 9)
                 (serve_all [GetJoin "u1" 7; PostJoin "u2" 7]
                    (mkWorld [mkJamInfraction "i1" "u1" "cheat" (-1) [];
                              mkJamInfraction "i2" "u2" "rude" 1 []] []))))
       = infractions_table
           (serve_all [GetJoin "u1" 7; PostJoin "u2" 7]
              (mkWorld [mkJamInfraction "i1" "u1" "cheat" (-1) [];
                        mkJamInfraction "i2" "u2" "rude" 1 []] [])).
Proof.
  apply (indefinite_ban_is_permanent
           (mkWorld [mkJamInfraction "i1" "u1" "cheat" (-1) [];
                     mkJamInfraction "i2" "u2" "rude" 1 []] [])
           "u1" [] [] (mkJamInfraction "i1" "u1" "cheat" (-1) [])
           [GetJoin "u1" 7; PostJoin "u2" 7] (PostJoin "u1" 9)).
  - cbn. repeat constructor; cbn; intuition discriminate.
  - reflexivity.
  - constructor.
  - reflexivity.
  - reflexivity.
Defined.

(** ** The countdown *)

Lemma serve_countdown rq w r :
  NoDup (map id (infractions_table w)) ->
  get_infractions (infractions_table w) (request_user rq) = [r] ->
  number r <> 0 -> number r <> -1 ->
  ~ In (request_jam rq) (decremented_for r) ->
  fst (serve rq w) = Blocked (charge (request_jam rq) r)
  /\ NoDup (map id (infractions_table (snd (serve rq w))))
  /\ get_infractions (infractions_table (snd (serve rq w))) (request_user rq)
     = [charge (request_jam rq) r].
Proof.
  intros Hnd Hrs H0 H1 Hd.
  destruct (serve_as_get rq w) as [Hf Ht]. rewrite Hf, Ht.
  unfold get_check. rewrite Hrs.
  rewrite (countdown_charges_any_nonzero_count _ _ _ _ H0 H1 Hd).
  cbn [fst snd db_upsert infractions_table].
  assert (Hin : In r (infractions_table w)).
  { apply (get_infractions_In _ (request_user rq)). rewrite Hrs.
    left. reflexivity. }
  rewrite (upsert_charge _ r _ Hnd Hin).
  split; [reflexivity|]. split.
  - rewrite charge_where_ids. exact Hnd.
  - rewrite get_infractions_charge_where, Hrs.
    unfold charge_where. cbn [map]. rewrite String.eqb_refl. reflexivity.
Qed.

Lemma countdown_state rqs :
  forall (w : world) (user : string) (r : JamInfraction) (k : Z),
    NoDup (map id (infractions_table w)) ->
    get_infractions (infractions_table w) user = [r] ->
    Forall (fun rq => request_user rq = user) rqs ->
    NoDup (map request_jam rqs) ->
    (forall j, In j (map request_jam rqs) -> ~ In j (decremented_for r)) ->
    number r = Z.of_nat (List.length rqs) + k ->
    0 <= k ->
    NoDup (map id (infractions_table (serve_all rqs w)))
    /\ get_infractions (infractions_table (serve_all rqs w)) user
       = [mkJamInfraction (id r) (participant r) (reason r) k
            (decremented_for r ++ map request_jam rqs)].
Proof.
  induction rqs as [| rq rqs IH];
    intros w user r k Hnd Hrs Hu Hjs Hfresh Hn Hk.
  - cbn [serve_all map List.length] in *. split; [exact Hnd|].
    rewrite Hrs, app_nil_r. destruct r as [i p re n d].
    cbn [id participant reason number decremented_for] in *.
    f_equal. f_equal. lia.
  - cbn [serve_all map] in *.
    inversion Hu as [| a l Hrq Hu']; subst a l.
    inversion Hjs as [| a l Hnotin Hjs']; subst a l.
    cbn [List.length] in Hn. rewrite Nat2Z.inj_succ in Hn.
    rewrite <- Hrq in Hrs.
    destruct (serve_countdown rq w r Hnd Hrs) as [_ [Hnd' Hrs']];
      [lia | lia | apply Hfresh; left; reflexivity |].
    rewrite Hrq in Hrs'.
    destruct (IH (snd (serve rq w)) user (charge (request_jam rq) r) k
                Hnd' Hrs' Hu' Hjs') as [Hnd'' Hfin].
    + intros j Hj. cbn [charge decremented_for]. intros Hin.
      apply in_app_or in Hin. destruct Hin as [Hin | [<- | []]].
      * exact (Hfresh j (or_intror Hj) Hin).
      * exact (Hnotin Hj).
    + cbn [charge number]. lia.
    + exact Hk.
    + split; [exact Hnd''|]. rewrite Hfin.
      cbn [charge id participant reason decremented_for].
      rewrite <- app_assoc. reflexivity.
Qed.

(** A countdown ban of [n] costs [n] jams.  Take a user whose only
    record has a count of [n + k] ([k] not negative), and [n] requests of
    that user for [n] different jams the record does not list yet.  Every
    one of them is refused; afterwards the record has a count of [k] and
    lists those jams after the ones it had, in the order of the requests.
    When [k = 0] the ban is used up: a request of that user for yet
    another jam is let through. *)
Theorem countdown_runs_out :
  forall (w : world) (user : string) (r : JamInfraction)
         (rqs : list request) (k : Z),
    NoDup (map id (infractions_table w)) ->
    get_infractions (infractions_table w) user = [r] ->
    Forall (fun rq => request_user rq = user) rqs ->
    NoDup (map request_jam rqs) ->
    (forall j, In j (map request_jam rqs) -> ~ In j (decremented_for r)) ->
    number r = Z.of_nat (List.length rqs) + k ->
    0 <= k ->
    (forall before rq after,
        rqs = before ++ rq :: after ->
        exists r', fst (serve rq (serve_all before w)) = Blocked r')
    /\ get_infractions (infractions_table (serve_all rqs w)) user
       = [mkJamInfraction (id r) (participant r) (reason r) k
            (decremented_for r ++ map request_jam rqs)]
    /\ (k = 0 ->
        forall rq,
          request_user rq = user ->
          ~ In (request_jam rq) (decremented_for r ++ map request_jam rqs) ->
          serve rq (serve_all rqs w) = (Clear, serve_all rqs w)).
Proof.
  intros w user r rqs k Hnd Hrs Hu Hjs Hfresh Hn Hk.
  destruct (countdown_state rqs w user r k Hnd Hrs Hu Hjs Hfresh Hn Hk)
    as [Hnd' Hfin].
  split; [| split; [exact Hfin|]].
  - intros before rq after Heq. subst rqs.
    apply Forall_app in Hu. destruct Hu as [Hub Hua].
    inversion Hua as [| a l Hrq _]; subst a l.
    rewrite map_app in Hjs, Hfresh. cbn [map] in Hjs, Hfresh.
    rewrite length_app in Hn. cbn [List.length] in Hn.
    destruct (countdown_state before w user r
                (Z.of_nat (S (List.length after)) + k) Hnd Hrs Hub)
      as [Hndb Hb].
    + exact (NoDup_app_remove_r _ _ Hjs).
    + intros j Hj. apply Hfresh. apply in_or_app. left. exact Hj.
    + rewrite Nat2Z.inj_add in Hn. lia.
    + lia.
    + rewrite <- Hrq in Hb.
      destruct (serve_countdown rq (serve_all before w) _ Hndb Hb)
        as [Hblocked _].
      * cbn [number]. lia.
      * cbn [number]. lia.
      * cbn [decremented_for]. intros Hin.
        apply in_app_or in Hin. destruct Hin as [Hin | Hin].
        -- apply (Hfresh (request_jam rq)); [| exact Hin].
           apply in_or_app. right. left. reflexivity.
        -- apply NoDup_remove_2 in Hjs. apply Hjs.
           apply in_or_app. left. exact Hin.
      * eexists. exact Hblocked.
  - intros Hk0 rq Hrq Hnew. subst k.
    destruct rq as [u j | u j]; cbn [request_user request_jam] in *; subst u;
      cbn [serve]; unfold get_check, post_check; rewrite Hfin;
      cbn [get_loop post_loop number decremented_for];
      apply jam_in_false in Hnew; rewrite Hnew; reflexivity.
Qed.

Lemma countdown_runs_out_witness :
  (forall before rq after,
      [GetJoin "u1" 7; PostJoin "u1" 8] = before ++ rq :: after ->
      exists r',
        fst (serve rq
               (serve_all before
                  (mkWorld [mkJamInfraction "i1" "u1" "late" 2 [3]] [])))
        = Blocked r')
  /\ get_infractions
       (infractions_table
          (serve_all [GetJoin "u1" 7; PostJoin "u1" 8]
             (mkWorld [mkJamInfraction "i1" "u1" "late" 2 [3]] []))) "u1"
     = [mkJamInfraction "i1" "u1" "late" 0 ([3] ++ [7; 8])]
  /\ (0 = 0 ->
      forall rq,
        request_user rq = "u1" ->
        ~ In (request_jam rq) ([3] ++ [7; 8]) ->
        serve rq
          (serve_all [GetJoin "u1" 7; PostJoin "u1" 8]
             (mkWorld [mkJamInfraction "i1" "u1" "late" 2 [3]] []))
        = (Clear,
           serve_all [GetJoin "u1" 7; PostJoin "u1" 8]
             (mkWorld [mkJamInfraction "i1" "u1" "late" 2 [3]] []))).
Proof.
  apply (countdown_runs_out
           (mkWorld [mkJamInfraction "i1" "u1" "late" 2 [3]] []) "u1"
           (mkJamInfraction "i1" "u1" "late" 2 [3])
           [GetJoin "u1" 7; PostJoin "u1" 8] 0).
  - cbn. repeat constructor. cbn. intuition.
  - reflexivity.
  - repeat constructor.
  - cbn. repeat constructor; cbn; intuition discriminate.
  - cbn. intros j [<- | [<- | []]] [H | []]; discriminate H.
  - reflexivity.
  - lia.
Defined.

(** ** What is logged *)

Lemma loops_events jam rs w :
  events (snd (get_loop jam rs w)) = events w
  /\ match fst (post_loop jam rs w) with
     | Clear => events (snd (post_loop jam rs w)) = events w
     | Blocked r =>
         events (snd (post_loop jam rs w))
         = events w
           ++ [if number r =? -1 then BannedIndefinitely (reason r)
               else if number r <? 1 then InfractionExpired (reason r)
               else ApplicationsLeft (number r) (reason r)]
     end.
Proof.
  induction rs as [| y rs IH]; [split; reflexivity|].
  rewrite get_loop_first, post_loop_first.
  destruct (number y =? -1) eqn:E1.
  { cbn [fst snd log_banned events]. rewrite E1. split; reflexivity. }
  destruct (number y =? 0) eqn:E2; cbn [negb].
  - destruct (jam_in jam (decremented_for y)).
    + cbn [fst snd log_banned events]. rewrite E1. split; reflexivity.
    + exact IH.
  - destruct (jam_in jam (decremented_for y)); cbn [negb fst snd].
    + unfold log_banned. cbn [events]. rewrite E1. split; reflexivity.
    + unfold log_banned, db_upsert. cbn [events charge number reason].
      split; reflexivity.
Qed.

(** What a join request tells the moderation log.  [get] sends
    nothing.  [post] sends nothing when the check is clear, and exactly one
    message when it refuses; the wording is chosen by the count of the
    record as it is rendered, that is after the charge if there was one:
    indefinite for -1, expired for a count below 1, and otherwise the
    number of applications left. *)
Theorem refusals_are_logged_once :
  forall (user : string) (jam : Z) (w : world),
    events (snd (get_check user jam w)) = events w
    /\ match fst (post_check user jam w) with
       | Clear => events (snd (post_check user jam w)) = events w
       | Blocked r =>
           events (snd (post_check user jam w))
           = events w
             ++ [if number r =? -1 then BannedIndefinitely (reason r)
                 else if number r <? 1 then InfractionExpired (reason r)
                 else ApplicationsLeft (number r) (reason r)]
       end.
Proof.
  intros user jam w. unfold get_check, post_check. apply loops_events.
Qed.

End JamsInvariants.

(* ================================================================== *)
(** * Code-jam applications: the form and the views *)
(* ================================================================== *)

Module JamsJoinTheorems.
Import Py Jams JamsJoin JamsTheorems JamsInvariants.


Ltac at_type H Ht :=
  rewrite Ht in H;
  cbn [String.eqb Ascii.eqb Bool.eqb existsb orb andb negb] in H.

Lemma no_address_spec address :
  no_address address = true <-> address = ("", "").
Proof.
  destruct address as [a b]. unfold no_address. cbn [fst snd].
  rewrite andb_true_iff, !String.eqb_eq. split.
  - intros [-> ->]. reflexivity.
  - intros H. inversion H. split; reflexivity.
Qed.

Lemma truth_of_value_spec v :
  truth_of_value (Some v) = true <-> v <> "".
Proof.
  unfold truth_of_value. rewrite negb_true_iff. apply String.eqb_neq.
Qed.

Lemma existsb_eqb_In v l :
  existsb (String.eqb v) l = true <-> In v l.
Proof.
  rewrite existsb_exists. split.
  - intros [x [Hx E]]. apply String.eqb_eq in E. subst x. exact Hx.
  - intros H. exists v. split; [exact H | apply String.eqb_refl].
Qed.

Lemma validate_question parseaddr int form q a :
  validate parseaddr int form q = Valid a -> a_question a = question_id q.
Proof.
  unfold validate. intros H.
  repeat match type of H with
         | (if ?c then _ else _) = _ => destruct c
         | match ?x with _ => _ end = _ => destruct x
         end;
    try discriminate H; inversion H; reflexivity.
Qed.

Lemma validate_required parseaddr int form q a :
  validate parseaddr int form q = Valid a ->
  optional q = false -> dict_get (question_id q) form <> None.
Proof.
  unfold validate. intros H Ho. rewrite Ho in H. cbn [negb andb] in H.
  destruct (dict_get (question_id q) form); [discriminate|].
  cbn [is_None] in H. discriminate H.
Qed.

Lemma validate_fits parseaddr int form q a :
  validate parseaddr int form q = Valid a -> fits parseaddr int form q a.
Proof.
  intros H. unfold fits.
  split; [exact (validate_question _ _ _ _ _ H)|].
  split; [exact (validate_required _ _ _ _ _ H)|].
  unfold validate in H.
  destruct (negb (optional q) && is_None (dict_get (question_id q) form))%bool
    eqn:Ereq; [discriminate H|].
  split; [| split; [| split; [| split]]].
  - intros Ht. at_type H Ht.
    destruct (is_on (dict_get (question_id q) form)) eqn:Eon.
    + inversion H. split; [reflexivity|]. intros _.
      unfold is_on in Eon.
      destruct (dict_get (question_id q) form) as [v|]; [| discriminate].
      apply String.eqb_eq in Eon. subst v. reflexivity.
    + destruct (optional q); cbn [negb] in H; [| discriminate H].
      inversion H. split; [reflexivity | discriminate].
  - intros Ht. at_type H Ht.
    destruct (dict_get (question_id q) form) as [v|] eqn:Ev.
    + destruct (truth_of_value (Some v) && no_address (parseaddr v))%bool
        eqn:Ebad; [discriminate H|].
      inversion H. split; [reflexivity|].
      intros v' Hv' Hne. inversion Hv'; subst v'.
      apply truth_of_value_spec in Hne. rewrite Hne in Ebad.
      cbn [andb] in Ebad. intros Hno. apply no_address_spec in Hno.
      congruence.
    + inversion H. split; [reflexivity | discriminate].
  - intros Ht.
    assert (Hnum : existsb (String.eqb (question_type q))
                     ["number"; "range"; "slider"] = true)
      by (apply existsb_eqb_In; exact Ht).
    assert (Hc : String.eqb (question_type q) "checkbox" = false).
    { destruct Ht as [<- | [<- | [<- | []]]]; reflexivity. }
    assert (He : String.eqb (question_type q) "email" = false).
    { destruct Ht as [<- | [<- | [<- | []]]]; reflexivity. }
    rewrite Hc, He, Hnum in H.
    destruct (dict_get (question_id q) form) as [v|].
    + destruct (int v) as [n|]; [| discriminate H].
      destruct ((n >? data_max q) || (n <? data_min q))%bool eqn:Ebad;
        [discriminate H|].
      apply orb_false_iff in Ebad. destruct Ebad as [E1 E2].
      exists n. inversion H. repeat split; try reflexivity; lia.
    + inversion H. reflexivity.
  - intros Ht. at_type H Ht.
    destruct (dict_get (question_id q) form) as [v|] eqn:Ev.
    + destruct (truth_of_value (Some v)
                && negb (existsb (String.eqb v) (data_options q)))%bool
        eqn:Ebad; [discriminate H|].
      inversion H. split; [reflexivity|].
      intros v' Hv' Hne. inversion Hv'; subst v'.
      apply truth_of_value_spec in Hne. rewrite Hne in Ebad.
      cbn [andb] in Ebad. apply negb_false_iff in Ebad.
      apply existsb_eqb_In. exact Ebad.
    + inversion H. split; [reflexivity | discriminate].
  - intros Ht.
    destruct Ht as [Ht | [Ht | []]]; symmetry in Ht; at_type H Ht;
      inversion H; reflexivity.
Qed.

Lemma answers_loop_fits parseaddr int form questions :
  forall acc answers,
    answers_loop parseaddr int form questions acc = Valid answers ->
    exists qs new,
      questions = map Some qs
      /\ answers = acc ++ new
      /\ Forall2 (fits parseaddr int form) qs new.
Proof.
  induction questions as [| [q|] questions IH]; intros acc answers H;
    cbn [answers_loop] in H.
  - inversion H. exists [], []. rewrite app_nil_r.
    repeat split. constructor.
  - destruct (validate parseaddr int form q) as [a | | e] eqn:Ev;
      try discriminate H.
    destruct (IH _ _ H) as [qs [new [Hq [Ha Hf]]]].
    exists (q :: qs), (a :: new). subst questions answers.
    rewrite <- app_assoc. repeat split.
    constructor; [apply validate_fits; exact Ev | exact Hf].
  - discriminate H.
Qed.

(** What an accepted form holds.  When the validation loop goes
    through, every question of the form was found, and there is one answer
    per question, in the order of the questions, each under the id of its
    question.  A question that is not optional has a submitted value; a
    checkbox is answered [True] exactly for ["on"], and a required one was
    ["on"]; a numeric answer is the int of the submitted value and lies
    between the bounds, both included; a radio or email value that is not
    empty is one of the options, or parses as an address; text is passed
    through. *)
Theorem accepted_answers_fit_their_questions :
  forall (parseaddr : string -> string * string) (int : string -> option Z)
         (form : list (string * string)) (questions : list (option Question))
         (answers : list Answer),
    answers_loop parseaddr int form questions [] = Valid answers ->
    exists qs,
      questions = map Some qs
      /\ Forall2 (fits parseaddr int form) qs answers.
Proof.
  intros parseaddr int form questions answers H.
  destruct (answers_loop_fits _ _ _ _ _ _ H) as [qs [new [Hq [Ha Hf]]]].
  exists qs. subst answers. split; [exact Hq | exact Hf].
Qed.

Lemma accepted_answers_witness :
  exists qs,
    [Some (mkQuestion "age" false "number" 99 13 []);
     Some (mkQuestion "tos" false "checkbox" 0 0 [])]
    = map Some qs
    /\ Forall2
         (fits (fun s => ("", s)) (fun s => if String.eqb s "20" then Some 20 else None)
            [("age", "20"); ("tos", "on")])
         qs
         [mkAnswer "age" (Some (Number (Some 20)));
          mkAnswer "tos" (Some (Checked true))].
Proof.
  apply (accepted_answers_fit_their_questions
           (fun s => ("", s))
           (fun s => if String.eqb s "20" then Some 20 else None)
           [("age", "20"); ("tos", "on")]
           [Some (mkQuestion "age" false "number" 99 13 []);
            Some (mkQuestion "tos" false "checkbox" 0 0 [])]
           [mkAnswer "age" (Some (Number (Some 20)));
            mkAnswer "tos" (Some (Checked true))]).
  reflexivity.
Defined.

(** An empty string counts as an answer.  A question is required by
    the test [value is None], while the checks of its value are guarded by
    the truth of the value: so a submitted empty string is accepted as it
    is for an email, radio, text or textarea question, required or not,
    whatever the options are and without the address being parsed. *)
Theorem empty_string_satisfies_required :
  forall (parseaddr : string -> string * string) (int : string -> option Z)
         (form : list (string * string)) (q : Question),
    dict_get (question_id q) form = Some "" ->
    In (question_type q) ["email"; "radio"; "text"; "textarea"] ->
    validate parseaddr int form q
    = Valid (mkAnswer (question_id q) (Some (Text (Some "")))).
Proof.
  intros parseaddr int form q Hv Ht. unfold validate. rewrite Hv.
  cbn [is_None andb truth_of_value String.eqb negb].
  rewrite andb_false_r.
  destruct Ht as [Ht | [Ht | [Ht | [Ht | []]]]]; rewrite <- Ht;
    reflexivity.
Qed.

Lemma empty_string_witness :
  validate (fun s => ("", "")) (fun _ => None) [("mail", "")]
    (mkQuestion "mail" false "email" 0 0 [])
  = Valid (mkAnswer "mail" (Some (Text (Some "")))).
Proof.
  apply (empty_string_satisfies_required (fun s => ("", "")) (fun _ => None)
           [("mail", "")] (mkQuestion "mail" false "email" 0 0 [])).
  - reflexivity.
  - left. reflexivity.
Defined.

(** ** The views *)

Lemma checks_clear user jam w :
  fst (post_check user jam w) = Clear ->
  post_check user jam w = (Clear, w) /\ get_check user jam w = (Clear, w).
Proof.
  unfold post_check, get_check. intros H.
  rewrite (proj1 (loops_agree jam _ w)) in H.
  apply get_loop_clear in H.
  rewrite <- (app_nil_r (get_infractions (infractions_table w) user)).
  rewrite post_loop_skip, get_loop_skip by exact H.
  split; reflexivity.
Qed.

Lemma same_site s :
  mkSite (code_jams s) (code_jam_forms s) (code_jam_questions s)
    (code_jam_responses s) (code_jam_participants s) (code_jam_infractions s)
    (bot_events s ++ map Refusal [])
  = s.
Proof. destruct s. cbn. rewrite app_nil_r. reflexivity. Qed.

Lemma ban_check_clear check s :
  check (mkWorld (code_jam_infractions s) [])
  = (Clear, mkWorld (code_jam_infractions s) []) ->
  ban_check check s = (Clear, s).
Proof.
  intros H. unfold ban_check. rewrite H.
  cbn [infractions_table events]. rewrite same_site. reflexivity.
Qed.

Lemma ban_check_fst check s :
  fst (ban_check check s)
  = fst (check (mkWorld (code_jam_infractions s) [])).
Proof.
  unfold ban_check.
  destruct (check (mkWorld (code_jam_infractions s) [])). reflexivity.
Qed.

Lemma ban_check_frame check s :
  code_jams (snd (ban_check check s)) = code_jams s
  /\ code_jam_forms (snd (ban_check check s)) = code_jam_forms s
  /\ code_jam_questions (snd (ban_check check s)) = code_jam_questions s
  /\ code_jam_responses (snd (ban_check check s)) = code_jam_responses s
  /\ code_jam_participants (snd (ban_check check s)) = code_jam_participants s
  /\ bot_events (snd (ban_check check s))
     = bot_events s
       ++ map Refusal
            (events (snd (check (mkWorld (code_jam_infractions s) [])))).
Proof.
  unfold ban_check.
  destruct (check (mkWorld (code_jam_infractions s) [])).
  repeat split.
Qed.

Lemma db_get_question_id s key q :
  db_get_question s key = Some q -> question_id q = key.
Proof.
  unfold db_get_question. intros H. apply find_some in H.
  apply String.eqb_eq. exact (proj2 H).
Qed.

Lemma found_question_ids s keys qs :
  map (db_get_question s) keys = map Some qs -> map question_id qs = keys.
Proof.
  revert qs. induction keys as [| k keys IH]; intros [| q qs] H;
    try discriminate H; [reflexivity|].
  cbn [map] in *. inversion H as [[Hq Hrest]].
  rewrite (db_get_question_id _ _ _ Hq), (IH _ Hrest). reflexivity.
Qed.

Lemma fits_questions parseaddr int form qs answers :
  Forall2 (fits parseaddr int form) qs answers ->
  map a_question answers = map question_id qs.
Proof.
  induction 1 as [| q a qs answers [Hq _] _ IH]; [reflexivity|].
  cbn [map]. rewrite Hq, IH. reflexivity.
Qed.

(** The one path through [post] that ends in the thanks page. *)
Lemma post_thanks parseaddr int user_data form jam s :
  fst (JamsJoinView_post parseaddr int user_data form jam s) = Done Thanks ->
  exists user form_obj answers,
    user_data = Some user
    /\ db_get_jam s jam = true
    /\ post_check user jam (mkWorld (code_jam_infractions s) [])
       = (Clear, mkWorld (code_jam_infractions s) [])
    /\ db_get_participant s user = true
    /\ get_response s jam user = None
    /\ db_get_form s jam = Some form_obj
    /\ answers_loop parseaddr int form
         (map (db_get_question s) (form_questions form_obj)) []
       = Valid answers
    /\ JamsJoinView_post parseaddr int user_data form jam s
       = (Done Thanks,
          log_success user
            (db_insert_response (mkResponse user jam false answers) s)).
Proof.
  unfold JamsJoinView_post.
  destruct (db_get_jam s jam) eqn:Ejam; cbn [negb]; [| discriminate].
  destruct user_data as [user|]; [| discriminate].
  destruct (fst (post_check user jam (mkWorld (code_jam_infractions s) [])))
    as [r|] eqn:Egate.
  { intros H. exfalso. revert H. unfold ban_check.
    destruct (post_check user jam (mkWorld (code_jam_infractions s) []))
      as [g w]. cbn [fst] in Egate. subst g. discriminate. }
  destruct (checks_clear _ _ _ Egate) as [Hpost _].
  rewrite (ban_check_clear _ _ Hpost).
  destruct (db_get_participant s user) eqn:Epart; cbn [negb]; [| discriminate].
  destruct (get_response s jam user) as [r|] eqn:Eresp; cbn [is_None negb];
    [discriminate|].
  destruct (db_get_form s jam) as [form_obj|] eqn:Eform; [| discriminate].
  destruct (answers_loop parseaddr int form
              (map (db_get_question s) (form_questions form_obj)) [])
    as [answers| |e] eqn:Eloop; try discriminate.
  intros _. exists user, form_obj, answers. repeat split; assumption.
Qed.

Lemma post_other parseaddr int user_data form jam s :
  fst (JamsJoinView_post parseaddr int user_data form jam s) <> Done Thanks ->
  code_jam_responses (snd (JamsJoinView_post parseaddr int user_data form jam s))
  = code_jam_responses s
  /\ exists refusals,
       bot_events (snd (JamsJoinView_post parseaddr int user_data form jam s))
       = bot_events s ++ map Refusal refusals.
Proof.
  assert (Hnil : code_jam_responses s = code_jam_responses s
                 /\ exists refusals,
                      bot_events s = bot_events s ++ map Refusal refusals).
  { split; [reflexivity|]. exists []. cbn [map]. rewrite app_nil_r.
    reflexivity. }
  unfold JamsJoinView_post.
  destruct (db_get_jam s jam); cbn [negb]; [| intros _; exact Hnil].
  destruct user_data as [user|]; [| intros _; exact Hnil].
  destruct (ban_check_frame (post_check user jam) s)
    as [_ [_ [_ [Hr [_ He]]]]].
  destruct (ban_check (post_check user jam) s) as [[r|] s1] eqn:Egate;
    cbn [snd] in Hr, He.
  { intros _. cbn [snd]. split; [exact Hr|]. eexists. exact He. }
  assert (Hs1 : code_jam_responses s1 = code_jam_responses s
                /\ exists refusals,
                     bot_events s1 = bot_events s ++ map Refusal refusals).
  { split; [exact Hr|]. eexists. exact He. }
  destruct (db_get_participant s1 user); cbn [negb]; [| intros _; exact Hs1].
  destruct (is_None (get_response s1 jam user)); cbn [negb];
    [| intros _; exact Hs1].
  destruct (db_get_form s1 jam) as [form_obj|]; [| intros _; exact Hs1].
  destruct (answers_loop parseaddr int form
              (map (db_get_question s1) (form_questions form_obj)) [])
    as [answers| |e]; cbn [fst snd].
  - intros H. exfalso. apply H. reflexivity.
  - intros _. exact Hs1.
  - intros _. exact Hs1.
Qed.

(** An application is stored on one path only.  Either [post] ends in the
    thanks page: then the user was logged in, one response is added, for
    that user and jam, not approved, with one answer per question of the
    jam's form in the order of the form; the two success events are sent;
    and the infractions table is as it was.  Or it ends otherwise: then no
    response is stored and nothing but refusals is sent. *)
Theorem application_stored_only_with_thanks :
  forall (parseaddr : string -> string * string) (int : string -> option Z)
         (user_data : option string) (form : list (string * string))
         (jam : Z) (s : site),
    (exists user form_obj answers,
        user_data = Some user
        /\ fst (JamsJoinView_post parseaddr int user_data form jam s)
           = Done Thanks
        /\ db_get_form s jam = Some form_obj
        /\ map a_question answers = form_questions form_obj
        /\ code_jam_responses
             (snd (JamsJoinView_post parseaddr int user_data form jam s))
           = code_jam_responses s ++ [mkResponse user jam false answers]
        /\ bot_events
             (snd (JamsJoinView_post parseaddr int user_data form jam s))
           = bot_events s ++ [SignupLogged user; SignupEmbed user]
        /\ code_jam_infractions
             (snd (JamsJoinView_post parseaddr int user_data form jam s))
           = code_jam_infractions s)
    \/ (fst (JamsJoinView_post parseaddr int user_data form jam s)
        <> Done Thanks
        /\ code_jam_responses
             (snd (JamsJoinView_post parseaddr int user_data form jam s))
           = code_jam_responses s
        /\ exists refusals,
             bot_events
               (snd (JamsJoinView_post parseaddr int user_data form jam s))
             = bot_events s ++ map Refusal refusals).
Proof.
  intros parseaddr int user_data form jam s.
  destruct (fst (JamsJoinView_post parseaddr int user_data form jam s))
    as [p|e] eqn:Ep.
  2:{ right. split; [discriminate|]. apply post_other. rewrite Ep.
      discriminate. }
  assert (Hdec : p = Thanks \/ p <> Thanks)
    by (destruct p; (left; reflexivity) || (right; discriminate)).
  destruct Hdec as [-> | Hne].
  - left.
    destruct (post_thanks _ _ _ _ _ _ Ep)
      as [user [form_obj [answers [Hu [_ [_ [_ [_ [Hf [Hloop Hrun]]]]]]]]]].
    exists user, form_obj, answers.
    destruct (answers_loop_fits _ _ _ _ _ _ Hloop) as [qs [new [Hq [Ha Hfit]]]].
    cbn [app] in Ha. subst new.
    rewrite Hrun. cbn [fst snd].
    split; [exact Hu|]. split; [reflexivity|]. split; [exact Hf|].
    split.
    { rewrite (fits_questions _ _ _ _ _ Hfit).
      exact (found_question_ids _ _ _ Hq). }
    unfold log_success, rmq_bot_event, db_insert_response.
    cbn [code_jam_responses bot_events code_jam_infractions].
    rewrite <- app_assoc. repeat split.
  - right. split; [congruence|]. apply post_other. rewrite Ep. congruence.
Qed.

Lemma filter_last_only {A} (f : A -> bool) l x :
  filter f l = [] -> f x = true -> filter f (l ++ [x]) = [x].
Proof.
  intros Hl Hx. rewrite filter_app, Hl. cbn [filter app]. rewrite Hx.
  reflexivity.
Qed.

(** A second application is told so.  Once [post] has ended in the thanks
    page, another [post] by the same user for the same jam, whatever it
    submits, and a [get] as well, end in the page for those who have
    already applied, and change nothing. *)
Theorem second_application_is_already :
  forall (parseaddr : string -> string * string) (int : string -> option Z)
         (user : string) (form form' : list (string * string)) (jam : Z)
         (s : site),
    fst (JamsJoinView_post parseaddr int (Some user) form jam s)
    = Done Thanks ->
    JamsJoinView_post parseaddr int (Some user) form' jam
      (snd (JamsJoinView_post parseaddr int (Some user) form jam s))
    = (Done Already,
       snd (JamsJoinView_post parseaddr int (Some user) form jam s))
    /\ JamsJoinView_get (Some user) jam
         (snd (JamsJoinView_post parseaddr int (Some user) form jam s))
       = (Done Already,
          snd (JamsJoinView_post parseaddr int (Some user) form jam s)).
Proof.
  intros parseaddr int user form form' jam s H.
  destruct (post_thanks _ _ _ _ _ _ H)
    as [u [form_obj [answers [Hu [Hjam [Hgate [Hpart [Hresp [_ [_ Hrun]]]]]]]]]].
  inversion Hu; subst u. rewrite Hrun. cbn [snd].
  set (s' := log_success user
               (db_insert_response (mkResponse user jam false answers) s)).
  assert (Hjam' : db_get_jam s' jam = true) by exact Hjam.
  assert (Hpart' : db_get_participant s' user = true) by exact Hpart.
  assert (Hpost : post_check user jam (mkWorld (code_jam_infractions s') [])
                  = (Clear, mkWorld (code_jam_infractions s') []))
    by exact Hgate.
  assert (Hget : get_check user jam (mkWorld (code_jam_infractions s') [])
                 = (Clear, mkWorld (code_jam_infractions s') [])).
  { apply (checks_clear user jam). change (code_jam_infractions s')
      with (code_jam_infractions s). rewrite Hgate. reflexivity. }
  assert (Hresp' : get_response s' jam user
                   = Some (mkResponse user jam false answers)).
  { unfold get_response in *. cbn [s' log_success rmq_bot_event
                                   db_insert_response code_jam_responses].
    rewrite filter_last_only; [reflexivity | |].
    - destruct (filter _ (code_jam_responses s)); [reflexivity | discriminate].
    - cbn [r_jam r_snowflake]. rewrite Z.eqb_refl, String.eqb_refl.
      reflexivity. }
  split.
  - unfold JamsJoinView_post.
    rewrite Hjam', (ban_check_clear _ _ Hpost), Hpart', Hresp'. reflexivity.
  - unfold JamsJoinView_get.
    rewrite Hjam', (ban_check_clear _ _ Hget), Hpart', Hresp'. reflexivity.
Qed.

Lemma second_application_witness :
  fst (JamsJoinView_post (fun s => ("", s))
         (fun s => if String.eqb s "20" then Some 20 else None)
         (Some "u1") [("age", "20")] 5
         (mkSite [5] [mkForm 5 ["age"]]
            [mkQuestion "age" false "number" 99 13 []] [] ["u1"] [] []))
  = Done Thanks
  /\ fst (JamsJoinView_post (fun s => ("", s))
            (fun s => if String.eqb s "20" then Some 20 else None)
            (Some "u1") [("age", "21")] 5
            (snd (JamsJoinView_post (fun s => ("", s))
                    (fun s => if String.eqb s "20" then Some 20 else None)
                    (Some "u1") [("age", "20")] 5
                    (mkSite [5] [mkForm 5 ["age"]]
                       [mkQuestion "age" false "number" 99 13 []] [] ["u1"]
                       [] []))))
     = Done Already.
Proof.
  assert (H : fst (JamsJoinView_post (fun s => ("", s))
                     (fun s => if String.eqb s "20" then Some 20 else None)
                     (Some "u1") [("age", "20")] 5
                     (mkSite [5] [mkForm 5 ["age"]]
                        [mkQuestion "age" false "number" 99 13 []] [] ["u1"]
                        [] []))
              = Done Thanks) by reflexivity.
  split; [exact H|].
  rewrite (proj1 (second_application_is_already
                    (fun s => ("", s))
                    (fun s => if String.eqb s "20" then Some 20 else None)
                    "u1" [("age", "20")] [("age", "21")] 5
                    (mkSite [5] [mkForm 5 ["age"]]
                       [mkQuestion "age" false "number" 99 13 []] [] ["u1"]
                       [] []) H)).
  reflexivity.
Defined.

(** [get] stores no application and sends nothing: whatever page it ends
    in, every table but the infractions table, and the events sent, are
    as they were. *)
Theorem get_touches_only_infractions :
  forall (user_data : option string) (jam : Z) (s : site),
    code_jams (snd (JamsJoinView_get user_data jam s)) = code_jams s
    /\ code_jam_forms (snd (JamsJoinView_get user_data jam s))
       = code_jam_forms s
    /\ code_jam_questions (snd (JamsJoinView_get user_data jam s))
       = code_jam_questions s
    /\ code_jam_responses (snd (JamsJoinView_get user_data jam s))
       = code_jam_responses s
    /\ code_jam_participants (snd (JamsJoinView_get user_data jam s))
       = code_jam_participants s
    /\ bot_events (snd (JamsJoinView_get user_data jam s)) = bot_events s.
Proof.
  intros user_data jam s.
  assert (Hnil : code_jams s = code_jams s
                 /\ code_jam_forms s = code_jam_forms s
                 /\ code_jam_questions s = code_jam_questions s
                 /\ code_jam_responses s = code_jam_responses s
                 /\ code_jam_participants s = code_jam_participants s
                 /\ bot_events s = bot_events s) by (repeat split).
  unfold JamsJoinView_get.
  destruct (db_get_jam s jam); cbn [negb]; [| exact Hnil].
  destruct user_data as [user|]; [| exact Hnil].
  pose proof (ban_check_frame (get_check user jam) s) as Hframe.
  assert (Hev : events (snd (get_check user jam
                               (mkWorld (code_jam_infractions s) []))) = []).
  { unfold get_check. rewrite (proj1 (loops_events _ _ _)). reflexivity. }
  rewrite Hev in Hframe. cbn [map] in Hframe. rewrite app_nil_r in Hframe.
  destruct (ban_check (get_check user jam) s) as [[r|] s1];
    cbn [snd] in Hframe; [exact Hframe|].
  destruct (db_get_participant s1 user); cbn [negb]; [| exact Hframe].
  destruct (is_None (get_response s1 jam user)); cbn [negb];
    [| exact Hframe].
  destruct (question_ids _); exact Hframe.
Qed.

End JamsJoinTheorems.
